(** * App-In performance overview: the aggregation engine of
      [internal/appin/coversion.go], embedded and verified.

    The engine turns a slice of case records into the [Overview] report:
    conversion counters and rates, duration histograms, a leaderboard, the
    best-time performer and per-product metrics.

    Conventions of the embedding.
    - [time.Time] is an integer number of nanoseconds on an unbounded time
      line; [time.Duration] is an [int64] number of nanoseconds.
    - [int64] counters are [Z]. A counter is incremented at most once per
      record, so it never exceeds [len(appIns)] and [++] never wraps; the
      running sum of durations can wrap and is wrapped explicitly.
    - [float32] values are the rationals they denote; every operation rounds
      to the nearest binary32 value, ties to even ([F32.rnd]).
    - Go maps are [gmap]s. A [for ... range] over a map visits the entries in
      an unspecified order: a function that ranges over a map receives that
      order as a list, required to be a permutation of the map's entries.
    - [sort.Slice] is known by its contract only ([SortSlice]); the
      insertion sort that the Go library runs on short slices is one
      instance. *)

From Stdlib Require Import ZArith QArith Qround Qpower Lia Lqa.
From stdpp Require Import gmap strings list sorting.

Local Open Scope Z_scope.

(** ** Go strings *)

Module GoStrings.

(** [strings.ToLower] on ASCII: the letters A-Z are mapped to a-z and
    every other byte is kept (case mapping of runes outside ASCII is not
    part of the model). *)
Definition lower_ascii (c : Ascii.ascii) : Ascii.ascii :=
  let n := Ascii.nat_of_ascii c in
  if ((65 <=? n)%nat && (n <=? 90)%nat)%bool then Ascii.ascii_of_nat (n + 32) else c.

Fixpoint ToLower (s : string) : string :=
  match s with
  | EmptyString => EmptyString
  | String c s' => String (lower_ascii c) (ToLower s')
  end.

(** [strings.Contains s substr]: [substr] occurs at some offset of [s]. *)
Fixpoint Contains (s substr : string) : bool :=
  String.prefix substr s ||
  match s with
  | EmptyString => false
  | String _ s' => Contains s' substr
  end.

(** [len(s)] *)
Definition len (s : string) : Z := Z.of_nat (String.length s).

(** [s == ""] *)
Definition is_empty (s : string) : bool :=
  match s with EmptyString => true | String _ _ => false end.

End GoStrings.
Export GoStrings.

(** ** Package [time] *)

Module GoTime.

(** Instants and durations, both counted in nanoseconds. *)
Abbreviation Time := Z (only parsing).
Abbreviation Duration := Z (only parsing).

Definition minDuration : Duration := - 2 ^ 63.
Definition maxDuration : Duration := 2 ^ 63 - 1.

Definition Nanosecond : Duration := 1.
Definition Second : Duration := 1000000000.
Definition Minute : Duration := 60 * Second.
Definition Hour : Duration := 60 * Minute.

(** [int64] wrap-around, for arithmetic on durations. *)
Definition wrap64 (z : Z) : Z := (z + 2 ^ 63) mod 2 ^ 64 - 2 ^ 63.

(** [t.Sub(u)]: the difference, saturated to the range of [Duration]. *)
Definition Sub (t u : Time) : Duration :=
  Z.max minDuration (Z.min maxDuration (t - u)).

End GoTime.
Export GoTime.

(** ** [float32] arithmetic *)

Module F32.

Local Open Scope Q_scope.

Definition pow2 (k : Z) : Q := 2 ^ k.

(** Exponent of a positive rational: [pow2 k <= x < pow2 (k + 1)]. *)
Definition ilog2 (x : Q) : Z :=
  let k0 := (Z.log2 (Qnum x) - Z.log2 (Zpos (Qden x)))%Z in
  if Qle_bool (pow2 k0) x then k0 else (k0 - 1)%Z.

(** Nearest integer, ties to even. *)
Definition rne (x : Q) : Z :=
  let f := Qfloor x in
  match Qcompare (x - inject_Z f) (1 # 2) with
  | Lt => f
  | Gt => (f + 1)%Z
  | Eq => if Z.even f then f else (f + 1)%Z
  end.

(** binary32 has a 24-bit significand and its least exponent is -149
    (subnormals included). Overflow to infinity, above [2^127], is not
    modelled: the engine only rounds values below [2^70]. *)
Definition rnd_pos (x : Q) : Q :=
  let e := Z.max (ilog2 x - 23) (-149) in
  inject_Z (rne (x / pow2 e)) * pow2 e.

Definition rnd (x : Q) : Q :=
  let y := Qred x in
  match Qnum y with
  | Z0 => 0
  | Zpos _ => Qred (rnd_pos y)
  | Zneg _ => Qred (- rnd_pos (- y))
  end.

(** [float32(n)] for an integer [n] *)
Definition of_int (n : Z) : Q := rnd (inject_Z n).
(** [x / y] and [x * y] on [float32] *)
Definition div (x y : Q) : Q := rnd (x / y).
Definition mul (x y : Q) : Q := rnd (x * y).

(** [x > y], [x < y] and [x != y] on [float32] (no NaN arises here) *)
Definition gtb (x y : Q) : bool := negb (Qle_bool x y).
Definition ltb (x y : Q) : bool := negb (Qle_bool y x).
Definition neqb (x y : Q) : bool := negb (Qeq_bool x y).

End F32.

(** ** The records *)

Record AppIn := {
  Number : string;
  Product : string;
  Type_ : string;
  Status : string;
  Executor : string;
  CompletedAt : option Time;
  CreatedAt : Time
}.

Record CAFinal := {
  caNumber : string;
  caExecutor : string;
  caStatus : string;
  caCompletedAt : option Time;
  caCreatedAt : Time
}.

Record Conversion := {
  Total : Z;
  Converted : Z;
  NotPassed : Z;
  Rate : Q;
  Fastest : Z;
  FastestPercent : Q;
  NeedAttention : Z;
  BestTime : Duration;
  AverageTime : Duration
}.

Record TimeInterval := {
  Title : string;
  tiTotal : Z
}.

Record performerMetric := {
  pmDisplayName : string;
  pmConversion : Conversion;
  pmPerformances : list TimeInterval
}.

Record Leaderboard := {
  Rank : Z;
  lbDisplayName : string;
  lbTotal : Z;
  lbConverted : Z;
  lbConversionRate : Q;
  lbAverageTime : Duration;
  lbBestTime : Duration;
  lbPerformances : list TimeInterval
}.

Record ProductMetrics := {
  Name : string;
  prTotal : Z;
  prConverted : Z;
  prNotPassed : Z;
  prConversionRate : Q;
  prAverageTime : Duration
}.

Record TopPerformer := {
  tpDisplayName : string;
  tpConverted : Z;
  tpConversionRate : Q
}.

Record BestTimeExecutor := {
  btDisplayName : string;
  btBestTime : Duration
}.

Record CAFinalOverview := {
  caActiveExecutor : Z;
  caTopPerformer : TopPerformer;
  caConversion : Conversion;
  caTimeIntervalsByConverted : list TimeInterval;
  caTimeIntervalsByPending : list TimeInterval;
  caBestTimeUsed : BestTimeExecutor;
  caLeaderboards : list Leaderboard
}.

Record Overview := {
  ActiveExecutor : Z;
  TopPerformer_ : TopPerformer;
  Conversion_ : Conversion;
  TimeIntervalsByConverted : list TimeInterval;
  TimeIntervalsByPending : list TimeInterval;
  BestTimeUsed : BestTimeExecutor;
  Leaderboards : list Leaderboard;
  ProductMetrics_ : list ProductMetrics;
  CAFinalOverview_ : option CAFinalOverview
}.

(** ** [newConversion] *)

(** The local variables of the loop of [newConversion]. *)
Record counters := {
  sum : Duration;
  bestTime : Duration;
  fastestCount : Z;
  needAttention : Z;
  converted : Z;
  notPassed : Z
}.

Definition counters0 : counters :=
  {| sum := 0; bestTime := 0; fastestCount := 0; needAttention := 0;
     converted := 0; notPassed := 0 |}.

Definition threshold : Duration := 5 * Hour.

(** The body of the first [if] of both conversion loops, entered with the
    elapsed time of a converted record. *)
Definition count_converted (duration : Duration) (s : counters) : counters :=
  {| sum := wrap64 (sum s + duration);
     bestTime :=
       if ((bestTime s =? 0) || (duration <? bestTime s)) && (Minute <=? duration)
       then duration else bestTime s;
     fastestCount :=
       if duration <=? Minute * 30 then fastestCount s + 1 else fastestCount s;
     needAttention := needAttention s;
     converted := converted s + 1;
     notPassed := notPassed s |}.

Definition count_needAttention (now created : Time) (s : counters) : counters :=
  let duration := Sub now created in
  if threshold <? duration
  then {| sum := sum s; bestTime := bestTime s; fastestCount := fastestCount s;
          needAttention := needAttention s + 1;
          converted := converted s; notPassed := notPassed s |}
  else s.

Definition count_notPassed (s : counters) : counters :=
  {| sum := sum s; bestTime := bestTime s; fastestCount := fastestCount s;
     needAttention := needAttention s;
     converted := converted s; notPassed := notPassed s + 1 |}.

(** One iteration of the loop of [newConversion]: its three [if]
    statements, in order. [time.Since] reads the clock at each pending
    record; all the readings of a run are taken to be the one instant
    [now]. *)
Definition newConversion_iter (now : Time) (s : counters) (appIn : AppIn) : counters :=
  let status := ToLower (Status appIn) in
  let s1 :=
    match CompletedAt appIn with
    | Some completedAt =>
        if (0 <? len status) && negb (Contains status "not pass")
        then count_converted (Sub completedAt (CreatedAt appIn)) s
        else s
    | None => s
    end in
  let s2 :=
    match CompletedAt appIn with
    | None =>
        if is_empty status then count_needAttention now (CreatedAt appIn) s1 else s1
    | Some _ => s1
    end in
  if Contains status "not pass" then count_notPassed s2 else s2.

Definition newConversion (now : Time) (appIns : list AppIn) : Conversion :=
  let total := Z.of_nat (length appIns) in
  let s := fold_left (newConversion_iter now) appIns counters0 in
  let processed := converted s + notPassed s in
  let conversionRate :=
    if 0 <? total
    then F32.mul (F32.div (F32.of_int processed) (F32.of_int total)) 100
    else 0%Q in
  let averageTime :=
    if (0 <? total) && (0 <? processed) then Z.quot (sum s) processed else 0 in
  let fastestPercent :=
    if 0 <? processed
    then F32.mul (F32.div (F32.of_int (fastestCount s)) (F32.of_int processed)) 100
    else 0%Q in
  {| Total := total;
     Converted := converted s;
     NotPassed := notPassed s;
     Rate := conversionRate;
     Fastest := fastestCount s;
     FastestPercent := fastestPercent;
     NeedAttention := needAttention s;
     BestTime := bestTime s;
     AverageTime := averageTime |}.

(** ** [newCAFinalConversion] *)

Definition newCAFinalConversion_iter (now : Time) (s : counters) (c : CAFinal) : counters :=
  let status := ToLower (caStatus c) in
  let s1 :=
    match caCompletedAt c with
    | Some completedAt =>
        if (0 <? len status) && String.eqb status "completed"
        then count_converted (Sub completedAt (caCreatedAt c)) s
        else s
    | None => s
    end in
  match caCompletedAt c with
  | None =>
      if negb (String.eqb status "completed")
      then count_needAttention now (caCreatedAt c) s1 else s1
  | Some _ => s1
  end.

Definition newCAFinalConversion (now : Time) (cs : list CAFinal) : Conversion :=
  let total := Z.of_nat (length cs) in
  let s := fold_left (newCAFinalConversion_iter now) cs counters0 in
  let conversionRate :=
    if 0 <? total
    then F32.mul (F32.div (F32.of_int (converted s)) (F32.of_int total)) 100
    else 0%Q in
  let averageTime :=
    if (0 <? total) && (0 <? converted s) then Z.quot (sum s) (converted s) else 0 in
  let fastestPercent :=
    if 0 <? converted s
    then F32.mul (F32.div (F32.of_int (fastestCount s)) (F32.of_int (converted s))) 100
    else 0%Q in
  {| Total := total;
     Converted := converted s;
     NotPassed := 0;
     Rate := conversionRate;
     Fastest := fastestCount s;
     FastestPercent := fastestPercent;
     NeedAttention := needAttention s;
     BestTime := bestTime s;
     AverageTime := averageTime |}.

(** ** Histograms *)

Definition titles : list string :=
  ["<30min"; "<1h"; "<2h"; "<3h"; "<4h"; "<5h"; "5h+"]%string.

(** [intervals[t]]: a missing key reads as the zero value. *)
Definition read (intervals : gmap string Z) (t : string) : Z :=
  default 0 (intervals !! t).

(** [intervals[t]++] *)
Definition incr (intervals : gmap string Z) (t : string) : gmap string Z :=
  <[t := read intervals t + 1]> intervals.

(** The key selected by the [switch] on the duration, shared by the four
    histogram builders. *)
Definition bucket (duration : Duration) : string :=
  if duration <? 30 * Minute then "<30min"
  else if duration <? Hour then "<1h"
  else if duration <? 2 * Hour then "<2h"
  else if duration <? 3 * Hour then "<3h"
  else if duration <? 4 * Hour then "<4h"
  else if duration <? 5 * Hour then "<5h"
  else "5h+".

Definition zero_intervals : gmap string Z :=
  fold_left (fun m t => <[t := 0]> m) titles ∅.

Definition to_intervals (intervals : gmap string Z) : list TimeInterval :=
  map (fun t => {| Title := t; tiTotal := read intervals t |}) titles.

Definition byConverted_iter (intervals : gmap string Z) (a : AppIn) : gmap string Z :=
  let status := ToLower (Status a) in
  match CompletedAt a with
  | Some completedAt =>
      if (0 <? len (Status a)) && negb (Contains status "not pass")
      then incr intervals (bucket (Sub completedAt (CreatedAt a)))
      else intervals
  | None => intervals
  end.

Definition createTimeIntervalsByConverted (appIns : list AppIn) : list TimeInterval :=
  to_intervals (fold_left byConverted_iter appIns zero_intervals).

Definition byPending_iter (now : Time) (intervals : gmap string Z) (a : AppIn)
  : gmap string Z :=
  match CompletedAt a with
  | None =>
      if is_empty (Status a)
      then incr intervals (bucket (Sub now (CreatedAt a)))
      else intervals
  | Some _ => intervals
  end.

Definition createTimeIntervalsByPending (now : Time) (appIns : list AppIn)
  : list TimeInterval :=
  to_intervals (fold_left (byPending_iter now) appIns zero_intervals).

Definition caByConverted_iter (intervals : gmap string Z) (a : CAFinal) : gmap string Z :=
  let status := ToLower (caStatus a) in
  match caCompletedAt a with
  | Some completedAt =>
      if String.eqb status "completed"
      then incr intervals (bucket (Sub completedAt (caCreatedAt a)))
      else intervals
  | None => intervals
  end.

Definition createCAFinalTimeIntervalsByConverted (cs : list CAFinal) : list TimeInterval :=
  to_intervals (fold_left caByConverted_iter cs zero_intervals).

Definition caByPending_iter (now : Time) (intervals : gmap string Z) (a : CAFinal)
  : gmap string Z :=
  match caCompletedAt a with
  | None =>
      if negb (String.eqb (ToLower (caStatus a)) "completed")
      then incr intervals (bucket (Sub now (caCreatedAt a)))
      else intervals
  | Some _ => intervals
  end.

Definition createCAFinalTimeIntervalsByPending (now : Time) (cs : list CAFinal)
  : list TimeInterval :=
  to_intervals (fold_left (caByPending_iter now) cs zero_intervals).

(** ** Grouping *)

(** [groups[k] = append(groups[k], a)] *)
Definition append_to {A} (groups : gmap string (list A)) (k : string) (a : A)
  : gmap string (list A) :=
  <[k := default [] (groups !! k) ++ [a]]> groups.

Definition groupAppInByExecutor (appIns : list AppIn) : gmap string (list AppIn) :=
  fold_left
    (fun groups a =>
       if is_empty (Executor a) then groups else append_to groups (Executor a) a)
    appIns ∅.

Definition groupCAFinalByExecutor (appIns : list CAFinal) : gmap string (list CAFinal) :=
  fold_left
    (fun groups a =>
       if is_empty (caExecutor a) then groups else append_to groups (caExecutor a) a)
    appIns ∅.

Definition groupAppInByProduct_iter (groups : gmap string (list AppIn)) (a : AppIn)
  : gmap string (list AppIn) :=
  if is_empty (Type_ a) then groups
  else if String.eqb (ToLower (Product a)) "sale auto" then
    if Contains (ToLower (Type_ a)) "c4c" then
      append_to groups ("C4C | " +:+ Product a) a
    else if Contains (ToLower (Type_ a)) "used car" then
      append_to groups ("Used Car | " +:+ Product a) a
    else if Contains (ToLower (Type_ a)) "mc" then
      append_to groups ("MC | " +:+ Product a) a
    else append_to groups (Product a) a
  else append_to groups (Product a) a.

Definition groupAppInByProduct (appIns : list AppIn) : gmap string (list AppIn) :=
  fold_left groupAppInByProduct_iter appIns ∅.

(** ** Ranging over a map, and [sort.Slice] *)

(** [it] is a sequence in which [for k, v := range m] may visit [m]. *)
Definition ranges {V} (m : gmap string V) (it : list (string * V)) : Prop :=
  it ≡ₚ map_to_list m.

(** The requirement of [sort.Slice] on its [less] function: a strict weak
    ordering. *)
Record StrictWeak {A} (less : A -> A -> bool) : Prop := {
  sw_irrefl : forall x, less x x = false;
  sw_trans : forall x y z, less x y = true -> less y z = true -> less x z = true;
  sw_negtrans : forall x y z, less x y = false -> less y z = false -> less x z = false
}.

(** In a sorted slice no element is less than an earlier one. *)
Definition sorted_by {A} (less : A -> A -> bool) : list A -> Prop :=
  StronglySorted (fun x y => less y x = false).

(** The contract of [sort.Slice]: the slice is rearranged, and it is sorted
    when [less] meets the requirement. The sort need not be stable. *)
Class SortSlice := {
  sort_slice : forall {A}, (A -> A -> bool) -> list A -> list A;
  sort_slice_perm : forall A (less : A -> A -> bool) l, sort_slice less l ≡ₚ l;
  sort_slice_sorted : forall A (less : A -> A -> bool) l,
    StrictWeak less -> sorted_by less (sort_slice less l)
}.

(** The insertion sort of package [sort], the algorithm that [sort.Slice]
    applies to short slices: each element in turn is swapped leftwards
    while it is less than its left neighbour. [insert_left] works on the
    reversed prefix. *)
Fixpoint insert_left {A} (less : A -> A -> bool) (x : A) (rprefix : list A) : list A :=
  match rprefix with
  | [] => [x]
  | y :: r => if less x y then y :: insert_left less x r else x :: rprefix
  end.

Definition insertionSort {A} (less : A -> A -> bool) (l : list A) : list A :=
  rev (fold_left (fun rprefix x => insert_left less x rprefix) l []).

(** ** Performer metrics *)

(** The result holds one entry per key of [groups], whatever the order in
    which the loop visits them. *)
Definition calculatePerformanceConversionMetricsByExecutor
    (now : Time) (groups : gmap string (list AppIn)) : gmap string performerMetric :=
  map_imap
    (fun executor apps =>
       Some {| pmDisplayName := executor;
               pmConversion := newConversion now apps;
               pmPerformances := createTimeIntervalsByConverted apps |})
    groups.

Definition calculateCAFinalConversionMetricsByExecutor
    (now : Time) (groups : gmap string (list CAFinal)) : gmap string performerMetric :=
  map_imap
    (fun executor cs =>
       Some {| pmDisplayName := executor;
               pmConversion := newCAFinalConversion now cs;
               pmPerformances := createCAFinalTimeIntervalsByConverted cs |})
    groups.

(** [getTopPerformer], given the order [it] of its range over [conversions]. *)
Definition getTopPerformer_iter (top : TopPerformer) (e : string * performerMetric)
  : TopPerformer :=
  let '(executor, c) := e in
  if (tpConverted top <? Converted (pmConversion c)) ||
     ((Converted (pmConversion c) =? tpConverted top) &&
      F32.gtb (Rate (pmConversion c)) (tpConversionRate top))
  then {| tpDisplayName := executor;
          tpConverted := Converted (pmConversion c);
          tpConversionRate := Rate (pmConversion c) |}
  else top.

Definition getTopPerformer (it : list (string * performerMetric)) : TopPerformer :=
  fold_left getTopPerformer_iter it
    {| tpDisplayName := ""; tpConverted := 0; tpConversionRate := 0 |}.

(** The comparator of both [sort.Slice] calls, on the three keys it reads:
    converted count descending, then rate descending, then average time
    ascending. *)
Definition less_keys (ci : Z) (ri : Q) (ai : Duration) (cj : Z) (rj : Q) (aj : Duration)
  : bool :=
  if negb (ci =? cj) then cj <? ci
  else if F32.neqb ri rj then F32.gtb ri rj
  else ai <? aj.

Definition performer_less (pi pj : performerMetric) : bool :=
  less_keys (Converted (pmConversion pi)) (Rate (pmConversion pi))
            (AverageTime (pmConversion pi))
            (Converted (pmConversion pj)) (Rate (pmConversion pj))
            (AverageTime (pmConversion pj)).

Definition product_less (pi pj : ProductMetrics) : bool :=
  less_keys (prConverted pi) (prConversionRate pi) (prAverageTime pi)
            (prConverted pj) (prConversionRate pj) (prAverageTime pj).

Definition leaderboard_entry (i : nat) (p : performerMetric) : Leaderboard :=
  {| Rank := Z.of_nat i + 1;
     lbDisplayName := pmDisplayName p;
     lbTotal := Total (pmConversion p);
     lbConverted := Converted (pmConversion p);
     lbConversionRate := Rate (pmConversion p);
     lbAverageTime := AverageTime (pmConversion p);
     lbBestTime := BestTime (pmConversion p);
     lbPerformances := pmPerformances p |}.

(** The second loop of [createLeaderboards]: append the entry of index [i],
    leave the loop once five entries are there. *)
Fixpoint leaderboard_loop (i : nat) (performers : list performerMetric)
    (leaderboards : list Leaderboard) : list Leaderboard :=
  match performers with
  | [] => leaderboards
  | p :: rest =>
      let leaderboards' := leaderboards ++ [leaderboard_entry i p] in
      if (5 <=? length leaderboards')%nat then leaderboards'
      else leaderboard_loop (S i) rest leaderboards'
  end.

Definition createLeaderboards `{SortSlice} (it : list (string * performerMetric))
  : list Leaderboard :=
  let performers := map snd it in
  leaderboard_loop 0 (sort_slice performer_less performers) [].

Definition findBestTime_iter (best : string * Duration) (e : string * performerMetric)
  : string * Duration :=
  let '(bestExecutor, bestTime) := best in
  let '(executor, metric) := e in
  if 0 <? BestTime (pmConversion metric) then
    if (bestTime =? 0) || (BestTime (pmConversion metric) <? bestTime)
    then (executor, BestTime (pmConversion metric))
    else best
  else best.

(** [findBestTimeUsedByExecutor]; [len(p)] is the length of the range. *)
Definition findBestTimeUsedByExecutor (it : list (string * performerMetric))
  : BestTimeExecutor :=
  if (length it =? 0)%nat then {| btDisplayName := "N/A"; btBestTime := 0 |}
  else
    let '(bestExecutor, bestTime) := fold_left findBestTime_iter it (""%string, 0) in
    {| btDisplayName := bestExecutor; btBestTime := bestTime |}.

(** ** Product metrics *)

Definition product_entry (now : Time) (e : string * list AppIn) : ProductMetrics :=
  let '(product, apps) := e in
  let c := newConversion now apps in
  {| Name := product;
     prTotal := Z.of_nat (length apps);
     prConverted := Converted c;
     prNotPassed := NotPassed c;
     prConversionRate := Rate c;
     prAverageTime := AverageTime c |}.

(** [it] is the order of the range over [groupAppInByProduct appIns]. *)
Definition calculatePerformanceConversionMetricsByProduct `{SortSlice}
    (now : Time) (it : list (string * list AppIn)) : list ProductMetrics :=
  sort_slice product_less (map (product_entry now) it).

(** ** The overview *)

(** The orders of the four ranges over maps that an overview takes. *)
Record rangeOrders := {
  topOrder : list (string * performerMetric);
  boardOrder : list (string * performerMetric);
  bestOrder : list (string * performerMetric);
  productOrder : list (string * list AppIn)
}.

Definition performances_of (now : Time) (appIns : list AppIn) : gmap string performerMetric :=
  calculatePerformanceConversionMetricsByExecutor now (groupAppInByExecutor appIns).

(** The orders that the maps built from [appIns] allow. *)
Definition admissible (now : Time) (appIns : list AppIn) (o : rangeOrders) : Prop :=
  ranges (performances_of now appIns) (topOrder o) /\
  ranges (performances_of now appIns) (boardOrder o) /\
  ranges (performances_of now appIns) (bestOrder o) /\
  ranges (groupAppInByProduct appIns) (productOrder o).

Definition newOverview `{SortSlice} (now : Time) (o : rangeOrders) (appIns : list AppIn)
  : Overview :=
  let groups := groupAppInByExecutor appIns in
  {| ActiveExecutor := Z.of_nat (size groups);
     TopPerformer_ := getTopPerformer (topOrder o);
     Conversion_ := newConversion now appIns;
     Leaderboards := createLeaderboards (boardOrder o);
     TimeIntervalsByConverted := createTimeIntervalsByConverted appIns;
     BestTimeUsed := findBestTimeUsedByExecutor (bestOrder o);
     TimeIntervalsByPending := createTimeIntervalsByPending now appIns;
     ProductMetrics_ := calculatePerformanceConversionMetricsByProduct now (productOrder o);
     CAFinalOverview_ := None |}.

(** The orders of the three ranges of [newCAFinalOverview]. *)
Record caRangeOrders := {
  caTopOrder : list (string * performerMetric);
  caBoardOrder : list (string * performerMetric);
  caBestOrder : list (string * performerMetric)
}.

Definition caPerformances_of (now : Time) (cs : list CAFinal) : gmap string performerMetric :=
  calculateCAFinalConversionMetricsByExecutor now (groupCAFinalByExecutor cs).

Definition caAdmissible (now : Time) (cs : list CAFinal) (o : caRangeOrders) : Prop :=
  ranges (caPerformances_of now cs) (caTopOrder o) /\
  ranges (caPerformances_of now cs) (caBoardOrder o) /\
  ranges (caPerformances_of now cs) (caBestOrder o).

Definition newCAFinalOverview `{SortSlice} (now : Time) (o : caRangeOrders)
    (appins : list CAFinal) : CAFinalOverview :=
  let groups := groupCAFinalByExecutor appins in
  {| caActiveExecutor := Z.of_nat (size groups);
     caTopPerformer := getTopPerformer (caTopOrder o);
     caLeaderboards := createLeaderboards (caBoardOrder o);
     caBestTimeUsed := findBestTimeUsedByExecutor (caBestOrder o);
     caConversion := newCAFinalConversion now appins;
     caTimeIntervalsByConverted := createCAFinalTimeIntervalsByConverted appins;
     caTimeIntervalsByPending := createCAFinalTimeIntervalsByPending now appins |}.

Definition SetCAFinal `{SortSlice} (now : Time) (co : caRangeOrders) (o : Overview)
    (ca : list CAFinal) : Overview :=
  {| ActiveExecutor := ActiveExecutor o;
     TopPerformer_ := TopPerformer_ o;
     Conversion_ := Conversion_ o;
     TimeIntervalsByConverted := TimeIntervalsByConverted o;
     TimeIntervalsByPending := TimeIntervalsByPending o;
     BestTimeUsed := BestTimeUsed o;
     Leaderboards := Leaderboards o;
     ProductMetrics_ := ProductMetrics_ o;
     CAFinalOverview_ := Some (newCAFinalOverview now co ca) |}.

(** ** The classifier

    The three dispositions, as the conditions that [newConversion] tests. *)

Definition notNil {A} (p : option A) : bool :=
  match p with Some _ => true | None => false end.

Definition isConverted (a : AppIn) : bool :=
  (0 <? len (ToLower (Status a))) &&
  negb (Contains (ToLower (Status a)) "not pass") &&
  notNil (CompletedAt a).

Definition isNotPassed (a : AppIn) : bool :=
  Contains (ToLower (Status a)) "not pass".

Definition isPending (a : AppIn) : bool :=
  is_empty (ToLower (Status a)) && negb (notNil (CompletedAt a)).

Definition needsAttention (now : Time) (a : AppIn) : bool :=
  isPending a && (threshold <? Sub now (CreatedAt a)).

(** Elapsed time of a record, from creation to completion. *)
Definition elapsed (a : AppIn) : Duration :=
  match CompletedAt a with
  | Some completedAt => Sub completedAt (CreatedAt a)
  | None => 0
  end.

(** Number of elements of a slice that satisfy a test. *)
Fixpoint count {A} (p : A -> bool) (l : list A) : Z :=
  match l with
  | [] => 0
  | a :: l' => (if p a then 1 else 0) + count p l'
  end.

(** ** Notions used by the properties *)

Definition b2z (b : bool) : Z := if b then 1 else 0.

(** How many of the three dispositions apply to a record. *)
Definition dispositions (a : AppIn) : Z :=
  b2z (isConverted a) + b2z (isNotPassed a) + b2z (isPending a).

Definition classified (a : AppIn) : bool :=
  isConverted a || isNotPassed a || isPending a.

Definition isFastest (a : AppIn) : bool :=
  isConverted a && (elapsed a <=? Minute * 30).


Definition caIsConverted (c : CAFinal) : bool :=
  (0 <? len (ToLower (caStatus c))) && String.eqb (ToLower (caStatus c)) "completed" &&
  notNil (caCompletedAt c).

Definition caIsFastest (c : CAFinal) : bool :=
  caIsConverted c &&
  (match caCompletedAt c with
   | Some completedAt => Sub completedAt (caCreatedAt c) <=? Minute * 30
   | None => false
   end).

(** What a conversion summary promises about its two percentages, for the
    processed count [processed] of its stream. *)
Definition rates_guarded (c : Conversion) (processed : Z) : Prop :=
  (0 <= Rate c <= 100)%Q /\
  (0 <= FastestPercent c <= 100)%Q /\
  (Total c = 0 -> Rate c = 0%Q) /\
  (processed = 0 -> AverageTime c = 0 /\ FastestPercent c = 0%Q).

(** The duration that a histogram builder tallies for a record, if any. *)
Definition convertedDuration (a : AppIn) : option Duration :=
  if isConverted a then Some (elapsed a) else None.

Definition pendingAge (now : Time) (a : AppIn) : option Duration :=
  if isPending a then Some (Sub now (CreatedAt a)) else None.

Definition caConvertedDuration (c : CAFinal) : option Duration :=
  match caCompletedAt c with
  | Some completedAt =>
      if String.eqb (ToLower (caStatus c)) "completed"
      then Some (Sub completedAt (caCreatedAt c)) else None
  | None => None
  end.

Definition caPendingAge (now : Time) (c : CAFinal) : option Duration :=
  match caCompletedAt c with
  | None =>
      if negb (String.eqb (ToLower (caStatus c)) "completed")
      then Some (Sub now (caCreatedAt c)) else None
  | Some _ => None
  end.

Definition tally {A} (sel : A -> option Duration) (intervals : gmap string Z) (a : A)
  : gmap string Z :=
  match sel a with
  | Some d => incr intervals (bucket d)
  | None => intervals
  end.

(** The record [a] is tallied in the bucket titled [t]. *)
Definition counted_in {A} (sel : A -> option Duration) (t : string) (a : A) : bool :=
  match sel a with
  | Some d => String.eqb (bucket d) t
  | None => false
  end.

Definition sum_totals (h : list TimeInterval) : Z :=
  fold_right Z.add 0 (map tiTotal h).

(** A well-formed histogram of the records of [l] that [sel] selects. *)
Definition histogram_of {A} (sel : A -> option Duration) (l : list A)
    (h : list TimeInterval) : Prop :=
  map Title h = titles /\
  map tiTotal h = map (fun t => count (counted_in sel t) l) titles /\
  Forall (fun e => 0 <= tiTotal e) h /\
  sum_totals h = count (fun a => notNil (sel a)) l.

(** A record converted in exactly 30 minutes. *)
Definition half_hour_case : AppIn :=
  {| Number := "LO-2"; Product := "Loan"; Type_ := "New"; Status := "Approved";
     Executor := "A"; CompletedAt := Some (30 * Minute); CreatedAt := 0 |}.

(** The comparator, read on the entries of a leaderboard. *)
Definition leaderboard_less (x y : Leaderboard) : bool :=
  less_keys (lbConverted x) (lbConversionRate x) (lbAverageTime x)
            (lbConverted y) (lbConversionRate y) (lbAverageTime y).

(** A loan record created at instant 0. *)
Definition record (executor status : string) (completedAt : option Time) : AppIn :=
  {| Number := "LO"; Product := "Loan"; Type_ := "New"; Status := status;
     Executor := executor; CompletedAt := completedAt; CreatedAt := 0 |}.

(** The scenario of two performers: "A" converts in 10 and in 40 minutes
    and has one refusal, "B" converts in 20 minutes. *)
Definition scenario : list AppIn :=
  [ record "A" "Approved" (Some (10 * Minute));
    record "A" "Approved" (Some (40 * Minute));
    record "A" "Not Passed" None;
    record "B" "Approved" (Some (20 * Minute)) ].

(** Grouping by a key that may be missing: the shape of the three
    grouping loops. *)
Definition group_by {A} (key : A -> option string) (l : list A)
  : gmap string (list A) :=
  fold_left
    (fun groups a =>
       match key a with Some k => append_to groups k a | None => groups end)
    l ∅.

(** The key of [groupAppInByExecutor]: none for an empty performer. *)
Definition executorKey (a : AppIn) : option string :=
  if is_empty (Executor a) then None else Some (Executor a).

(** The product key in words: no key for an empty type; for product
    "sale auto" (in any case) the first of "c4c", "used car", "mc" that
    occurs in the type (in any case) selects the prefix put before the
    product label; otherwise the key is the product label. *)
Definition productKey (a : AppIn) : option string :=
  if is_empty (Type_ a) then None
  else if String.eqb (ToLower (Product a)) "sale auto" then
    if Contains (ToLower (Type_ a)) "c4c" then Some ("C4C | " +:+ Product a)
    else if Contains (ToLower (Type_ a)) "used car" then Some ("Used Car | " +:+ Product a)
    else if Contains (ToLower (Type_ a)) "mc" then Some ("MC | " +:+ Product a)
    else Some (Product a)
  else Some (Product a).

(** The group of a key: absent when no record has the key. *)
Definition group_of {A} (key : A -> option string) (l : list A) (k : string)
  : option (list A) :=
  match filter (fun a => key a = Some k) l with
  | [] => None
  | g => Some g
  end.

(** A pending record of a given product and type. *)
Definition sale (product type : string) : AppIn :=
  {| Number := "LO"; Product := product; Type_ := type; Status := "";
     Executor := "A"; CompletedAt := None; CreatedAt := 0 |}.

(** The elapsed times that compete for the best time of a summary: those
    of the converted records that reach the floor of one minute. *)
Definition qualifies (a : AppIn) : bool := isConverted a && (Minute <=? elapsed a).

Definition qualifying (l : list AppIn) : list Duration :=
  map elapsed (List.filter qualifies l).

(** [t] is the least element of [ds], or 0 when [ds] is empty. *)
Definition least_or_zero (ds : list Duration) (t : Duration) : Prop :=
  match ds with
  | [] => t = 0
  | _ => In t ds /\ Forall (fun d => t <= d) ds
  end.

(** Best time of an entry of the range over the performer metrics. *)
Definition bestOf (e : string * performerMetric) : Duration :=
  BestTime (pmConversion (snd e)).

(** One performer whose only record is pending. *)
Definition idle_performer : list AppIn := [ record "A" "" None ].

Definition zero_histogram : list TimeInterval :=
  map (fun t => {| Title := t; tiTotal := 0 |}) titles.

Definition zero_conversion : Conversion :=
  {| Total := 0; Converted := 0; NotPassed := 0; Rate := 0; Fastest := 0;
     FastestPercent := 0; NeedAttention := 0; BestTime := 0; AverageTime := 0 |}.

Definition no_ranges : rangeOrders :=
  {| topOrder := []; boardOrder := []; bestOrder := []; productOrder := [] |}.

Definition no_caRanges : caRangeOrders :=
  {| caTopOrder := []; caBoardOrder := []; caBestOrder := [] |}.

(** The test of [getTopPerformer]: the entry beats the current top. *)
Definition beats (c : Z) (r : Q) (tc : Z) (tr : Q) : bool :=
  (tc <? c) || ((c =? tc) && F32.gtb r tr).

(** The test of [findBestTimeUsedByExecutor]: the best time [b] of the
    entry replaces the current best time [t]. *)
Definition improves (b t : Z) : bool := (0 <? b) && ((t =? 0) || (b <? t)).

(** No two entries of a map are tied: entries that [tie] relates have the
    same key. *)
Definition untied {V} (tie : V -> V -> bool) (m : gmap string V) : Prop :=
  forall k1 k2 v1 v2, m !! k1 = Some v1 -> m !! k2 = Some v2 ->
                      tie v1 v2 = true -> k1 = k2.

(** The same, as a test on the entries of the map. *)
Definition untiedb {V} (tie : V -> V -> bool) (m : gmap string V) : bool :=
  forallb
    (fun e1 =>
       forallb (fun e2 => String.eqb (fst e1) (fst e2) || negb (tie (snd e1) (snd e2)))
         (map_to_list m))
    (map_to_list m).

(** Two performers tie for the top on converted count and rate. *)
Definition top_tie (p q : performerMetric) : bool :=
  (Converted (pmConversion p) =? Converted (pmConversion q)) &&
  Qeq_bool (Rate (pmConversion p)) (Rate (pmConversion q)).

(** Two performers tie on the three keys of the comparator. *)
Definition board_tie (p q : performerMetric) : bool :=
  top_tie p q && (AverageTime (pmConversion p) =? AverageTime (pmConversion q)).

(** Two performers share a best time that is not zero. *)
Definition best_tie (p q : performerMetric) : bool :=
  (0 <? BestTime (pmConversion p)) &&
  (BestTime (pmConversion p) =? BestTime (pmConversion q)).

(** Two product groups tie on the three keys of the comparator. *)
Definition product_tie (now : Time) (g1 g2 : list AppIn) : bool :=
  let c1 := newConversion now g1 in
  let c2 := newConversion now g2 in
  (Converted c1 =? Converted c2) && Qeq_bool (Rate c1) (Rate c2) &&
  (AverageTime c1 =? AverageTime c2).

(** The scenario, ranged over in the order of the keys and in the reverse
    order. *)
Definition forward (appIns : list AppIn) : rangeOrders :=
  {| topOrder := map_to_list (performances_of 0 appIns);
     boardOrder := map_to_list (performances_of 0 appIns);
     bestOrder := map_to_list (performances_of 0 appIns);
     productOrder := map_to_list (groupAppInByProduct appIns) |}.

Definition backward (appIns : list AppIn) : rangeOrders :=
  {| topOrder := rev (map_to_list (performances_of 0 appIns));
     boardOrder := rev (map_to_list (performances_of 0 appIns));
     bestOrder := rev (map_to_list (performances_of 0 appIns));
     productOrder := rev (map_to_list (groupAppInByProduct appIns)) |}.

(** Two performers with the same figures, on two products with the same
    figures. *)
Definition tied : list AppIn :=
  [ {| Number := "LO-1"; Product := "Loan"; Type_ := "New"; Status := "Approved";
       Executor := "A"; CompletedAt := Some (10 * Minute); CreatedAt := 0 |};
    {| Number := "LO-2"; Product := "Lease"; Type_ := "New"; Status := "Approved";
       Executor := "B"; CompletedAt := Some (10 * Minute); CreatedAt := 0 |} ].

(** ** Notions used by the further properties *)

(** Sum of the elapsed times of the converted records. *)
Definition total_elapsed (l : list AppIn) : Z :=
  fold_right (fun a n => (if isConverted a then elapsed a else 0) + n) 0 l.

(** A value of type [int64]. *)
Definition int64_range (z : Z) : Prop := minDuration <= z <= maxDuration.

(** The figures by which [getTopPerformer] compares: an entry with figures
    [(c, r)] is at most [(tc, tr)] when it does not beat it. *)
Definition at_most (c : Z) (r : Q) (tc : Z) (tr : Q) : Prop :=
  c < tc \/ (c = tc /\ (r <= tr)%Q).

(** The top performer that stands for nobody. *)
Definition no_top : TopPerformer :=
  {| tpDisplayName := ""; tpConverted := 0; tpConversionRate := 0 |}.

(** Sum of a list of integers. *)
Definition sumZ (l : list Z) : Z := fold_right Z.add 0 l.

(** Total weight of the elements of a slice. *)
Definition weigh {A} (w : A -> Z) (l : list A) : Z := sumZ (map w l).

(** Total weight of the elements of all the groups of a map. *)
Definition weigh_groups {A} (w : A -> Z) (groups : gmap string (list A)) : Z :=
  sumZ (map (fun e => weigh w (snd e)) (map_to_list groups)).

(** The weight of an element that has a key, 0 for an element without. *)
Definition keyed {A} (key : A -> option string) (w : A -> Z) (a : A) : Z :=
  match key a with Some _ => w a | None => 0 end.

(** A record has a performer. *)
Definition assigned (a : AppIn) : bool := negb (is_empty (Executor a)).

(** The metric that [calculatePerformanceConversionMetricsByExecutor]
    stores for a group. *)
Definition metric_of (now : Time) (executor : string) (apps : list AppIn)
  : performerMetric :=
  {| pmDisplayName := executor;
     pmConversion := newConversion now apps;
     pmPerformances := createTimeIntervalsByConverted apps |}.

(** A record has a type. *)
Definition typed (a : AppIn) : bool := negb (is_empty (Type_ a)).

(** The count that a histogram shows under a title. *)
Definition bucket_total (h : list TimeInterval) (t : string) : Z :=
  sumZ (map tiTotal (List.filter (fun e => String.eqb (Title e) t) h)).

(** A converted record that took exactly 30 minutes. *)
Definition on_speed_threshold (a : AppIn) : bool :=
  isConverted a && (elapsed a =? 30 * Minute).

(** A pending record that is exactly 5 hours old. *)
Definition on_stale_threshold (now : Time) (a : AppIn) : bool :=
  isPending a && (Sub now (CreatedAt a) =? 5 * Hour).

(** The dispositions of the review stream, as [newCAFinalConversion] tests
    them. *)
Definition caIsCompleted (c : CAFinal) : bool :=
  String.eqb (ToLower (caStatus c)) "completed" && notNil (caCompletedAt c).



(** ** The filter of a query ([Query.String], [Query.ToCAFinalQueryString])

    The layout of a time ([Time.Format] with [time.RFC3339]) and the
    calendar step [AddDate] belong to package [time]; the filter is built
    for any such functions. Instants are counted from the zero value of
    [time.Time], so that [IsZero] tests for 0. *)

Module QueryFilter.

Record Query := {
  CreatedAfter : Time;
  CreatedBefore : Time;
  qProduct : string
}.

(** [t.IsZero()] *)
Definition IsZero (t : Time) : bool := t =? 0.

(** [strings.HasSuffix s suffix]: some tail of [s] is [suffix]. *)
Fixpoint HasSuffix (s suffix : string) : bool :=
  String.eqb s suffix ||
  match s with
  | EmptyString => false
  | String _ s' => HasSuffix s' suffix
  end.

(** [strings.TrimSuffix s suffix]: [s] without the tail [suffix], and [s]
    itself when it does not end so. *)
Fixpoint TrimSuffix (s suffix : string) : string :=
  if String.eqb s suffix then EmptyString
  else match s with
       | EmptyString => EmptyString
       | String c s' => String c (TrimSuffix s' suffix)
       end.

Section Filter.
Variable Format : Time -> string.
Variable AddDate : Z -> Z -> Z -> Time -> Time.

(** The restrictions on the type of customer that open the filter of the
    applications. *)
Definition customerTypes : string :=
  "(fields/CustomerType eq 'Change borrower' or fields/CustomerType eq 'C4C_Transfer' or fields/CustomerType eq 'C4C_Topup' or fields/CustomerType eq 'C4C_Normal' or fields/CustomerType eq 'EXC' or fields/CustomerType eq 'FL-EXC' or fields/CustomerType eq 'FL-NEW' or fields/CustomerType eq 'MC' or fields/CustomerType eq 'New' or fields/CustomerType eq 'Old' or fields/CustomerType eq 'Used Car') and ".

(** The three [if] statements on the bounds that both filters share. *)
Definition add_bounds (q : Query) (s : string) : string :=
  let s :=
    if negb (IsZero (CreatedAfter q)) && negb (IsZero (CreatedBefore q))
    then s +:+ "fields/Created ge '" +:+ Format (CreatedAfter q)
           +:+ "' and fields/Created le '" +:+ Format (CreatedBefore q) +:+ "'"
    else s in
  let s :=
    if negb (IsZero (CreatedAfter q)) && IsZero (CreatedBefore q)
    then s +:+ "fields/Created ge '" +:+ Format (CreatedAfter q) +:+ "'"
    else s in
  if IsZero (CreatedAfter q) && negb (IsZero (CreatedBefore q))
  then s +:+ "fields/Created le '" +:+ Format (CreatedBefore q) +:+ "'"
  else s.

(** [q.String()], from the opening [s0] of the filter: the empty string in
    the first version of the service, [customerTypes] in the current one. *)
Definition String_from (s0 : string) (now : Time) (q : Query) : string :=
  let s := s0 in
  let s :=
    if negb (is_empty (qProduct q))
    then s +:+ "fields/ServiceType eq '" +:+ qProduct q +:+ "' and "
    else s in
  let s := add_bounds q s in
  let s :=
    if IsZero (CreatedAfter q) && IsZero (CreatedBefore q)
    then let monthAgo := AddDate 0 (-1) 0 now in
         s +:+ "fields/Created ge '" +:+ Format monthAgo +:+ "'"
    else s in
  TrimSuffix s " and ".

Definition String_ (now : Time) (q : Query) : string := String_from customerTypes now q.

Definition String_v1 (now : Time) (q : Query) : string := String_from "" now q.

Definition ToCAFinalQueryString (q : Query) : string := add_bounds q "".

(** The clause on the product, and the one clause on the creation time
    that a filter ends with. *)
Definition product_clause (q : Query) : string :=
  if is_empty (qProduct q) then ""
  else "fields/ServiceType eq '" +:+ qProduct q +:+ "' and ".

Definition created_clause (now : Time) (q : Query) : string :=
  match IsZero (CreatedAfter q), IsZero (CreatedBefore q) with
  | false, false =>
      "fields/Created ge '" +:+ Format (CreatedAfter q)
      +:+ "' and fields/Created le '" +:+ Format (CreatedBefore q) +:+ "'"
  | false, true => "fields/Created ge '" +:+ Format (CreatedAfter q) +:+ "'"
  | true, false => "fields/Created le '" +:+ Format (CreatedBefore q) +:+ "'"
  | true, true => "fields/Created ge '" +:+ Format (AddDate 0 (-1) 0 now) +:+ "'"
  end.

End Filter.

End QueryFilter.

(** ** The first version of the engine

    The earlier revision of the file: a review stream does not exist yet,
    a record is converted unless its status is "pending", fastest means
    within one hour, the histograms have six buckets, and the overview
    names the best time slot. *)

Module Legacy.

Record Conversion := {
  Total : Z;
  Converted : Z;
  Rate : Q;
  Fastest : Z;
  FastestPercent : Q;
  NeedAttention : Z;
  AverageTime : Duration
}.

(** The local variables of the loop of [newConversion]. *)
Record counters := {
  sum : Duration;
  fastestCount : Z;
  needAttention : Z;
  converted : Z
}.

Definition counters0 : counters :=
  {| sum := 0; fastestCount := 0; needAttention := 0; converted := 0 |}.

Definition newConversion_iter (now : Time) (s : counters) (appIn : AppIn) : counters :=
  let s1 :=
    match CompletedAt appIn with
    | Some completedAt =>
        if negb (String.eqb (ToLower (Status appIn)) "pending") && (0 <? len (Status appIn))
        then
          let duration := Sub completedAt (CreatedAt appIn) in
          {| sum := wrap64 (sum s + duration);
             fastestCount := if duration <=? Hour then fastestCount s + 1 else fastestCount s;
             needAttention := needAttention s;
             converted := converted s + 1 |}
        else s
    | None => s
    end in
  match CompletedAt appIn with
  | None =>
      if String.eqb (ToLower (Status appIn)) "pending" || is_empty (Status appIn)
      then
        let duration := Sub now (CreatedAt appIn) in
        if threshold <? duration
        then {| sum := sum s1; fastestCount := fastestCount s1;
                needAttention := needAttention s1 + 1; converted := converted s1 |}
        else s1
      else s1
  | Some _ => s1
  end.

Definition newConversion (now : Time) (appIns : list AppIn) : Conversion :=
  let total := Z.of_nat (length appIns) in
  let s := fold_left (newConversion_iter now) appIns counters0 in
  let conversionRate :=
    if 0 <? total
    then F32.mul (F32.div (F32.of_int (converted s)) (F32.of_int total)) 100
    else 0%Q in
  let averageTime :=
    if (0 <? total) && (0 <? converted s) then Z.quot (sum s) (converted s) else 0 in
  let fastestPercent :=
    if 0 <? converted s
    then F32.mul (F32.div (F32.of_int (fastestCount s)) (F32.of_int (converted s))) 100
    else 0%Q in
  {| Total := total;
     Converted := converted s;
     Rate := conversionRate;
     AverageTime := averageTime;
     NeedAttention := needAttention s;
     Fastest := fastestCount s;
     FastestPercent := fastestPercent |}.

Definition titles : list string := ["<1h"; "<2h"; "<3h"; "<4h"; "<5h"; "5h+"]%string.

Definition bucket (duration : Duration) : string :=
  if duration <? Hour then "<1h"
  else if duration <? 2 * Hour then "<2h"
  else if duration <? 3 * Hour then "<3h"
  else if duration <? 4 * Hour then "<4h"
  else if duration <? 5 * Hour then "<5h"
  else "5h+".

Definition zero_intervals : gmap string Z :=
  fold_left (fun m t => <[t := 0]> m) titles ∅.

Definition to_intervals (intervals : gmap string Z) : list TimeInterval :=
  map (fun t => {| Title := t; tiTotal := read intervals t |}) titles.

Definition byConverted_iter (intervals : gmap string Z) (a : AppIn) : gmap string Z :=
  match CompletedAt a with
  | Some completedAt =>
      if negb (String.eqb (ToLower (Status a)) "pending") && (0 <? len (Status a))
      then incr intervals (bucket (Sub completedAt (CreatedAt a)))
      else intervals
  | None => intervals
  end.

Definition createTimeIntervalsByConverted (appIns : list AppIn) : list TimeInterval :=
  to_intervals (fold_left byConverted_iter appIns zero_intervals).

Definition findBestTimeSlot_iter (best : string * Z) (interval : TimeInterval)
  : string * Z :=
  let '(bestSlotTitle, highestTotal) := best in
  if highestTotal <? tiTotal interval
  then (Title interval, tiTotal interval)
  else best.

Definition findBestTimeSlot (timeIntervals : list TimeInterval) : string :=
  if (length timeIntervals =? 0)%nat then ""
  else fst (fold_left findBestTimeSlot_iter timeIntervals (""%string, 0)).

(** The field [BestTimeSlot] of the overview. *)
Definition BestTimeSlot (appIns : list AppIn) : string :=
  let convertedIntervals := createTimeIntervalsByConverted appIns in
  findBestTimeSlot convertedIntervals.

(** The converted records of this version, and the ones that took exactly
    one hour. *)
Definition isConverted (a : AppIn) : bool :=
  negb (String.eqb (ToLower (Status a)) "pending") && (0 <? len (Status a)) &&
  notNil (CompletedAt a).

Definition on_speed_threshold (a : AppIn) : bool :=
  isConverted a && (elapsed a =? Hour).

Definition in_bucket (t : string) (a : AppIn) : bool :=
  isConverted a && String.eqb (bucket (elapsed a)) t.

End Legacy.

(** The key of [groupCAFinalByExecutor]: none for an empty performer. *)
Definition caExecutorKey (c : CAFinal) : option string :=
  if is_empty (caExecutor c) then None else Some (caExecutor c).

(** A review has a performer. *)
Definition caAssigned (c : CAFinal) : bool := negb (is_empty (caExecutor c)).

(** The best-time performer that stands for nobody. *)
Definition no_best : BestTimeExecutor := {| btDisplayName := "N/A"; btBestTime := 0 |}.

(** The histogram entry of the first version that the fastest count is
    set against. *)
Definition legacy_first_bucket (h : list TimeInterval) : Z := bucket_total h "<1h".

(** Two reviews of one performer and one review without a performer, and
    the orders in which the maps built from reviews list their entries. *)
Definition reviews : list CAFinal :=
  [ {| caNumber := "1"; caExecutor := "A"; caStatus := "Completed";
       caCompletedAt := Some (10 * Minute); caCreatedAt := 0 |};
    {| caNumber := "2"; caExecutor := "A"; caStatus := "";
       caCompletedAt := None; caCreatedAt := 0 |};
    {| caNumber := "3"; caExecutor := ""; caStatus := "Completed";
       caCompletedAt := Some Hour; caCreatedAt := 0 |} ].

Definition caForward (now : Time) (cs : list CAFinal) : caRangeOrders :=
  let it := map_to_list (caPerformances_of now cs) in
  {| caTopOrder := it; caBoardOrder := it; caBestOrder := it |}.

(** ** Notions used by the amended properties *)




(** The order of the leaderboard in words: the entry [x] may stand before
    the entry [y] when it has more conversions, or as many and a higher
    conversion rate, or as many, the same rate and an average time that is
    not longer. *)
Definition ranks_before (x y : Leaderboard) : Prop :=
  lbConverted y < lbConverted x \/
  (lbConverted x = lbConverted y /\ (lbConversionRate y < lbConversionRate x)%Q) \/
  (lbConverted x = lbConverted y /\ (lbConversionRate x == lbConversionRate y)%Q /\
   lbAverageTime x <= lbAverageTime y).

(** The marker of a value that stands for nobody. *)
Definition not_applicable : string := "N/A".

(** The summary that [newConversion] computes from the counters of its
    loop. *)
Definition conversion_of (total : Z) (s : counters) : Conversion :=
  let processed := converted s + notPassed s in
  let conversionRate :=
    if 0 <? total
    then F32.mul (F32.div (F32.of_int processed) (F32.of_int total)) 100
    else 0%Q in
  let averageTime :=
    if (0 <? total) && (0 <? processed) then Z.quot (sum s) processed else 0 in
  let fastestPercent :=
    if 0 <? processed
    then F32.mul (F32.div (F32.of_int (fastestCount s)) (F32.of_int processed)) 100
    else 0%Q in
  {| Total := total;
     Converted := converted s;
     NotPassed := notPassed s;
     Rate := conversionRate;
     Fastest := fastestCount s;
     FastestPercent := fastestPercent;
     NeedAttention := needAttention s;
     BestTime := bestTime s;
     AverageTime := averageTime |}.

(** The loop of [newConversion] with the clock read as the code reads it:
    [time.Since] is evaluated once at each pending record, so the pending
    record number [n] of the loop (from 0) sees the reading [clock n]. A
    record that is not pending takes no reading, and its iteration does not
    depend on the instant passed. *)
Fixpoint read_loop (clock : nat -> Time) (n : nat) (s : counters) (appIns : list AppIn)
  : counters :=
  match appIns with
  | [] => s
  | appIn :: rest =>
      read_loop clock (if isPending appIn then S n else n)
        (newConversion_iter (clock n) s appIn) rest
  end.

Definition newConversion_read (clock : nat -> Time) (appIns : list AppIn) : Conversion :=
  conversion_of (Z.of_nat (length appIns)) (read_loop clock 0 counters0 appIns).

(** One pending record, created at instant 0. *)
Definition stale_case : list AppIn := [record "A" "" None].

(** * Properties *)

(** ** Rounding to [float32] is monotone *)

Module F32Facts.
Import F32.
Local Open Scope Q_scope.

Lemma pow2_pos k : 0 < pow2 k.
Proof. apply Qpower_0_lt. reflexivity. Qed.

Lemma pow2_add a b : pow2 (a + b) == pow2 a * pow2 b.
Proof. apply Qpower_plus. discriminate. Qed.

Lemma pow2_le a b : (a <= b)%Z -> pow2 a <= pow2 b.
Proof. intros H. apply Qpower_le_compat_l; [exact H | discriminate]. Qed.

Lemma pow2_lt_inv a b : pow2 a < pow2 b -> (a < b)%Z.
Proof.
  intros H. destruct (Z_lt_le_dec a b) as [|Hle]; [assumption|].
  apply pow2_le in Hle. exfalso. apply (Qlt_not_le _ _ H Hle).
Qed.

Lemma pow2_Z n : (0 <= n)%Z -> pow2 n == inject_Z (2 ^ n).
Proof. intros H. unfold pow2. rewrite Zpower_Qpower by exact H. reflexivity. Qed.

Lemma rne_bounds x :
  inject_Z (rne x) - (1 # 2) <= x /\ x <= inject_Z (rne x) + (1 # 2).
Proof.
  unfold rne.
  pose proof (Qfloor_le x) as Hlo. pose proof (Qlt_floor x) as Hhi.
  rewrite inject_Z_plus in Hhi. change (inject_Z 1) with 1 in Hhi.
  set (f := Qfloor x) in *.
  destruct (Qcompare (x - inject_Z f) (1 # 2)) eqn:E.
  - apply Qeq_alt in E.
    destruct (Z.even f); [|rewrite inject_Z_plus; change (inject_Z 1) with 1]; split; lra.
  - apply Qlt_alt in E. split; lra.
  - apply Qgt_alt in E. rewrite inject_Z_plus. change (inject_Z 1) with 1. split; lra.
Qed.

Lemma rne_lt_le x y : x < y -> (rne x <= rne y)%Z.
Proof.
  intros H.
  destruct (rne_bounds x) as [Hx _]. destruct (rne_bounds y) as [_ Hy].
  assert (inject_Z (rne x) < inject_Z (rne y + 1)) as Hlt
    by (rewrite inject_Z_plus; change (inject_Z 1) with 1; lra).
  rewrite <- Zlt_Qlt in Hlt. lia.
Qed.

Lemma rne_ge_Z x z : inject_Z z <= x -> (z <= rne x)%Z.
Proof.
  intros H. destruct (rne_bounds x) as [_ Hx].
  assert (inject_Z z < inject_Z (rne x + 1)) as Hlt
    by (rewrite inject_Z_plus; change (inject_Z 1) with 1; lra).
  rewrite <- Zlt_Qlt in Hlt. lia.
Qed.

Lemma rne_le_Z x z : x <= inject_Z z -> (rne x <= z)%Z.
Proof.
  intros H. destruct (rne_bounds x) as [Hx _].
  assert (inject_Z (rne x) < inject_Z (z + 1)) as Hlt
    by (rewrite inject_Z_plus; change (inject_Z 1) with 1; lra).
  rewrite <- Zlt_Qlt in Hlt. lia.
Qed.

Lemma div_pow2 x e : x / pow2 e == x * pow2 (- e).
Proof. unfold Qdiv, pow2. rewrite Qpower_opp. reflexivity. Qed.

Lemma pow2_mul_cancel a b : pow2 a * pow2 (- b) == pow2 (a - b).
Proof. rewrite <- pow2_add. reflexivity. Qed.

Lemma Qdiv_lt_cross a b c d :
  0 < b -> 0 < d -> a * d < c * b -> a / b < c / d.
Proof.
  intros Hb Hd H. apply Qlt_shift_div_r; [exact Hb|].
  assert (c / d * b == c * b / d) as E by (field; lra). rewrite E.
  apply Qlt_shift_div_l; [exact Hd | exact H].
Qed.

Lemma Zlog2_Q n :
  (0 < n)%Z ->
  pow2 (Z.log2 n) <= inject_Z n /\ inject_Z n < pow2 (Z.log2 n + 1).
Proof.
  intros Hn. pose proof (Z.log2_nonneg n) as H0.
  destruct (Z.log2_spec n Hn) as [Hlo Hhi].
  rewrite !pow2_Z by lia. split.
  - rewrite <- Zle_Qle. exact Hlo.
  - rewrite <- Zlt_Qlt. replace (Z.log2 n + 1)%Z with (Z.succ (Z.log2 n)) by lia.
    exact Hhi.
Qed.

Lemma ilog2_spec x :
  0 < x -> pow2 (ilog2 x) <= x /\ x < pow2 (ilog2 x + 1).
Proof.
  intros Hx. destruct x as [n d]. unfold ilog2. cbn [Qnum Qden].
  assert (0 < n)%Z as Hn by (unfold Qlt in Hx; cbn in Hx; lia).
  destruct (Zlog2_Q n Hn) as [Hn1 Hn2].
  destruct (Zlog2_Q (Zpos d) eq_refl) as [Hd1 Hd2].
  set (a := Z.log2 n) in *. set (b := Z.log2 (Zpos d)) in *.
  pose proof (pow2_pos a) as Ha. pose proof (pow2_pos b) as Hb.
  assert (pow2 (a + 1) == 2 * pow2 a) as Ea
    by (rewrite pow2_add; change (pow2 1) with 2; ring).
  assert (pow2 (b + 1) == 2 * pow2 b) as Eb
    by (rewrite pow2_add; change (pow2 1) with 2; ring).
  rewrite Ea in Hn2. rewrite Eb in Hd2.
  assert (0 < inject_Z (Zpos d)) as HD by (rewrite <- (Zlt_Qlt 0); lia).
  assert (0 < inject_Z n) as HN by (rewrite <- (Zlt_Qlt 0); lia).
  assert (n # d == inject_Z n / inject_Z (Zpos d)) as Ex by apply Qmake_Qdiv.
  destruct (Qle_bool (pow2 (a - b)) (n # d)) eqn:E.
  - apply Qle_bool_iff in E. split; [exact E|].
    rewrite Ex.
    assert (pow2 (a - b + 1) == 2 * pow2 a / pow2 b) as E'; [|rewrite E'].
    2: apply Qdiv_lt_cross; try assumption; nra.
    + replace (a - b + 1)%Z with ((a + 1) + - b)%Z by lia.
      rewrite pow2_add, Ea. unfold pow2 at 2. rewrite Qpower_opp. reflexivity.
  - assert (n # d < pow2 (a - b)) as Hlt.
    { apply Qnot_le_lt. intros Hc. apply Qle_bool_iff in Hc. congruence. }
    replace (a - b - 1 + 1)%Z with (a - b)%Z by lia. split; [|exact Hlt].
    rewrite Ex. apply Qlt_le_weak.
    assert (pow2 (a - b - 1) == pow2 a / (2 * pow2 b)) as E'; [|rewrite E'].
    2: apply Qdiv_lt_cross; try assumption; nra.
    + replace (a - b - 1)%Z with (a + - (b + 1))%Z by lia.
      rewrite pow2_add. unfold pow2 at 2. rewrite Qpower_opp.
      fold (pow2 (b + 1)). rewrite Eb. reflexivity.
Qed.

Lemma ilog2_mono x y : 0 < x -> x <= y -> (ilog2 x <= ilog2 y)%Z.
Proof.
  intros Hx Hxy.
  destruct (ilog2_spec x Hx) as [H1 _].
  destruct (ilog2_spec y) as [_ H2]; [lra|].
  assert (pow2 (ilog2 x) < pow2 (ilog2 y + 1)) as H by lra.
  apply pow2_lt_inv in H. lia.
Qed.

Lemma rnd_pos_lt x y : 0 < x -> x < y -> rnd_pos x <= rnd_pos y.
Proof.
  intros Hx Hxy. unfold rnd_pos.
  pose proof (ilog2_mono x y Hx (Qlt_le_weak _ _ Hxy)) as Hk.
  destruct (ilog2_spec x Hx) as [Hx1 Hx2].
  destruct (ilog2_spec y) as [Hy1 Hy2]; [lra|].
  set (kx := ilog2 x) in *. set (ky := ilog2 y) in *.
  set (ex := Z.max (kx - 23) (-149)). set (ey := Z.max (ky - 23) (-149)).
  pose proof (pow2_pos ex) as Pex. pose proof (pow2_pos ey) as Pey.
  pose proof (pow2_pos (- ex)) as Nex. pose proof (pow2_pos (- ey)) as Ney.
  destruct (Z.eq_dec ex ey) as [Heq|Hne].
  - rewrite <- Heq. apply Qmult_le_compat_r; [|lra].
    rewrite <- Zle_Qle. apply rne_lt_le.
    rewrite !div_pow2. apply Qmult_lt_compat_r; assumption.
  - assert (ex + 1 <= ey)%Z as Hlt by lia.
    assert (ey = ky - 23)%Z as Hey by lia.
    assert (kx - 23 <= ex)%Z as Hex by lia.
    apply Qle_trans with (pow2 (24 + ex)).
    + rewrite pow2_add. apply Qmult_le_compat_r; [|lra].
      rewrite (pow2_Z 24) by lia. rewrite <- Zle_Qle. apply rne_le_Z.
      rewrite <- (pow2_Z 24) by lia. rewrite div_pow2.
      apply Qle_trans with (pow2 (kx + 1) * pow2 (- ex)).
      * apply Qmult_le_compat_r; lra.
      * rewrite pow2_mul_cancel. apply pow2_le. lia.
    + apply Qle_trans with (pow2 (23 + ey)); [apply pow2_le; lia|].
      rewrite pow2_add. apply Qmult_le_compat_r; [|lra].
      rewrite (pow2_Z 23) by lia. rewrite <- Zle_Qle. apply rne_ge_Z.
      rewrite <- (pow2_Z 23) by lia. rewrite div_pow2.
      apply Qle_trans with (pow2 ky * pow2 (- ey)).
      * rewrite pow2_mul_cancel. apply pow2_le. lia.
      * apply Qmult_le_compat_r; lra.
Qed.

Lemma rnd_pos_nonneg x : 0 < x -> 0 <= rnd_pos x.
Proof.
  intros Hx. unfold rnd_pos. set (e := Z.max _ _).
  pose proof (pow2_pos e). pose proof (pow2_pos (- e)).
  apply Qmult_le_0_compat; [|lra].
  rewrite <- (Zle_Qle 0). apply rne_ge_Z. rewrite div_pow2.
  apply Qmult_le_0_compat; lra.
Qed.

Lemma Qnum_sign x : (0 < Qnum x)%Z <-> 0 < x.
Proof. destruct x as [n d]. unfold Qlt. cbn. lia. Qed.

Lemma rnd_le x y : x <= y -> rnd x <= rnd y.
Proof.
  intros Hxy. unfold rnd.
  pose proof (Qred_correct x) as Ex. pose proof (Qred_correct y) as Ey.
  destruct (Qeq_dec x y) as [Heq|Hne].
  { apply Qred_complete in Heq. rewrite Heq. apply Qle_refl. }
  assert (Qred x < Qred y) as Hlt.
  { rewrite Ex, Ey. apply Qle_lteq in Hxy. tauto. }
  clear Hxy Hne.
  generalize dependent (Qred y). generalize dependent (Qred x).
  intros x' _ y' _ Hlt.
  pose proof (Qnum_sign x') as Sx. pose proof (Qnum_sign y') as Sy.
  pose proof (Qnum_sign (- x')) as Sx'. pose proof (Qnum_sign (- y')) as Sy'.
  destruct x' as [nx dx], y' as [ny dy]; cbn [Qnum Qopp] in *.
  destruct nx as [|px|px], ny as [|py|py]; rewrite ?Qred_correct;
    try change (- (Z.neg px # dx)) with (Z.pos px # dx) in *;
    try change (- (Z.neg py # dy)) with (Z.pos py # dy) in *.
  - apply Qle_refl.
  - apply rnd_pos_nonneg. apply (proj1 Sy). lia.
  - exfalso. unfold Qlt in Hlt. cbn in Hlt. lia.
  - exfalso. unfold Qlt in Hlt. cbn in Hlt. lia.
  - apply rnd_pos_lt; [apply (proj1 Sx); lia | exact Hlt].
  - exfalso. unfold Qlt in Hlt. cbn in Hlt. lia.
  - assert (0 <= rnd_pos (Z.pos px # dx)) by (apply rnd_pos_nonneg, (proj1 Sx'); cbn; lia).
    lra.
  - assert (0 <= rnd_pos (Z.pos px # dx)) by (apply rnd_pos_nonneg, (proj1 Sx'); cbn; lia).
    assert (0 <= rnd_pos (Z.pos py # dy)) by (apply rnd_pos_nonneg, (proj1 Sy); lia).
    lra.
  - assert (rnd_pos (Z.pos py # dy) <= rnd_pos (Z.pos px # dx)).
    { apply rnd_pos_lt; [apply (proj1 Sy'); cbn; lia|].
      unfold Qlt in *. cbn in *. lia. }
    lra.
Qed.

Lemma rnd_eq x y : x == y -> rnd x = rnd y.
Proof. intros H. unfold rnd. rewrite (Qred_complete _ _ H). reflexivity. Qed.

Lemma rnd_0 : rnd 0 = 0.
Proof. reflexivity. Qed.

Lemma rnd_1 : rnd 1 = 1.
Proof. vm_compute. reflexivity. Qed.

Lemma rnd_100 : rnd 100 = 100.
Proof. vm_compute. reflexivity. Qed.

(** [float32] has 24 bits of precision: 2^24 + 1 and 2^24 + 3 are ties,
    rounded to the even neighbour. *)
Example of_int_ties :
  of_int 16777217 = 16777216 /\ of_int 16777219 = 16777220 /\
  of_int 16777218 = 16777218.
Proof. vm_compute. auto. Qed.

(** [float32(1) / float32(3) * 100] is 33.333336. *)
Example third_percent : mul (div (of_int 1) (of_int 3)) 100 = 4369067 # 131072.
Proof. vm_compute. reflexivity. Qed.

Lemma of_int_le m n : (m <= n)%Z -> of_int m <= of_int n.
Proof. intros H. apply rnd_le. rewrite <- Zle_Qle. exact H. Qed.

(** [float32(p) / float32(t) * 100] stays within 0 and 100 when
    [0 <= p <= t] and [t] is positive. *)
Lemma percent_range p t :
  (0 <= p <= t)%Z -> (0 < t)%Z ->
  0 <= mul (div (of_int p) (of_int t)) 100 <= 100.
Proof.
  intros [Hp Hpt] Ht.
  assert (0 <= of_int p) as H0 by (rewrite <- rnd_0; apply (of_int_le 0 p Hp)).
  assert (of_int p <= of_int t) as H1 by (apply of_int_le; exact Hpt).
  assert (1 <= of_int t) as H2 by (rewrite <- rnd_1; apply (of_int_le 1 t); lia).
  assert (0 <= of_int p / of_int t <= 1) as [Hq0 Hq1].
  { split.
    - apply Qle_shift_div_l; lra.
    - apply Qle_shift_div_r; lra. }
  assert (0 <= div (of_int p) (of_int t) <= 1) as [Hd0 Hd1].
  { unfold div. split.
    - rewrite <- rnd_0 at 1. apply rnd_le. exact Hq0.
    - rewrite <- rnd_1. apply rnd_le. exact Hq1. }
  unfold mul. split.
  - rewrite <- rnd_0 at 1. apply rnd_le. lra.
  - rewrite <- rnd_100 at 2. apply rnd_le. lra.
Qed.

End F32Facts.

(** ** Strings *)

Lemma ToLower_length s : String.length (ToLower s) = String.length s.
Proof. induction s as [|c s IH]; cbn; [reflexivity | now rewrite IH]. Qed.

Lemma len_ToLower s : len (ToLower s) = len s.
Proof. unfold len. now rewrite ToLower_length. Qed.

Lemma is_empty_len s : is_empty s = negb (0 <? len s).
Proof. destruct s; cbn; [reflexivity|]. unfold len. cbn. symmetry. apply negb_false_iff, Z.ltb_lt. lia. Qed.

Lemma is_empty_ToLower s : is_empty (ToLower s) = is_empty s.
Proof. now destruct s. Qed.

Lemma is_empty_eq s : is_empty s = true -> s = ""%string.
Proof. now destruct s. Qed.

(** ** Counting *)

Lemma count_nonneg {A} (p : A -> bool) l : 0 <= count p l.
Proof. induction l as [|a l IH]; cbn; [lia | destruct (p a); lia]. Qed.

Lemma count_le_length {A} (p : A -> bool) l : count p l <= Z.of_nat (length l).
Proof. induction l as [|a l IH]; cbn; [lia | destruct (p a); lia]. Qed.

Lemma count_impl {A} (p q : A -> bool) l :
  (forall a, p a = true -> q a = true) -> count p l <= count q l.
Proof.
  intros H. induction l as [|a l IH]; cbn; [lia|].
  specialize (H a). destruct (p a), (q a); try lia.
Qed.

Lemma count_all {A} (p : A -> bool) l :
  count p l = Z.of_nat (length l) <-> Forall (fun a => p a = true) l.
Proof.
  induction l as [|a l IH]; cbn [count length].
  - split; [constructor | reflexivity].
  - pose proof (count_le_length p l). split.
    + intros H1. destruct (p a) eqn:E; [|lia].
      constructor; [exact E | apply IH; lia].
    + intros H1. inversion H1 as [|? ? Ha Hl]; subst. rewrite Ha.
      apply IH in Hl. lia.
Qed.

(** ** The classifier and the counters of [newConversion] *)

Lemma dispositions_classified a : dispositions a = b2z (classified a).
Proof.
  unfold dispositions, classified, isConverted, isNotPassed, isPending.
  destruct (CompletedAt a); cbn [notNil negb];
    destruct (Contains _ _) eqn:C; rewrite ?andb_false_r, ?andb_true_r; cbn.
  - lia.
  - destruct (0 <? _); reflexivity.
  - destruct (is_empty _) eqn:E; [|reflexivity].
    apply is_empty_eq in E. rewrite E in C. discriminate C.
  - destruct (is_empty _); reflexivity.
Qed.


Ltac iter_cases a :=
  unfold newConversion_iter, isConverted, isNotPassed, isPending, needsAttention,
    isFastest, elapsed, count_needAttention, count_notPassed, count_converted;
  destruct (CompletedAt a); cbn [notNil negb];
  destruct (0 <? len (ToLower (Status a)));
  destruct (Contains (ToLower (Status a)) "not pass");
  destruct (is_empty (ToLower (Status a)));
  cbn [andb orb negb converted notPassed needAttention fastestCount b2z];
  repeat match goal with
         | |- context [if ?c then _ else _] => destruct c
         end;
  cbn [converted notPassed needAttention fastestCount]; try lia.

Lemma iter_converted now s a :
  converted (newConversion_iter now s a) = converted s + b2z (isConverted a).
Proof. iter_cases a. Qed.

Lemma iter_notPassed now s a :
  notPassed (newConversion_iter now s a) = notPassed s + b2z (isNotPassed a).
Proof. iter_cases a. Qed.

Lemma iter_needAttention now s a :
  needAttention (newConversion_iter now s a)
  = needAttention s + b2z (needsAttention now a).
Proof.
  unfold newConversion_iter, needsAttention, isPending, count_needAttention,
    count_notPassed, count_converted.
  destruct (CompletedAt a); cbn [notNil negb];
  destruct (0 <? len (ToLower (Status a)));
  destruct (Contains (ToLower (Status a)) "not pass");
  destruct (is_empty (ToLower (Status a)));
  cbn [andb orb negb needAttention b2z]; try lia;
  destruct (threshold <? _); cbn; lia.
Qed.

Lemma iter_fastestCount now s a :
  fastestCount (newConversion_iter now s a) = fastestCount s + b2z (isFastest a).
Proof.
  unfold newConversion_iter, isFastest, isConverted, elapsed, count_needAttention,
    count_notPassed, count_converted.
  destruct (CompletedAt a); cbn [notNil negb];
  destruct (0 <? len (ToLower (Status a)));
  destruct (Contains (ToLower (Status a)) "not pass");
  destruct (is_empty (ToLower (Status a)));
  cbn [andb orb negb fastestCount b2z]; try lia;
  try (destruct (_ <=? _); cbn; lia);
  destruct (threshold <? _); cbn; lia.
Qed.

Lemma count_b2z {A} (p : A -> bool) a l : count p (a :: l) = b2z (p a) + count p l.
Proof. reflexivity. Qed.

Lemma fold_counters now l s :
  let s' := fold_left (newConversion_iter now) l s in
  converted s' = converted s + count isConverted l /\
  notPassed s' = notPassed s + count isNotPassed l /\
  needAttention s' = needAttention s + count (needsAttention now) l /\
  fastestCount s' = fastestCount s + count isFastest l.
Proof.
  revert s. induction l as [|a l IH]; intros s; cbn [fold_left].
  - cbn. lia.
  - destruct (IH (newConversion_iter now s a)) as (H1 & H2 & H3 & H4).
    rewrite !count_b2z, H1, H2, H3, H4.
    rewrite iter_converted, iter_notPassed, iter_needAttention, iter_fastestCount.
    lia.
Qed.

Lemma newConversion_counts now l :
  let c := newConversion now l in
  Total c = Z.of_nat (length l) /\
  Converted c = count isConverted l /\
  NotPassed c = count isNotPassed l /\
  NeedAttention c = count (needsAttention now) l /\
  Fastest c = count isFastest l.
Proof.
  destruct (fold_counters now l counters0) as (H1 & H2 & H3 & H4).
  cbn in *. repeat split; assumption.
Qed.

Lemma count_dispositions l :
  count isConverted l + count isNotPassed l + count isPending l = count classified l.
Proof.
  induction l as [|a l IH]; [reflexivity|].
  rewrite !count_b2z, <- IH, <- dispositions_classified. unfold dispositions. lia.
Qed.






(** ** Rates *)

Lemma counters_bounds now l :
  let s := fold_left (newConversion_iter now) l counters0 in
  0 <= fastestCount s <= converted s /\
  0 <= notPassed s /\
  converted s + notPassed s <= Z.of_nat (length l).
Proof.
  destruct (fold_counters now l counters0) as (H1 & H2 & _ & H4).
  cbv zeta. rewrite H1, H2, H4. cbn [counters0 converted notPassed fastestCount].
  pose proof (count_nonneg isFastest l).
  pose proof (count_nonneg isNotPassed l).
  pose proof (count_nonneg isPending l).
  pose proof (count_impl isFastest isConverted l) as Hf.
  pose proof (count_dispositions l). pose proof (count_le_length classified l).
  repeat split; try lia.
  apply Hf. intros a Ha. unfold isFastest in Ha. apply andb_true_iff in Ha. tauto.
Qed.

Lemma ca_fold_counters now l s :
  let s' := fold_left (newCAFinalConversion_iter now) l s in
  converted s' = converted s + count caIsConverted l /\
  fastestCount s' = fastestCount s + count caIsFastest l.
Proof.
  revert s. induction l as [|a l IH]; intros s; cbn [fold_left].
  - cbn. lia.
  - destruct (IH (newCAFinalConversion_iter now s a)) as (H1 & H2).
    rewrite !count_b2z, H1, H2. clear.
    unfold newCAFinalConversion_iter, caIsFastest, caIsConverted,
      count_converted, count_needAttention.
    destruct (caCompletedAt a); cbn [notNil];
      destruct (0 <? _); destruct (String.eqb _ _); cbn [andb negb];
      repeat match goal with
             | |- context [if ?c then _ else _] => destruct c
             end; cbn; lia.
Qed.

Lemma ca_counters_bounds now l :
  let s := fold_left (newCAFinalConversion_iter now) l counters0 in
  0 <= fastestCount s <= converted s /\ converted s <= Z.of_nat (length l).
Proof.
  destruct (ca_fold_counters now l counters0) as (H1 & H2).
  cbv zeta. rewrite H1, H2. cbn [counters0 converted fastestCount].
  pose proof (count_nonneg caIsFastest l).
  pose proof (count_le_length caIsConverted l).
  pose proof (count_impl caIsFastest caIsConverted l) as Hf.
  repeat split; try lia.
  apply Hf. intros a Ha. unfold caIsFastest in Ha. apply andb_true_iff in Ha. tauto.
Qed.

(** C5: for every slice of records, of applications and of reviews, the
    conversion rate and the fastest-percent lie between 0 and 100; the rate
    is 0 when the total is 0, and the average time and the fastest-percent
    are 0 when the processed count is 0 (converted plus not-passed for
    applications, converted for reviews). *)
Theorem C5_rates_in_range (now : Time) (appIns : list AppIn) (cs : list CAFinal) :
  let c := newConversion now appIns in
  let r := newCAFinalConversion now cs in
  rates_guarded c (Converted c + NotPassed c) /\
  rates_guarded r (Converted r).
Proof.
  cbv zeta. split.
  - pose proof (counters_bounds now appIns) as (Hf & Hn & Hp). cbv zeta in *.
    unfold rates_guarded, newConversion.
    cbn [Rate FastestPercent Total AverageTime Converted NotPassed].
    set (s := fold_left _ _ _) in *.
    repeat split.
    + destruct (0 <? _) eqn:E; [|lra].
      apply F32Facts.percent_range; lia.
    + destruct (0 <? _) eqn:E; [|lra].
      apply F32Facts.percent_range; lia.
    + destruct (0 <? converted s + _) eqn:E; [|lra].
      apply Z.ltb_lt in E. apply F32Facts.percent_range; lia.
    + destruct (0 <? converted s + _) eqn:E; [|lra].
      apply Z.ltb_lt in E. apply F32Facts.percent_range; lia.
    + intros ->. reflexivity.
    + rewrite H. rewrite andb_false_r. reflexivity.
    + rewrite H. reflexivity.
  - pose proof (ca_counters_bounds now cs) as (Hf & Hp). cbv zeta in *.
    unfold rates_guarded, newCAFinalConversion.
    cbn [Rate FastestPercent Total AverageTime Converted NotPassed].
    set (s := fold_left _ _ _) in *.
    repeat split.
    + destruct (0 <? _) eqn:E; [|lra].
      apply F32Facts.percent_range; lia.
    + destruct (0 <? _) eqn:E; [|lra].
      apply F32Facts.percent_range; lia.
    + destruct (0 <? converted s) eqn:E; [|lra].
      apply Z.ltb_lt in E. apply F32Facts.percent_range; lia.
    + destruct (0 <? converted s) eqn:E; [|lra].
      apply Z.ltb_lt in E. apply F32Facts.percent_range; lia.
    + intros ->. reflexivity.
    + rewrite H. rewrite andb_false_r. reflexivity.
    + rewrite H. reflexivity.
Qed.

(** ** Histograms *)

Lemma byConverted_iter_tally m a : byConverted_iter m a = tally convertedDuration m a.
Proof.
  unfold byConverted_iter, tally, convertedDuration, isConverted, elapsed.
  rewrite len_ToLower. destruct (CompletedAt a); cbn [notNil].
  - rewrite andb_true_r. destruct (_ && _); reflexivity.
  - rewrite andb_false_r. reflexivity.
Qed.

Lemma byPending_iter_tally now m a :
  byPending_iter now m a = tally (pendingAge now) m a.
Proof.
  unfold byPending_iter, tally, pendingAge, isPending. rewrite is_empty_ToLower.
  destruct (CompletedAt a); cbn [notNil negb].
  - rewrite andb_false_r. reflexivity.
  - rewrite andb_true_r. destruct (is_empty _); reflexivity.
Qed.

Lemma caByConverted_iter_tally m a :
  caByConverted_iter m a = tally caConvertedDuration m a.
Proof.
  unfold caByConverted_iter, tally, caConvertedDuration.
  destruct (caCompletedAt a); [destruct (String.eqb _ _)|]; reflexivity.
Qed.

Lemma caByPending_iter_tally now m a :
  caByPending_iter now m a = tally (caPendingAge now) m a.
Proof.
  unfold caByPending_iter, tally, caPendingAge.
  destruct (caCompletedAt a); [|destruct (negb _)]; reflexivity.
Qed.

Lemma fold_left_ext {A B} (f g : B -> A -> B) l b :
  (forall b a, f b a = g b a) -> fold_left f l b = fold_left g l b.
Proof.
  intros H. revert b. induction l as [|a l IH]; intros b; cbn; [reflexivity|].
  now rewrite H, IH.
Qed.

Lemma read_incr m k t : read (incr m k) t = read m t + b2z (String.eqb k t).
Proof.
  unfold read, incr. rewrite lookup_insert. case_decide as E.
  - subst t. rewrite String.eqb_refl. reflexivity.
  - apply String.eqb_neq in E. rewrite E. cbn. lia.
Qed.

Lemma read_zero_intervals t : read zero_intervals t = 0.
Proof.
  unfold read, zero_intervals. cbn [fold_left titles].
  repeat (rewrite lookup_insert; case_decide; [reflexivity|]).
  rewrite lookup_empty. reflexivity.
Qed.

Lemma read_tally {A} (sel : A -> option Duration) l m t :
  read (fold_left (tally sel) l m) t = read m t + count (counted_in sel t) l.
Proof.
  revert m. induction l as [|a l IH]; intros m; cbn [fold_left count]; [lia|].
  rewrite IH. unfold tally, counted_in. destruct (sel a).
  - rewrite read_incr. unfold b2z. lia.
  - lia.
Qed.

Lemma bucket_spec d :
  (bucket d = "<30min"%string <-> d < 30 * Minute) /\
  (bucket d = "<1h"%string <-> 30 * Minute <= d < Hour) /\
  (bucket d = "<2h"%string <-> Hour <= d < 2 * Hour) /\
  (bucket d = "<3h"%string <-> 2 * Hour <= d < 3 * Hour) /\
  (bucket d = "<4h"%string <-> 3 * Hour <= d < 4 * Hour) /\
  (bucket d = "<5h"%string <-> 4 * Hour <= d < 5 * Hour) /\
  (bucket d = "5h+"%string <-> 5 * Hour <= d).
Proof.
  unfold bucket.
  repeat match goal with
         | |- context [?x <? ?y] => destruct (Z.ltb_spec x y)
         end;
  repeat split; intros; try discriminate; try reflexivity;
  unfold Hour, Minute, Second in *; lia.
Qed.

Lemma bucket_in_titles d : In (bucket d) titles.
Proof.
  unfold bucket, titles.
  repeat match goal with
         | |- context [?x <? ?y] => destruct (x <? y)
         end; cbn; tauto.
Qed.

Lemma counted_once {A} (sel : A -> option Duration) a :
  fold_right Z.add 0 (map (fun t => b2z (counted_in sel t a)) titles)
  = b2z (notNil (sel a)).
Proof.
  unfold counted_in. destruct (sel a) as [d|]; [|reflexivity].
  unfold bucket.
  repeat match goal with
         | |- context [?x <? ?y] => destruct (x <? y)
         end; reflexivity.
Qed.

Lemma count_by_title {A} (sel : A -> option Duration) l :
  fold_right Z.add 0 (map (fun t => count (counted_in sel t) l) titles)
  = count (fun a => notNil (sel a)) l.
Proof.
  induction l as [|a l IH]; [reflexivity|].
  rewrite count_b2z, <- IH, <- counted_once.
  unfold titles. cbn [map fold_right]. rewrite !count_b2z. lia.
Qed.

Lemma tally_histogram {A} (sel : A -> option Duration) l :
  histogram_of sel l (to_intervals (fold_left (tally sel) l zero_intervals)).
Proof.
  assert (map tiTotal (to_intervals (fold_left (tally sel) l zero_intervals))
          = map (fun t => count (counted_in sel t) l) titles) as Htot.
  { unfold to_intervals. rewrite map_map. cbn [tiTotal].
    apply map_ext. intros t. rewrite read_tally, read_zero_intervals. lia. }
  unfold histogram_of. split; [|split; [|split]].
  - unfold to_intervals. rewrite map_map. cbn [Title]. apply map_id.
  - exact Htot.
  - apply Forall_forall. intros e He.
    assert (In (tiTotal e) (map tiTotal (to_intervals
              (fold_left (tally sel) l zero_intervals)))) as Hin
      by (apply in_map, list_elem_of_In, He).
    rewrite Htot in Hin. apply in_map_iff in Hin as (t & <- & _).
    apply count_nonneg.
  - unfold sum_totals. rewrite Htot. apply count_by_title.
Qed.

(** C6: the histogram of completed durations and the histogram of pending
    ages each list the seven buckets "<30min", "<1h", "<2h", "<3h", "<4h",
    "<5h", "5h+" in this order, each with the number of selected records
    whose duration falls in it; the counts are not negative and add up to
    the number of records that satisfy the classification of the histogram
    (converted, resp. pending). A duration falls in the first bucket whose
    threshold it is strictly below, and in "5h+" when it is below none. The
    histograms of the review stream are built alike. *)
Theorem C6_histograms (now : Time) (appIns : list AppIn) (cs : list CAFinal) :
  histogram_of convertedDuration appIns (createTimeIntervalsByConverted appIns) /\
  histogram_of (pendingAge now) appIns (createTimeIntervalsByPending now appIns) /\
  sum_totals (createTimeIntervalsByConverted appIns) = count isConverted appIns /\
  sum_totals (createTimeIntervalsByPending now appIns) = count isPending appIns /\
  histogram_of caConvertedDuration cs (createCAFinalTimeIntervalsByConverted cs) /\
  histogram_of (caPendingAge now) cs (createCAFinalTimeIntervalsByPending now cs) /\
  (forall d : Duration,
     In (bucket d) titles /\
     (bucket d = "<30min"%string <-> d < 30 * Minute) /\
     (bucket d = "<1h"%string <-> 30 * Minute <= d < Hour) /\
     (bucket d = "<2h"%string <-> Hour <= d < 2 * Hour) /\
     (bucket d = "<3h"%string <-> 2 * Hour <= d < 3 * Hour) /\
     (bucket d = "<4h"%string <-> 3 * Hour <= d < 4 * Hour) /\
     (bucket d = "<5h"%string <-> 4 * Hour <= d < 5 * Hour) /\
     (bucket d = "5h+"%string <-> 5 * Hour <= d)).
Proof.
  assert (createTimeIntervalsByConverted appIns
          = to_intervals (fold_left (tally convertedDuration) appIns zero_intervals)) as E1.
  { unfold createTimeIntervalsByConverted. f_equal.
    apply fold_left_ext, byConverted_iter_tally. }
  assert (createTimeIntervalsByPending now appIns
          = to_intervals (fold_left (tally (pendingAge now)) appIns zero_intervals)) as E2.
  { unfold createTimeIntervalsByPending. f_equal.
    apply fold_left_ext, byPending_iter_tally. }
  assert (createCAFinalTimeIntervalsByConverted cs
          = to_intervals (fold_left (tally caConvertedDuration) cs zero_intervals)) as E3.
  { unfold createCAFinalTimeIntervalsByConverted. f_equal.
    apply fold_left_ext, caByConverted_iter_tally. }
  assert (createCAFinalTimeIntervalsByPending now cs
          = to_intervals (fold_left (tally (caPendingAge now)) cs zero_intervals)) as E4.
  { unfold createCAFinalTimeIntervalsByPending. f_equal.
    apply fold_left_ext, caByPending_iter_tally. }
  rewrite E1, E2, E3, E4.
  pose proof (tally_histogram convertedDuration appIns) as H1.
  pose proof (tally_histogram (pendingAge now) appIns) as H2.
  split; [exact H1|]. split; [exact H2|]. split; [|split].
  - destruct H1 as (_ & _ & _ & ->). clear. induction appIns as [|a l IH]; [reflexivity|].
    cbn [count]. rewrite IH. unfold convertedDuration.
    destruct (isConverted a); reflexivity.
  - destruct H2 as (_ & _ & _ & ->). clear. induction appIns as [|a l IH]; [reflexivity|].
    cbn [count]. rewrite IH. unfold pendingAge.
    destruct (isPending a); reflexivity.
  - split; [apply tally_histogram|]. split; [apply tally_histogram|].
    intros d. split; [apply bucket_in_titles | apply bucket_spec].
Qed.

(** ** The speed threshold against the first bucket *)

(** C10: a converted record whose elapsed time is exactly 30 minutes is
    counted as fastest (the test is [<=]) and is tallied in bucket "<1h",
    not in "<30min" (the test is [<]): the fastest count, 1, exceeds the
    count of the "<30min" bucket, 0. *)
Theorem C10_fastest_outside_first_bucket (now : Time) (a : AppIn) :
  isConverted a = true ->
  elapsed a = 30 * Minute ->
  Fastest (newConversion now [a]) = 1 /\
  createTimeIntervalsByConverted [a] =
    [ {| Title := "<30min"; tiTotal := 0 |}; {| Title := "<1h"; tiTotal := 1 |};
      {| Title := "<2h"; tiTotal := 0 |}; {| Title := "<3h"; tiTotal := 0 |};
      {| Title := "<4h"; tiTotal := 0 |}; {| Title := "<5h"; tiTotal := 0 |};
      {| Title := "5h+"; tiTotal := 0 |} ].
Proof.
  intros Hc He. split.
  - destruct (newConversion_counts now [a]) as (_ & _ & _ & _ & ->).
    cbn [count]. unfold isFastest. rewrite Hc, He. reflexivity.
  - unfold createTimeIntervalsByConverted. cbn [fold_left].
    rewrite byConverted_iter_tally. unfold tally, convertedDuration.
    rewrite Hc, He. vm_compute. reflexivity.
Qed.

Lemma C10_witness :
  Fastest (newConversion 0 [half_hour_case]) = 1 /\
  createTimeIntervalsByConverted [half_hour_case] =
    [ {| Title := "<30min"; tiTotal := 0 |}; {| Title := "<1h"; tiTotal := 1 |};
      {| Title := "<2h"; tiTotal := 0 |}; {| Title := "<3h"; tiTotal := 0 |};
      {| Title := "<4h"; tiTotal := 0 |}; {| Title := "<5h"; tiTotal := 0 |};
      {| Title := "5h+"; tiTotal := 0 |} ].
Proof.
  apply (C10_fastest_outside_first_bucket 0 half_hour_case); reflexivity.
Defined.

(** ** Sorting *)

Section InsertionSort.
Context {A : Type} (less : A -> A -> bool).

Lemma insert_left_perm x r : insert_left less x r ≡ₚ x :: r.
Proof.
  induction r as [|y r IH]; cbn; [reflexivity|].
  destruct (less x y); [|reflexivity].
  rewrite IH. apply Permutation_swap.
Qed.

Lemma insertion_fold_perm l acc :
  fold_left (fun rprefix x => insert_left less x rprefix) l acc ≡ₚ l ++ acc.
Proof.
  revert acc. induction l as [|x l IH]; intros acc; cbn [fold_left]; [reflexivity|].
  rewrite IH, insert_left_perm. cbn. symmetry. apply Permutation_middle.
Qed.

Lemma insertionSort_perm l : insertionSort less l ≡ₚ l.
Proof.
  unfold insertionSort. rewrite <- Permutation_rev, insertion_fold_perm.
  now rewrite app_nil_r.
Qed.

Hypothesis Hsw : StrictWeak less.

Lemma less_asym x y : less x y = true -> less y x = false.
Proof.
  intros H. destruct (less y x) eqn:E; [|reflexivity].
  pose proof (sw_trans less Hsw x y x H E) as Hxx.
  rewrite (sw_irrefl less Hsw) in Hxx. discriminate.
Qed.

Lemma insert_left_sorted x r :
  StronglySorted (fun u v => less u v = false) r ->
  StronglySorted (fun u v => less u v = false) (insert_left less x r).
Proof.
  induction 1 as [|y r Hr IH Hy]; cbn.
  - repeat constructor.
  - destruct (less x y) eqn:E.
    + constructor; [exact IH|].
      rewrite insert_left_perm. constructor; [now apply less_asym | exact Hy].
    + constructor; [constructor; assumption|].
      constructor; [exact E|].
      rewrite Forall_forall in Hy |- *. intros z Hz.
      apply (sw_negtrans less Hsw x y z E). now apply Hy.
Qed.

Lemma insertion_fold_sorted l acc :
  StronglySorted (fun u v => less u v = false) acc ->
  StronglySorted (fun u v => less u v = false)
    (fold_left (fun rprefix x => insert_left less x rprefix) l acc).
Proof.
  revert acc. induction l as [|x l IH]; intros acc Hacc; cbn [fold_left]; [exact Hacc|].
  apply IH, insert_left_sorted, Hacc.
Qed.

Lemma rev_sorted l :
  StronglySorted (fun u v => less u v = false) l -> sorted_by less (rev l).
Proof.
  unfold sorted_by. induction 1 as [|y r Hr IH Hy]; cbn; [constructor|].
  apply StronglySorted_app_2; [|exact IH|repeat constructor].
  intros x1 x2 H1 H2. apply list_elem_of_singleton in H2. subst x2.
  rewrite Forall_forall in Hy. apply Hy.
  apply list_elem_of_In in H1. apply in_rev in H1. now apply list_elem_of_In.
Qed.

Lemma insertionSort_sorted l : sorted_by less (insertionSort less l).
Proof. apply rev_sorted, insertion_fold_sorted. constructor. Qed.

End InsertionSort.

Definition insertion_SortSlice : SortSlice :=
  {| sort_slice := @insertionSort;
     sort_slice_perm := @insertionSort_perm;
     sort_slice_sorted := fun A less l H => insertionSort_sorted less H l |}.

(** ** The comparator *)

Lemma less_keys_spec ci ri ai cj rj aj :
  less_keys ci ri ai cj rj aj = true <->
  cj < ci \/ (ci = cj /\ (rj < ri)%Q) \/ (ci = cj /\ (ri == rj)%Q /\ ai < aj).
Proof.
  unfold less_keys, F32.neqb, F32.gtb.
  destruct (Z.eqb_spec ci cj) as [Ec|Ec]; cbn [negb].
  - destruct (Qeq_bool ri rj) eqn:Er; cbn [negb].
    + apply Qeq_bool_iff in Er. rewrite Z.ltb_lt. split; [tauto|].
      intros [H|[[_ H]|H]]; [lia | lra | tauto].
    + assert (~ (ri == rj)%Q) as Hne
        by (intros Hc; apply Qeq_bool_iff in Hc; congruence).
      destruct (Qle_bool ri rj) eqn:El; cbn [negb].
      * apply Qle_bool_iff in El. split; [discriminate|].
        intros [H|[[_ H]|[_ [H _]]]]; [lia | lra | tauto].
      * assert (rj < ri)%Q as Hlt.
        { apply Qnot_le_lt. intros Hc. apply Qle_bool_iff in Hc. congruence. }
        tauto.
  - rewrite Z.ltb_lt. split; [tauto|]. intros [H|[[H _]|[H _]]]; [exact H | lia | lia].
Qed.

Ltac keys_side :=
  solve [ left; lia
        | right; left; split; [lia | lra]
        | right; right; split; [lia | split; [lra | lia]] ].

Ltac keys_absurd H :=
  exfalso; decompose [and or] H; first [lia | lra].

Lemma less_keys_false ci ri ai cj rj aj :
  less_keys ci ri ai cj rj aj = false <->
  ci < cj \/ (ci = cj /\ (ri < rj)%Q) \/ (ci = cj /\ (ri == rj)%Q /\ aj <= ai).
Proof.
  rewrite <- not_true_iff_false, less_keys_spec.
  destruct (Z.lt_trichotomy ci cj) as [H|[H|H]];
    destruct (Q_dec ri rj) as [[Hr|Hr]|Hr];
    destruct (Z.lt_ge_cases ai aj) as [Ha|Ha];
    (split; [intros Hn | intros Hq Hp]);
    first [ keys_side
          | keys_absurd Hp
          | keys_absurd Hq
          | exfalso; apply Hn; keys_side ].
Qed.

Lemma less_keys_StrictWeak {A} (c : A -> Z) (r : A -> Q) (t : A -> Z) :
  StrictWeak (fun x y => less_keys (c x) (r x) (t x) (c y) (r y) (t y)).
Proof.
  split.
  - intros x. apply less_keys_false. right; right. split; [lia | split; [lra | lia]].
  - intros x y z Hxy Hyz. apply less_keys_spec in Hxy, Hyz. apply less_keys_spec.
    decompose [and or] Hxy; decompose [and or] Hyz; keys_side.
  - intros x y z Hxy Hyz. apply less_keys_false in Hxy, Hyz. apply less_keys_false.
    decompose [and or] Hxy; decompose [and or] Hyz; keys_side.
Qed.

Lemma performer_less_StrictWeak : StrictWeak performer_less.
Proof.
  exact (less_keys_StrictWeak (fun p => Converted (pmConversion p))
           (fun p => Rate (pmConversion p)) (fun p => AverageTime (pmConversion p))).
Qed.

Lemma product_less_StrictWeak : StrictWeak product_less.
Proof. exact (less_keys_StrictWeak prConverted prConversionRate prAverageTime). Qed.

(** ** The leaderboard *)

Lemma leaderboard_loop_spec performers i leaderboards :
  (length leaderboards < 5)%nat ->
  leaderboard_loop i performers leaderboards
  = leaderboards ++
    take (5 - length leaderboards)
      (imap (fun k => leaderboard_entry (i + k)) performers).
Proof.
  revert i leaderboards.
  induction performers as [|p rest IH]; intros i acc Hlen; cbn [leaderboard_loop imap].
  - rewrite take_nil, app_nil_r. reflexivity.
  - rewrite length_app. cbn [length].
    replace (i + 0)%nat with i by lia.
    destruct (Nat.leb_spec 5 (length acc + 1)) as [Hge|Hlt].
    + replace (5 - length acc)%nat with 1%nat by lia. reflexivity.
    + rewrite IH by (rewrite length_app; cbn; lia).
      rewrite length_app. cbn [length].
      replace (5 - length acc)%nat with (S (5 - (length acc + 1))) by lia.
      cbn [take]. rewrite <- app_assoc. cbn [app]. do 3 f_equal.
      apply imap_ext. intros k x _. cbn. f_equal. lia.
Qed.

Lemma leaderboard_loop_take performers :
  leaderboard_loop 0 performers [] = imap leaderboard_entry (take 5 performers).
Proof.
  rewrite leaderboard_loop_spec by (cbn; lia). cbn [app length].
  change (5 - 0)%nat with 5%nat.
  apply list_eq. intros i.
  destruct (Nat.lt_ge_cases i 5) as [Hi|Hi].
  - rewrite lookup_take_lt by exact Hi.
    rewrite !list_lookup_imap. rewrite lookup_take_lt by exact Hi. reflexivity.
  - rewrite lookup_take_ge by exact Hi.
    rewrite list_lookup_imap. rewrite lookup_take_ge by exact Hi. reflexivity.
Qed.

Lemma sorted_by_take {A} (less : A -> A -> bool) n l :
  sorted_by less l -> sorted_by less (take n l).
Proof.
  unfold sorted_by. intros H. rewrite <- (take_drop n l) in H.
  now apply StronglySorted_app_1_l in H.
Qed.

Lemma sorted_by_imap {A B} (lessA : A -> A -> bool) (lessB : B -> B -> bool)
    (f : nat -> A -> B) l :
  (forall i j x y, lessB (f i x) (f j y) = lessA x y) ->
  sorted_by lessA l -> sorted_by lessB (imap f l).
Proof.
  unfold sorted_by. intros Hf H. revert f Hf.
  induction H as [|x l Hl IH Hx]; intros f Hf; cbn [imap]; constructor.
  - apply IH. intros i j u v. apply Hf.
  - apply Forall_forall. intros e He.
    apply elem_of_lookup_imap in He as (i & y & -> & Hy).
    cbn. rewrite Hf. rewrite Forall_forall in Hx. apply Hx.
    eapply list_elem_of_lookup_2, Hy.
Qed.

Lemma sorted_ranks_before (lb : list Leaderboard) :
  sorted_by leaderboard_less lb -> StronglySorted ranks_before lb.
Proof.
  unfold sorted_by. induction 1 as [|x l Hl IH Hx]; constructor; [exact IH|].
  eapply Forall_impl; [exact Hx|]. intros y Hy. cbv beta in Hy.
  unfold leaderboard_less in Hy. apply less_keys_false in Hy.
  unfold ranks_before. destruct Hy as [Hy|[[Hy Hy']|(Hy & Hy' & Hy'')]].
  - left. exact Hy.
  - right. left. split; [symmetry; exact Hy | exact Hy'].
  - right. right. split; [symmetry; exact Hy|]. split; [symmetry; exact Hy' | exact Hy''].
Qed.

Lemma StronglySorted_lookup {A} (R : A -> A -> Prop) (l : list A) i j x y :
  StronglySorted R l -> (i < j)%nat -> l !! i = Some x -> l !! j = Some y -> R x y.
Proof.
  intros Hs. revert i j. induction Hs as [|a l Hl IH Ha]; intros i j Hij Hx Hy.
  - discriminate.
  - destruct j as [|j]; [lia|]. cbn in Hy. destruct i as [|i].
    + cbn in Hx. injection Hx as <-. rewrite Forall_forall in Ha.
      apply Ha. eapply list_elem_of_lookup_2, Hy.
    + cbn in Hx. apply (IH i j); [lia | exact Hx | exact Hy].
Qed.

(** C4: for every mapping from performers to metrics and every order in
    which the mapping is ranged over, the leaderboard is sorted: every
    entry stands before each later entry in the order of the claim, that
    is, it has more conversions, or as many and a higher conversion rate,
    or as many, the same rate and an average time that is not longer. The
    length of the leaderboard is min(5, number of performers), the entry at
    position i (from 0) has rank i + 1, and an empty mapping gives the
    empty list. The entries are the first five of the sorted performers. *)
Theorem C4_leaderboard `{SortSlice} (conversions : gmap string performerMetric)
    (it : list (string * performerMetric)) :
  ranges conversions it ->
  let lb := createLeaderboards it in
  StronglySorted ranks_before lb /\
  (forall i j x y, (i < j)%nat -> lb !! i = Some x -> lb !! j = Some y ->
     lbConverted y <= lbConverted x /\
     (lbConverted x = lbConverted y ->
      (lbConversionRate y <= lbConversionRate x)%Q /\
      ((lbConversionRate x == lbConversionRate y)%Q ->
       lbAverageTime x <= lbAverageTime y))) /\
  length lb = Nat.min 5 (size conversions) /\
  (forall i e, lb !! i = Some e -> Rank e = Z.of_nat i + 1) /\
  (conversions = ∅ -> lb = []) /\
  exists ps, ps ≡ₚ map snd (map_to_list conversions) /\
             sorted_by performer_less ps /\
             lb = imap leaderboard_entry (take 5 ps).
Proof.
  intros Hit. cbv zeta. unfold createLeaderboards.
  set (ps := sort_slice performer_less (map snd it)).
  assert (ps ≡ₚ map snd (map_to_list conversions)) as Hperm.
  { unfold ps. rewrite sort_slice_perm. unfold ranges in Hit. now rewrite Hit. }
  assert (sorted_by performer_less ps) as Hsorted
    by apply sort_slice_sorted, performer_less_StrictWeak.
  assert (length ps = size conversions) as Hlen.
  { rewrite Hperm, length_map. apply length_map_to_list. }
  rewrite leaderboard_loop_take.
  assert (StronglySorted ranks_before (imap leaderboard_entry (take 5 ps))) as Hord.
  { apply sorted_ranks_before.
    apply (sorted_by_imap performer_less); [reflexivity|].
    apply sorted_by_take, Hsorted. }
  split; [exact Hord|]. split; [|split; [|split; [|split]]].
  - intros i j x y Hij Hx Hy.
    assert (ranks_before x y) as Hr.
    { exact (StronglySorted_lookup ranks_before _ i j x y Hord Hij Hx Hy). }
    unfold ranks_before in Hr.
    destruct Hr as [Hr|[[Hr Hr']|(Hr & Hr' & Hr'')]].
    + split; [lia|]. intros E. lia.
    + split; [lia|]. intros _. split; [apply Qlt_le_weak, Hr'|].
      intros E. rewrite E in Hr'. now apply Qlt_irrefl in Hr'.
    + split; [lia|]. intros _. split; [rewrite Hr'; apply Qle_refl|].
      intros _. exact Hr''.
  - rewrite length_imap, length_take, Hlen. reflexivity.
  - intros i e He. rewrite list_lookup_imap in He.
    destruct (take 5 ps !! i); [|discriminate]. cbn in He.
    injection He as <-. reflexivity.
  - intros ->. rewrite map_size_empty in Hlen.
    apply nil_length_inv in Hlen. rewrite Hlen. reflexivity.
  - exists ps. auto.
Qed.

Lemma C4_witness :
  let conversions := performances_of 0 scenario in
  let it := map_to_list conversions in
  ranges conversions it /\
  let lb := createLeaderboards (H := insertion_SortSlice) it in
  StronglySorted ranks_before lb /\
  (forall i j x y, (i < j)%nat -> lb !! i = Some x -> lb !! j = Some y ->
     lbConverted y <= lbConverted x /\
     (lbConverted x = lbConverted y ->
      (lbConversionRate y <= lbConversionRate x)%Q /\
      ((lbConversionRate x == lbConversionRate y)%Q ->
       lbAverageTime x <= lbAverageTime y))) /\
  length lb = Nat.min 5 (size conversions) /\
  (forall i e, lb !! i = Some e -> Rank e = Z.of_nat i + 1) /\
  (conversions = ∅ -> lb = []) /\
  exists ps, ps ≡ₚ map snd (map_to_list conversions) /\
             sorted_by performer_less ps /\
             lb = imap leaderboard_entry (take 5 ps).
Proof.
  cbv zeta. split; [unfold ranges; reflexivity|].
  apply (C4_leaderboard (H := insertion_SortSlice)
           (performances_of 0 scenario) (map_to_list (performances_of 0 scenario))).
  unfold ranges. reflexivity.
Defined.

Example scenario_leaderboard :
  map (fun e => (Rank e, lbDisplayName e, lbConverted e))
    (createLeaderboards (H := insertion_SortSlice)
       (map_to_list (performances_of 0 scenario)))
  = [(1, "A"%string, 2); (2, "B"%string, 1)].
Proof. vm_compute. reflexivity. Qed.

(** In the scenario "A" has 2 conversions, 1 refusal and rate 100, "B" has
    1 conversion and rate 100, and the best time is the 10 minutes of "A". *)
Example scenario_metrics :
  let performances := performances_of 0 scenario in
  (fun c => (Converted c, NotPassed c, Rate c)) <$> (pmConversion <$> performances !! "A"%string)
    = Some (2, 1, 100%Q) /\
  (fun c => (Converted c, NotPassed c, Rate c)) <$> (pmConversion <$> performances !! "B"%string)
    = Some (1, 0, 100%Q) /\
  findBestTimeUsedByExecutor (map_to_list performances)
    = {| btDisplayName := "A"; btBestTime := 10 * Minute |}.
Proof. vm_compute. auto. Qed.

(** ** Grouping *)

Lemma lookup_append_to {A} (groups : gmap string (list A)) k a k' :
  append_to groups k a !! k' =
  if decide (k = k') then Some (default [] (groups !! k) ++ [a]) else groups !! k'.
Proof. unfold append_to. apply lookup_insert. Qed.

Lemma group_fold_lookup {A} (key : A -> option string) l groups k :
  fold_left
    (fun groups a =>
       match key a with Some k => append_to groups k a | None => groups end)
    l groups !! k
  = match filter (fun a => key a = Some k) l with
    | [] => groups !! k
    | g => Some (default [] (groups !! k) ++ g)
    end.
Proof.
  revert groups. induction l as [|a l IH]; intros groups; cbn [fold_left].
  - reflexivity.
  - rewrite IH. rewrite filter_cons. destruct (key a) as [k'|] eqn:Ek.
    + rewrite lookup_append_to. destruct (decide (k' = k)) as [->|Hne].
      * rewrite decide_True by reflexivity. cbn [default from_option id].
        destruct (filter _ l); [reflexivity|].
        now rewrite <- app_assoc.
      * rewrite decide_False by congruence. reflexivity.
    + rewrite decide_False by discriminate. reflexivity.
Qed.

Lemma group_by_lookup {A} (key : A -> option string) l k :
  group_by key l !! k = group_of key l k.
Proof.
  unfold group_by, group_of. rewrite group_fold_lookup, lookup_empty.
  destruct (filter _ l); reflexivity.
Qed.

Lemma groupAppInByExecutor_group_by l :
  groupAppInByExecutor l = group_by executorKey l.
Proof.
  unfold groupAppInByExecutor, group_by. apply fold_left_ext.
  intros g a. unfold executorKey. destruct (is_empty _); reflexivity.
Qed.

Lemma groupAppInByProduct_group_by l :
  groupAppInByProduct l = group_by productKey l.
Proof.
  unfold groupAppInByProduct, group_by. apply fold_left_ext.
  intros g a. unfold groupAppInByProduct_iter, productKey.
  repeat match goal with
         | |- context [if ?c then _ else _] => destruct c
         end; reflexivity.
Qed.

(** C9: grouping by product leaves out the records with an empty type; a
    record whose product is "sale auto" in any case goes to the group
    "C4C | ", "Used Car | " or "MC | " followed by its product label,
    according to the first of "c4c", "used car", "mc" found in its type in
    any case; when none is found, and for every other product, the key is
    the product label. Each group holds, in input order, the records of its
    key. *)
Theorem C9_product_groups (appIns : list AppIn) (k : string) :
  groupAppInByProduct appIns !! k = group_of productKey appIns k /\
  (forall g a, groupAppInByProduct appIns !! k = Some g ->
               (a ∈ g <-> a ∈ appIns /\ productKey a = Some k)).
Proof.
  rewrite groupAppInByProduct_group_by, group_by_lookup. split; [reflexivity|].
  intros g a Hg. unfold group_of in Hg.
  assert (g = filter (fun a => productKey a = Some k) appIns) as ->
    by (destruct (filter _ appIns); congruence).
  rewrite list_elem_of_filter. tauto.
Qed.

Example product_keys :
  map productKey
    [ sale "Sale Auto" "New C4C used car"; sale "SALE AUTO" "Used Car (MC)";
      sale "Sale Auto" "mc"; sale "Sale Auto" "Truck"; sale "Loan" "C4C";
      sale "Sale Auto" "" ]
  = [ Some "C4C | Sale Auto"; Some "Used Car | SALE AUTO"; Some "MC | Sale Auto";
      Some "Sale Auto"; Some "Loan"; None ]%string.
Proof. reflexivity. Qed.

Example product_groups :
  let groups := groupAppInByProduct
    [ sale "Sale Auto" "c4c"; sale "Loan" "New"; sale "Loan" ""; sale "sale auto" "C4C" ] in
  size groups = 3%nat /\
  groups !! "C4C | Sale Auto"%string = Some [sale "Sale Auto" "c4c"] /\
  groups !! "Loan"%string = Some [sale "Loan" "New"] /\
  groups !! "C4C | sale auto"%string = Some [sale "sale auto" "C4C"].
Proof. vm_compute. auto. Qed.

Lemma executorKey_Some a k :
  executorKey a = Some k <-> Executor a = k /\ Executor a <> ""%string.
Proof.
  unfold executorKey. destruct (Executor a) as [|c s] eqn:E; cbn.
  - split; [discriminate | intros [_ Hne]; now destruct Hne].
  - split; [intros [= <-]; split; [reflexivity | discriminate]
           | intros [<- _]; reflexivity].
Qed.

Lemma filter_assigned k (l : list AppIn) :
  filter (fun a => executorKey a = Some k)
    (filter (fun a => Executor a <> ""%string) l)
  = filter (fun a => executorKey a = Some k) l.
Proof.
  induction l as [|a l IH]; [reflexivity|].
  rewrite !filter_cons. destruct (decide (Executor a <> ""%string)) as [Hne|He].
  - rewrite filter_cons. now rewrite IH.
  - rewrite IH. rewrite decide_False; [reflexivity|].
    intros Hk. apply executorKey_Some in Hk. tauto.
Qed.

Lemma group_unassigned (l : list AppIn) :
  groupAppInByExecutor l
  = groupAppInByExecutor (filter (fun a => Executor a <> ""%string) l).
Proof.
  rewrite !groupAppInByExecutor_group_by. apply map_eq. intros k.
  rewrite !group_by_lookup. unfold group_of. now rewrite filter_assigned.
Qed.

(** C8: the records without a performer take no part in the aggregation
    by performer. Dropping them leaves the groups unchanged, hence the
    performer metrics, the orders in which they can be ranged over, the
    active-performer count, the top performer, the leaderboard and the
    best-time performer; every record of a group carries the non-empty
    performer that keys the group. The total of the overall conversion
    summary still counts every record. *)
Theorem C8_unassigned_excluded `{SortSlice} (now : Time) (appIns : list AppIn) :
  let assigned := filter (fun a => Executor a <> ""%string) appIns in
  groupAppInByExecutor appIns = groupAppInByExecutor assigned /\
  groupAppInByExecutor appIns !! ""%string = None /\
  (forall k g a, groupAppInByExecutor appIns !! k = Some g -> a ∈ g ->
                 Executor a = k /\ Executor a <> ""%string) /\
  performances_of now appIns = performances_of now assigned /\
  (forall it, ranges (performances_of now appIns) it
              <-> ranges (performances_of now assigned) it) /\
  (forall o,
     ActiveExecutor (newOverview now o appIns)
       = ActiveExecutor (newOverview now o assigned) /\
     TopPerformer_ (newOverview now o appIns)
       = TopPerformer_ (newOverview now o assigned) /\
     Leaderboards (newOverview now o appIns)
       = Leaderboards (newOverview now o assigned) /\
     BestTimeUsed (newOverview now o appIns)
       = BestTimeUsed (newOverview now o assigned) /\
     Total (Conversion_ (newOverview now o appIns)) = Z.of_nat (length appIns)).
Proof.
  cbv zeta. pose proof (group_unassigned appIns) as Hg.
  assert (forall k g a, groupAppInByExecutor appIns !! k = Some g -> a ∈ g ->
                        Executor a = k /\ Executor a <> ""%string) as Hmem.
  { intros k g a Hk Ha. rewrite groupAppInByExecutor_group_by, group_by_lookup in Hk.
    unfold group_of in Hk.
    assert (g = filter (fun a => executorKey a = Some k) appIns) as ->
      by (destruct (filter (fun a => executorKey a = Some k) appIns); congruence).
    apply list_elem_of_filter in Ha as [Ha _]. now apply executorKey_Some. }
  assert (performances_of now appIns
          = performances_of now (filter (fun a => Executor a <> ""%string) appIns))
    as Hp by (unfold performances_of; now rewrite <- Hg).
  split; [exact Hg|]. split; [|split; [exact Hmem|]].
  - rewrite groupAppInByExecutor_group_by, group_by_lookup. unfold group_of.
    destruct (filter (fun a => executorKey a = Some ""%string) appIns)
      as [|a g] eqn:E; [reflexivity|]. exfalso.
    assert (a ∈ filter (fun a => executorKey a = Some ""%string) appIns) as Ha
      by (rewrite E; left).
    apply list_elem_of_filter in Ha as [Ha _]. apply executorKey_Some in Ha.
    destruct Ha as [-> Hne]. now apply Hne.
  - split; [exact Hp|]. split; [intros it; now rewrite <- Hp|].
    intros o. unfold newOverview. cbn. rewrite <- Hg. auto.
Qed.

(** ** Best time *)

Lemma iter_bestTime now s a :
  bestTime (newConversion_iter now s a)
  = if isConverted a
    then if ((bestTime s =? 0) || (elapsed a <? bestTime s)) && (Minute <=? elapsed a)
         then elapsed a else bestTime s
    else bestTime s.
Proof.
  unfold newConversion_iter, isConverted, elapsed, count_needAttention,
    count_notPassed, count_converted.
  destruct (CompletedAt a); cbn [notNil negb];
  destruct (0 <? len (ToLower (Status a)));
  destruct (Contains (ToLower (Status a)) "not pass");
  destruct (is_empty (ToLower (Status a)));
  cbn [andb orb negb bestTime]; try reflexivity;
  destruct (threshold <? _); reflexivity.
Qed.

Lemma qualifying_cons a l :
  qualifying (a :: l) = if qualifies a then elapsed a :: qualifying l else qualifying l.
Proof. unfold qualifying. cbn [List.filter]. destruct (qualifies a); reflexivity. Qed.

(** The update of the best time by one record. *)
Lemma iter_bestTime_cases now s a :
  (qualifies a = true /\
   bestTime (newConversion_iter now s a)
   = if (bestTime s =? 0) || (elapsed a <? bestTime s) then elapsed a else bestTime s) \/
  (qualifies a = false /\ bestTime (newConversion_iter now s a) = bestTime s).
Proof.
  rewrite iter_bestTime. unfold qualifies.
  destruct (isConverted a); cbn [andb]; [|right; auto].
  destruct (Minute <=? elapsed a); [left | right]; split; try reflexivity.
  - now rewrite andb_true_r.
  - now rewrite andb_false_r.
Qed.

Lemma qualifies_floor a : qualifies a = true -> Minute <= elapsed a.
Proof. unfold qualifies. intros H. apply andb_true_iff in H as [_ H]. now apply Z.leb_le. Qed.

Lemma fold_bestTime now l s :
  Minute <= bestTime s ->
  let t' := bestTime (fold_left (newConversion_iter now) l s) in
  Minute <= t' <= bestTime s /\
  (t' = bestTime s \/ In t' (qualifying l)) /\
  Forall (fun d => t' <= d) (qualifying l).
Proof.
  revert s. induction l as [|a l IH]; intros s Hs; cbn [fold_left].
  - cbn. repeat split; try lia; auto.
  - rewrite qualifying_cons.
    destruct (iter_bestTime_cases now s a) as [[Eq Hit]|[Eq Hit]]; rewrite Eq.
    + pose proof (qualifies_floor a Eq) as Hq.
      assert ((bestTime s =? 0) = false) as E0
        by (apply Z.eqb_neq; unfold Minute, Second in *; lia).
      rewrite E0 in Hit. cbn [orb] in Hit.
      destruct (Z.ltb_spec (elapsed a) (bestTime s)) as [Hlt|Hge];
        (destruct (IH (newConversion_iter now s a)) as (H1 & H2 & H3); [lia|]);
        cbv zeta in *; rewrite Hit in *; (split; [lia|]); split.
      * destruct H2 as [H2|H2]; [right; left; symmetry; exact H2 | right; right; exact H2].
      * constructor; [lia | exact H3].
      * destruct H2 as [H2|H2]; [left; exact H2 | right; right; exact H2].
      * constructor; [lia | exact H3].
    + destruct (IH (newConversion_iter now s a)) as (H1 & H2 & H3); [lia|].
      cbv zeta in *. rewrite Hit in *. auto.
Qed.

Lemma fold_bestTime_zero now l s :
  bestTime s = 0 ->
  least_or_zero (qualifying l) (bestTime (fold_left (newConversion_iter now) l s)).
Proof.
  revert s. induction l as [|a l IH]; intros s Hs; cbn [fold_left].
  - exact Hs.
  - rewrite qualifying_cons.
    destruct (iter_bestTime_cases now s a) as [[Eq Hit]|[Eq Hit]]; rewrite Eq.
    + pose proof (qualifies_floor a Eq) as Hq.
      rewrite Hs in Hit. cbn [Z.eqb orb] in Hit.
      destruct (fold_bestTime now l (newConversion_iter now s a)) as (H1 & H2 & H3);
        [lia|]. cbv zeta in *. rewrite Hit in *.
      split; [destruct H2 as [H2|H2]; [left; symmetry; exact H2 | right; exact H2]|].
      constructor; [lia | exact H3].
    + apply IH. congruence.
Qed.

(** The best time of a summary is the least qualifying elapsed time, and 0
    when no record qualifies. *)
Lemma newConversion_bestTime now l :
  least_or_zero (qualifying l) (BestTime (newConversion now l)).
Proof. apply fold_bestTime_zero. reflexivity. Qed.

Lemma findBestTime_iter_cases best e :
  findBestTime_iter best e
  = if (0 <? bestOf e) && ((snd best =? 0) || (bestOf e <? snd best))
    then (fst e, bestOf e) else best.
Proof.
  destruct best as [n t], e as [k p]. unfold findBestTime_iter, bestOf. cbn [fst snd].
  destruct (0 <? _); [|reflexivity]. cbn [andb]. destruct (_ || _); reflexivity.
Qed.

Lemma findBestTime_fold_pos it best :
  0 < snd best ->
  let r := fold_left findBestTime_iter it best in
  0 < snd r <= snd best /\
  (r = best \/ exists e, In e it /\ r = (fst e, bestOf e)) /\
  (forall e, In e it -> 0 < bestOf e -> snd r <= bestOf e).
Proof.
  revert best. induction it as [|e it IH]; intros best Hb; cbn [fold_left].
  - cbn. split; [lia|]. split; [now left|]. intros e [].
  - pose proof (findBestTime_iter_cases best e) as Hc.
    assert ((snd best =? 0) = false) as E0 by (apply Z.eqb_neq; lia).
    rewrite E0 in Hc. cbn [orb] in Hc.
    destruct (Z.ltb_spec 0 (bestOf e)) as [Hp|Hp]; cbn [andb] in Hc.
    + destruct (Z.ltb_spec (bestOf e) (snd best)) as [Hlt|Hge]; rewrite Hc.
      * destruct (IH (fst e, bestOf e)) as (H1 & H2 & H3); [cbn; lia|].
        cbv zeta in *. cbn [snd] in *. split; [lia|]. split.
        -- right. destruct H2 as [H2|(e' & He' & H2)];
             [exists e; split; [now left | exact H2]
             | exists e'; split; [now right | exact H2]].
        -- intros e' [<-|He'] Hpos; [lia | now apply H3].
      * destruct (IH best Hb) as (H1 & H2 & H3). cbv zeta in *.
        split; [lia|]. split.
        -- destruct H2 as [H2|(e' & He' & H2)];
             [now left | right; exists e'; split; [now right | exact H2]].
        -- intros e' [<-|He'] Hpos; [lia | now apply H3].
    + rewrite Hc. destruct (IH best Hb) as (H1 & H2 & H3). cbv zeta in *.
      split; [lia|]. split.
      * destruct H2 as [H2|(e' & He' & H2)];
          [now left | right; exists e'; split; [now right | exact H2]].
      * intros e' [<-|He'] Hpos; [lia | now apply H3].
Qed.

Lemma findBestTime_fold_zero it n :
  let r := fold_left findBestTime_iter it (n, 0) in
  ((forall e, In e it -> bestOf e <= 0) -> r = (n, 0)) /\
  ((exists e, In e it /\ 0 < bestOf e) ->
   0 < snd r /\
   (exists e, In e it /\ r = (fst e, bestOf e)) /\
   (forall e, In e it -> 0 < bestOf e -> snd r <= bestOf e)).
Proof.
  induction it as [|e it IH]; cbn [fold_left].
  - split; [reflexivity | intros (e & [] & _)].
  - rewrite findBestTime_iter_cases. cbn [snd Z.eqb orb]. rewrite andb_true_r.
    destruct (Z.ltb_spec 0 (bestOf e)) as [Hp|Hp].
    + destruct (findBestTime_fold_pos it (fst e, bestOf e)) as (H1 & H2 & H3);
        [cbn; lia|]. cbv zeta in *. cbn [snd] in *. split.
      * intros Hall. specialize (Hall e (or_introl eq_refl)). lia.
      * intros _. split; [lia|]. split.
        -- destruct H2 as [H2|(e' & He' & H2)];
             [exists e; split; [now left | exact H2]
             | exists e'; split; [now right | exact H2]].
        -- intros e' [<-|He'] Hpos; [lia | now apply H3].
    + destruct IH as [IH1 IH2]. split.
      * intros Hall. apply IH1. intros e' He'. apply Hall. now right.
      * intros (e' & [<-|He'] & Hpos); [lia|].
        destruct IH2 as (H1 & (e2 & He2 & H2) & H3); [now exists e'|].
        split; [exact H1|]. split; [exists e2; split; [now right | exact H2]|].
        intros e3 [<-|He3] Hpos3; [lia | now apply H3].
Qed.

(** The best-time performer of a non-empty range: the least positive best
    time and a performer who has it; the empty name and 0 when no performer
    has a positive best time. *)
Lemma findBestTimeUsedByExecutor_spec it :
  it <> [] ->
  let r := findBestTimeUsedByExecutor it in
  ((forall e, In e it -> bestOf e <= 0) ->
   r = {| btDisplayName := ""; btBestTime := 0 |}) /\
  ((exists e, In e it /\ 0 < bestOf e) ->
   0 < btBestTime r /\
   (exists e, In e it /\ btDisplayName r = fst e /\ btBestTime r = bestOf e) /\
   (forall e, In e it -> 0 < bestOf e -> btBestTime r <= bestOf e)).
Proof.
  intros Hne. unfold findBestTimeUsedByExecutor.
  destruct it as [|e0 it0]; [congruence|]. cbn [length Nat.eqb].
  set (it := e0 :: it0) in *.
  destruct (findBestTime_fold_zero it ""%string) as [H1 H2]. cbv zeta in *.
  destruct (fold_left findBestTime_iter it (""%string, 0)) as [n t] eqn:E. split.
  - intros Hall. specialize (H1 Hall). now injection H1 as -> ->.
  - intros Hex. destruct (H2 Hex) as (Hp & (e & He & Hr) & Hmin). cbn [snd] in *.
    injection Hr as -> ->. cbn. split; [exact Hp|]. split; [|exact Hmin].
    exists e. auto.
Qed.

(** C2, where the code departs from it: for a performer grouping that is
    not empty and in which no performer has a best time, the best-time
    performer comes out with an empty name and a zero duration, not with
    the "N/A" that the empty grouping gets. *)
Theorem C2_no_best_time_unsignalled :
  let it := map_to_list (performances_of 0 idle_performer) in
  length it = 1%nat /\
  Forall (fun e => bestOf e = 0) it /\
  findBestTimeUsedByExecutor it = {| btDisplayName := ""; btBestTime := 0 |} /\
  findBestTimeUsedByExecutor [] = {| btDisplayName := "N/A"; btBestTime := 0 |}.
Proof. vm_compute. repeat split. repeat constructor. Qed.

(** ** Empty input *)

Lemma ranges_empty {V} (it : list (string * V)) : ranges (∅ : gmap string V) it -> it = [].
Proof.
  unfold ranges. rewrite map_to_list_empty. intros H.
  now apply Permutation_nil_r in H.
Qed.

Lemma sort_slice_nil `{SortSlice} {A} (less : A -> A -> bool) : sort_slice less [] = [].
Proof. apply Permutation_nil_r. apply sort_slice_perm. Qed.

(** C7 (as the code has it): on empty input, for both streams, the
    overview is complete: no active performer, every count and rate of the
    conversion summary 0, both histograms with their seven buckets at 0, an
    empty leaderboard, no product metrics, and the best-time performer
    "N/A". The top performer is not marked as not applicable: it is the
    zero value, with an empty name and zero figures. *)
Theorem C7_empty_input `{SortSlice} (now : Time) (o : rangeOrders) (co : caRangeOrders) :
  admissible now [] o ->
  caAdmissible now [] co ->
  SetCAFinal now co (newOverview now o []) []
  = {| ActiveExecutor := 0;
       TopPerformer_ := {| tpDisplayName := ""; tpConverted := 0; tpConversionRate := 0 |};
       Conversion_ := zero_conversion;
       TimeIntervalsByConverted := zero_histogram;
       TimeIntervalsByPending := zero_histogram;
       BestTimeUsed := {| btDisplayName := "N/A"; btBestTime := 0 |};
       Leaderboards := [];
       ProductMetrics_ := [];
       CAFinalOverview_ :=
         Some {| caActiveExecutor := 0;
                 caTopPerformer :=
                   {| tpDisplayName := ""; tpConverted := 0; tpConversionRate := 0 |};
                 caConversion := zero_conversion;
                 caTimeIntervalsByConverted := zero_histogram;
                 caTimeIntervalsByPending := zero_histogram;
                 caBestTimeUsed := {| btDisplayName := "N/A"; btBestTime := 0 |};
                 caLeaderboards := [] |} |}.
Proof.
  intros (H1 & H2 & H3 & H4) (C1 & C2 & C3).
  unfold performances_of, calculatePerformanceConversionMetricsByExecutor in H1, H2, H3.
  unfold caPerformances_of, calculateCAFinalConversionMetricsByExecutor in C1, C2, C3.
  cbn [groupAppInByExecutor groupCAFinalByExecutor groupAppInByProduct fold_left] in *.
  rewrite map_imap_empty in *.
  apply ranges_empty in H1, H2, H3, H4, C1, C2, C3.
  unfold SetCAFinal, newOverview, newCAFinalOverview,
    calculatePerformanceConversionMetricsByProduct, createLeaderboards.
  rewrite H1, H2, H3, H4, C1, C2, C3. cbn [map]. rewrite !sort_slice_nil.
  reflexivity.
Qed.

Lemma C7_witness :
  admissible 0 [] no_ranges /\
  caAdmissible 0 [] no_caRanges /\
  ActiveExecutor
    (SetCAFinal (H := insertion_SortSlice) 0 no_caRanges
       (newOverview (H := insertion_SortSlice) 0 no_ranges []) []) = 0.
Proof.
  assert (admissible 0 [] no_ranges) as Ha by (repeat split; unfold ranges; vm_compute; constructor).
  assert (caAdmissible 0 [] no_caRanges) as Hc by (repeat split; unfold ranges; vm_compute; constructor).
  split; [exact Ha|]. split; [exact Hc|].
  rewrite (C7_empty_input (H := insertion_SortSlice) 0 no_ranges no_caRanges Ha Hc).
  reflexivity.
Defined.

(** C7, as stated, fails for the top performer: on empty input its name
    is the empty string, not the marker "N/A" that the best-time performer
    of the same overview carries; the same holds for the review stream. *)
Lemma C7_top_performer_unmarked :
  let r := newOverview (H := insertion_SortSlice) 0 no_ranges [] in
  let ca := newCAFinalOverview (H := insertion_SortSlice) 0 no_caRanges [] in
  admissible 0 [] no_ranges /\
  caAdmissible 0 [] no_caRanges /\
  TopPerformer_ r = {| tpDisplayName := ""; tpConverted := 0; tpConversionRate := 0 |} /\
  tpDisplayName (TopPerformer_ r) <> not_applicable /\
  btDisplayName (BestTimeUsed r) = not_applicable /\
  tpDisplayName (caTopPerformer ca) <> not_applicable /\
  btDisplayName (caBestTimeUsed ca) = not_applicable.
Proof.
  cbv zeta.
  split; [repeat split; unfold ranges; vm_compute; constructor|].
  split; [repeat split; unfold ranges; vm_compute; constructor|].
  vm_compute. repeat split; congruence.
Qed.

(** ** Dependence on the order of the ranges *)

(** A loop gives the same result over two orders of the same entries when
    its body commutes on distinct entries. *)
Lemma fold_left_perm_comm {A S} (f : S -> A -> S) (l1 l2 : list A) :
  l1 ≡ₚ l2 ->
  NoDup l1 ->
  (forall a b s, a ∈ l1 -> b ∈ l1 -> a <> b -> f (f s a) b = f (f s b) a) ->
  forall s, fold_left f l1 s = fold_left f l2 s.
Proof.
  induction 1 as [|x l l' Hp IH|x y l|l l' l'' Hp1 IH1 Hp2 IH2];
    intros Hnd Hcomm s; cbn [fold_left].
  - reflexivity.
  - apply NoDup_cons in Hnd as [_ Hnd]. apply IH; [exact Hnd|].
    intros a b s' Ha Hb. apply Hcomm; now right.
  - rewrite (Hcomm y x s); [reflexivity | left | right; left |].
    apply NoDup_cons in Hnd as [Hy _]. intros ->. apply Hy. left.
  - rewrite IH1 by assumption. apply IH2.
    + now rewrite <- Hp1.
    + intros a b s' Ha Hb. apply Hcomm; now rewrite Hp1.
Qed.

Lemma beats_true c r tc tr :
  beats c r tc tr = true <-> tc < c \/ (c = tc /\ (tr < r)%Q).
Proof.
  unfold beats, F32.gtb.
  rewrite orb_true_iff, andb_true_iff, Z.ltb_lt, Z.eqb_eq, negb_true_iff.
  assert (Qle_bool r tr = false <-> (tr < r)%Q) as ->; [|tauto].
  split.
  - intros E. apply Qnot_le_lt. intros Hc. apply Qle_bool_iff in Hc. congruence.
  - intros Hlt. destruct (Qle_bool r tr) eqn:E; [|reflexivity].
    apply Qle_bool_iff in E. lra.
Qed.

Lemma beats_false c r tc tr :
  beats c r tc tr = false <-> c < tc \/ (c = tc /\ (r <= tr)%Q).
Proof.
  rewrite <- not_true_iff_false, beats_true.
  destruct (Z.lt_trichotomy c tc) as [H|[H|H]];
    destruct (Qlt_le_dec tr r) as [Hr|Hr];
    (split; [intros Hn | intros Hq Hp]);
    first [ solve [left; lia]
          | solve [right; split; [lia | lra]]
          | exfalso; decompose [and or] Hp; first [lia | lra]
          | exfalso; decompose [and or] Hq; first [lia | lra]
          | exfalso; apply Hn; solve [left; lia | right; split; [lia | lra]] ].
Qed.

Lemma getTopPerformer_iter_beats top k p :
  getTopPerformer_iter top (k, p)
  = if beats (Converted (pmConversion p)) (Rate (pmConversion p))
         (tpConverted top) (tpConversionRate top)
    then {| tpDisplayName := k;
            tpConverted := Converted (pmConversion p);
            tpConversionRate := Rate (pmConversion p) |}
    else top.
Proof. reflexivity. Qed.

Lemma getTopPerformer_iter_comm top k1 p1 k2 p2 :
  ~ (Converted (pmConversion p1) = Converted (pmConversion p2) /\
     (Rate (pmConversion p1) == Rate (pmConversion p2))%Q) ->
  getTopPerformer_iter (getTopPerformer_iter top (k1, p1)) (k2, p2)
  = getTopPerformer_iter (getTopPerformer_iter top (k2, p2)) (k1, p1).
Proof.
  intros Hnt. rewrite !getTopPerformer_iter_beats.
  set (c1 := Converted (pmConversion p1)) in *. set (r1 := Rate (pmConversion p1)) in *.
  set (c2 := Converted (pmConversion p2)) in *. set (r2 := Rate (pmConversion p2)) in *.
  destruct top as [tn tc tr]. cbn [tpConverted tpConversionRate].
  destruct (beats c1 r1 tc tr) eqn:E1; destruct (beats c2 r2 tc tr) eqn:E2;
    cbn [tpConverted tpConversionRate]; rewrite ?E1, ?E2;
    try destruct (beats c2 r2 c1 r1) eqn:E3;
    try destruct (beats c1 r1 c2 r2) eqn:E4;
    try reflexivity; exfalso;
    repeat match goal with
           | H : beats _ _ _ _ = true |- _ => apply beats_true in H
           | H : beats _ _ _ _ = false |- _ => apply beats_false in H
           end;
    repeat match goal with
           | H : _ \/ _ |- _ => destruct H
           | H : _ /\ _ |- _ => destruct H
           end;
    first [lia | lra | apply Hnt; split; [lia | lra]].
Qed.

Lemma improves_true b t : improves b t = true <-> 0 < b /\ (t = 0 \/ b < t).
Proof.
  unfold improves. now rewrite andb_true_iff, orb_true_iff, !Z.ltb_lt, Z.eqb_eq.
Qed.

Lemma improves_false b t : improves b t = false <-> b <= 0 \/ (t <> 0 /\ t <= b).
Proof.
  rewrite <- not_true_iff_false, improves_true. lia.
Qed.

Lemma findBestTime_iter_comm best e1 e2 :
  (0 < bestOf e1 -> bestOf e1 <> bestOf e2) ->
  findBestTime_iter (findBestTime_iter best e1) e2
  = findBestTime_iter (findBestTime_iter best e2) e1.
Proof.
  intros Hnt. rewrite !findBestTime_iter_cases.
  destruct best as [n t]. cbn [snd]. fold (improves (bestOf e1) t).
  fold (improves (bestOf e2) t).
  destruct (improves (bestOf e1) t) eqn:E1; destruct (improves (bestOf e2) t) eqn:E2;
    cbn [snd];
    fold (improves (bestOf e1) t); fold (improves (bestOf e2) t);
    fold (improves (bestOf e2) (bestOf e1)); fold (improves (bestOf e1) (bestOf e2));
    rewrite ?E1, ?E2;
    try destruct (improves (bestOf e2) (bestOf e1)) eqn:E3;
    try destruct (improves (bestOf e1) (bestOf e2)) eqn:E4;
    try reflexivity; exfalso;
    repeat match goal with
           | H : improves _ _ = true |- _ => apply improves_true in H
           | H : improves _ _ = false |- _ => apply improves_false in H
           end; lia.
Qed.

(** Two sorted arrangements of the same elements are equal when the
    comparator leaves no two distinct elements unordered. *)
Lemma sort_slice_unique `{SortSlice} {A} (less : A -> A -> bool) (l1 l2 : list A) :
  StrictWeak less ->
  l1 ≡ₚ l2 ->
  (forall x y, x ∈ l1 -> y ∈ l1 -> less x y = false -> less y x = false -> x = y) ->
  sort_slice less l1 = sort_slice less l2.
Proof.
  intros Hsw Hp Htie.
  apply (StronglySorted_unique_strong (fun x y => less y x = false)).
  - intros x y Hx Hy Hxy Hyx. apply Htie; try assumption.
    + now rewrite sort_slice_perm in Hx.
    + now rewrite sort_slice_perm, <- Hp in Hy.
  - now apply sort_slice_sorted.
  - now apply sort_slice_sorted.
  - now rewrite !sort_slice_perm.
Qed.

Lemma untiedb_untied {V} (tie : V -> V -> bool) (m : gmap string V) :
  untiedb tie m = true -> untied tie m.
Proof.
  unfold untiedb, untied. intros Hb k1 k2 v1 v2 H1 H2 Ht.
  rewrite forallb_forall in Hb.
  apply elem_of_map_to_list, list_elem_of_In in H1, H2.
  specialize (Hb _ H1). rewrite forallb_forall in Hb. specialize (Hb _ H2).
  cbn [fst snd] in Hb. rewrite Ht in Hb. cbn in Hb. rewrite orb_false_r in Hb.
  now apply String.eqb_eq.
Qed.

Lemma less_keys_tie ci ri ai cj rj aj :
  less_keys ci ri ai cj rj aj = false ->
  less_keys cj rj aj ci ri ai = false ->
  ci = cj /\ (ri == rj)%Q /\ ai = aj.
Proof.
  intros H1 H2. apply less_keys_false in H1, H2.
  decompose [and or] H1; decompose [and or] H2;
    first [lia | exfalso; lra | repeat split; first [lia | lra]].
Qed.

Section Orders.
Context `{SortSlice} {V : Type} (m : gmap string V).
Context (it1 it2 : list (string * V)) (H1 : ranges m it1) (H2 : ranges m it2).

Lemma ranges_perm : it1 ≡ₚ it2.
Proof. unfold ranges in *. now rewrite H1, H2. Qed.

Lemma ranges_NoDup : NoDup it1.
Proof. unfold ranges in H1. rewrite H1. apply NoDup_map_to_list. Qed.

Lemma ranges_lookup k v : (k, v) ∈ it1 -> m !! k = Some v.
Proof. unfold ranges in H1. rewrite H1. apply elem_of_map_to_list. Qed.

(** Distinct entries of a range have distinct keys. *)
Lemma ranges_keys k1 v1 k2 v2 :
  (k1, v1) ∈ it1 -> (k2, v2) ∈ it1 -> k1 = k2 -> v1 = v2.
Proof.
  intros Ha Hb ->. apply ranges_lookup in Ha, Hb. congruence.
Qed.

(** A loop over the entries does not see the order when its body
    commutes on untied entries. *)
Lemma range_fold_untied {S} (f : S -> string * V -> S) (tie : V -> V -> bool) s :
  untied tie m ->
  (forall s k1 v1 k2 v2, tie v1 v2 = false ->
     f (f s (k1, v1)) (k2, v2) = f (f s (k2, v2)) (k1, v1)) ->
  fold_left f it1 s = fold_left f it2 s.
Proof.
  intros Hu Hcomm. apply fold_left_perm_comm.
  - apply ranges_perm.
  - apply ranges_NoDup.
  - intros [k1 v1] [k2 v2] s' Ha Hb Hne. apply Hcomm.
    destruct (tie v1 v2) eqn:E; [|reflexivity]. exfalso. apply Hne.
    assert (k1 = k2) as Hk
      by (eapply Hu; [apply ranges_lookup, Ha | apply ranges_lookup, Hb | exact E]).
    f_equal; [exact Hk | now apply (ranges_keys k1 v1 k2 v2)].
Qed.

(** Sorting the images of the entries does not see the order when the
    comparator orders the images of untied entries. *)
Lemma range_sort_untied {B} (g : string * V -> B) (less : B -> B -> bool)
    (tie : V -> V -> bool) :
  StrictWeak less ->
  untied tie m ->
  (forall e1 e2, less (g e1) (g e2) = false -> less (g e2) (g e1) = false ->
                 tie (snd e1) (snd e2) = true) ->
  sort_slice less (map g it1) = sort_slice less (map g it2).
Proof.
  intros Hsw Hu Htie. apply sort_slice_unique; [exact Hsw | | ].
  - apply Permutation_map, ranges_perm.
  - intros x y Hx Hy Hxy Hyx.
    apply list_elem_of_In, in_map_iff in Hx as ([k1 v1] & <- & Hx).
    apply list_elem_of_In, in_map_iff in Hy as ([k2 v2] & <- & Hy).
    apply list_elem_of_In in Hx, Hy.
    pose proof (Htie _ _ Hxy Hyx) as Ht. cbn [snd] in Ht.
    assert (k1 = k2) as Hk
      by (eapply Hu; [apply ranges_lookup, Hx | apply ranges_lookup, Hy | exact Ht]).
    do 2 f_equal; [exact Hk | now apply (ranges_keys k1 v1 k2 v2)].
Qed.

End Orders.

Section Determinism.
Context `{SortSlice}.

Lemma top_tie_false p q :
  top_tie p q = false ->
  ~ (Converted (pmConversion p) = Converted (pmConversion q) /\
     (Rate (pmConversion p) == Rate (pmConversion q))%Q).
Proof.
  unfold top_tie. intros Hf [Hc Hr].
  apply Z.eqb_eq in Hc. apply Qeq_bool_iff in Hr. rewrite Hc, Hr in Hf. discriminate.
Qed.

Lemma getTopPerformer_order m it1 it2 :
  ranges m it1 -> ranges m it2 -> untied top_tie m ->
  getTopPerformer it1 = getTopPerformer it2.
Proof.
  intros H1 H2 Hu. unfold getTopPerformer.
  apply (range_fold_untied m it1 it2 H1 H2 _ top_tie); [exact Hu|].
  intros s k1 v1 k2 v2 Ht. apply getTopPerformer_iter_comm, top_tie_false, Ht.
Qed.

Lemma findBestTimeUsedByExecutor_order m it1 it2 :
  ranges m it1 -> ranges m it2 -> untied best_tie m ->
  findBestTimeUsedByExecutor it1 = findBestTimeUsedByExecutor it2.
Proof.
  intros H1 H2 Hu. unfold findBestTimeUsedByExecutor.
  rewrite (Permutation_length (ranges_perm m it1 it2 H1 H2)).
  rewrite (range_fold_untied m it1 it2 H1 H2 findBestTime_iter best_tie); auto.
  intros s k1 v1 k2 v2 Ht. apply findBestTime_iter_comm.
  unfold bestOf, best_tie in *. cbn [snd]. intros Hp Heq.
  apply Z.ltb_lt in Hp. apply Z.eqb_eq in Heq. rewrite Hp, Heq in Ht. discriminate.
Qed.

Lemma createLeaderboards_order m it1 it2 :
  ranges m it1 -> ranges m it2 -> untied board_tie m ->
  createLeaderboards it1 = createLeaderboards it2.
Proof.
  intros H1 H2 Hu. unfold createLeaderboards. f_equal.
  apply (range_sort_untied m it1 it2 H1 H2 snd performer_less board_tie);
    [apply performer_less_StrictWeak | exact Hu |].
  intros e1 e2 Ha Hb. unfold performer_less in Ha, Hb.
  destruct (less_keys_tie _ _ _ _ _ _ Ha Hb) as (Hc & Hr & Ht).
  unfold board_tie, top_tie. rewrite Hc, Ht, !Z.eqb_refl.
  apply Qeq_bool_iff in Hr. now rewrite Hr.
Qed.

Lemma productMetrics_order now g it1 it2 :
  ranges g it1 -> ranges g it2 -> untied (product_tie now) g ->
  calculatePerformanceConversionMetricsByProduct now it1
  = calculatePerformanceConversionMetricsByProduct now it2.
Proof.
  intros H1 H2 Hu. unfold calculatePerformanceConversionMetricsByProduct.
  apply (range_sort_untied g it1 it2 H1 H2 (product_entry now) product_less
           (product_tie now)); [apply product_less_StrictWeak | exact Hu |].
  intros [k1 g1] [k2 g2] Ha Hb. unfold product_less, product_entry in Ha, Hb.
  cbn [prConverted prConversionRate prAverageTime] in Ha, Hb.
  destruct (less_keys_tie _ _ _ _ _ _ Ha Hb) as (Hc & Hr & Ht).
  unfold product_tie. cbn [snd]. rewrite Hc, Ht, !Z.eqb_refl.
  apply Qeq_bool_iff in Hr. now rewrite Hr.
Qed.

Lemma untied_board_of_top m : untied top_tie m -> untied board_tie m.
Proof.
  intros Hu k1 k2 v1 v2 Ha Hb Ht. apply (Hu k1 k2 v1 v2 Ha Hb).
  unfold board_tie in Ht. now apply andb_true_iff in Ht as [Ht _].
Qed.

End Determinism.

(** C3 (as the code has it): two runs on the same records at the same
    current time may range over the maps in different orders. They agree on
    the active-performer count, the conversion summary and both histograms.
    They agree on the top performer when no two performers tie on converted
    count and conversion rate, on the leaderboard when no two performers
    tie on converted count, conversion rate and average time, on the
    best-time performer when no two performers share a non-zero best time,
    and on the product metrics when no two products tie on converted count,
    conversion rate and average time; without any such tie the two
    overviews are equal in every field. *)
Theorem C3_deterministic_without_ties `{SortSlice} (now : Time) (appIns : list AppIn)
    (o1 o2 : rangeOrders) :
  admissible now appIns o1 ->
  admissible now appIns o2 ->
  let r1 := newOverview now o1 appIns in
  let r2 := newOverview now o2 appIns in
  let performances := performances_of now appIns in
  let products := groupAppInByProduct appIns in
  ActiveExecutor r1 = ActiveExecutor r2 /\
  Conversion_ r1 = Conversion_ r2 /\
  TimeIntervalsByConverted r1 = TimeIntervalsByConverted r2 /\
  TimeIntervalsByPending r1 = TimeIntervalsByPending r2 /\
  (untied top_tie performances -> TopPerformer_ r1 = TopPerformer_ r2) /\
  (untied board_tie performances -> Leaderboards r1 = Leaderboards r2) /\
  (untied best_tie performances -> BestTimeUsed r1 = BestTimeUsed r2) /\
  (untied (product_tie now) products -> ProductMetrics_ r1 = ProductMetrics_ r2) /\
  (untied top_tie performances -> untied best_tie performances ->
   untied (product_tie now) products -> r1 = r2).
Proof.
  intros (A1 & A2 & A3 & A4) (B1 & B2 & B3 & B4). cbv zeta.
  pose proof (getTopPerformer_order _ _ _ A1 B1) as Htop.
  pose proof (createLeaderboards_order _ _ _ A2 B2) as Hboard.
  pose proof (findBestTimeUsedByExecutor_order _ _ _ A3 B3) as Hbest.
  pose proof (productMetrics_order now _ _ _ A4 B4) as Hprod.
  unfold newOverview. cbn.
  repeat (split; [solve [reflexivity | assumption]|]).
  intros Ut Ub Up.
  rewrite (Htop Ut), (Hboard (untied_board_of_top _ Ut)), (Hbest Ub), (Hprod Up).
  reflexivity.
Qed.

Lemma forward_admissible appIns : admissible 0 appIns (forward appIns).
Proof. repeat split; unfold ranges; reflexivity. Qed.

Lemma backward_admissible appIns : admissible 0 appIns (backward appIns).
Proof. repeat split; unfold ranges; cbn; symmetry; apply Permutation_rev. Qed.

Lemma C3_witness :
  admissible 0 scenario (forward scenario) /\
  admissible 0 scenario (backward scenario) /\
  topOrder (forward scenario) <> topOrder (backward scenario) /\
  newOverview (H := insertion_SortSlice) 0 (forward scenario) scenario
  = newOverview (H := insertion_SortSlice) 0 (backward scenario) scenario.
Proof.
  split; [apply forward_admissible|]. split; [apply backward_admissible|].
  split; [vm_compute; discriminate|].
  apply (C3_deterministic_without_ties (H := insertion_SortSlice) 0 scenario
           (forward scenario) (backward scenario)
           (forward_admissible scenario) (backward_admissible scenario));
    apply untiedb_untied; vm_compute; reflexivity.
Defined.

(** C3, as stated, fails: on the tied records two admissible runs differ in
    the top performer, the order of the leaderboard, the best-time
    performer and the order of the product metrics. *)
Lemma C3_order_dependent :
  admissible 0 tied (forward tied) /\
  admissible 0 tied (backward tied) /\
  let r1 := newOverview (H := insertion_SortSlice) 0 (forward tied) tied in
  let r2 := newOverview (H := insertion_SortSlice) 0 (backward tied) tied in
  tpDisplayName (TopPerformer_ r1) <> tpDisplayName (TopPerformer_ r2) /\
  map lbDisplayName (Leaderboards r1) <> map lbDisplayName (Leaderboards r2) /\
  btDisplayName (BestTimeUsed r1) <> btDisplayName (BestTimeUsed r2) /\
  map Name (ProductMetrics_ r1) <> map Name (ProductMetrics_ r2) /\
  r1 <> r2.
Proof.
  split; [apply forward_admissible|]. split; [apply backward_admissible|].
  cbv zeta.
  assert (tpDisplayName
            (TopPerformer_ (newOverview (H := insertion_SortSlice) 0 (forward tied) tied))
          <> tpDisplayName
               (TopPerformer_ (newOverview (H := insertion_SortSlice) 0 (backward tied) tied)))
    as Htop by (vm_compute; discriminate).
  split; [exact Htop|].
  split; [vm_compute; discriminate|].
  split; [vm_compute; discriminate|].
  split; [vm_compute; discriminate|].
  intros Heq. apply Htop. now rewrite Heq.
Qed.

(** * Further properties of the engine *)

(** ** The counters of a summary *)

Lemma needsAttention_pending now a : needsAttention now a = true -> isPending a = true.
Proof. unfold needsAttention. intros H. now apply andb_true_iff in H as [H _]. Qed.

Lemma in_qualifying l d : In d (qualifying l) -> Minute <= d.
Proof.
  unfold qualifying. intros H. apply in_map_iff in H as (a & <- & Ha).
  apply filter_In in Ha as [_ Ha]. now apply qualifies_floor.
Qed.

Lemma least_or_zero_floor ds t :
  (forall d, In d ds -> Minute <= d) -> least_or_zero ds t -> t = 0 \/ Minute <= t.
Proof.
  intros Hds H. destruct ds as [|d ds]; [now left|].
  destruct H as [H _]. right. now apply Hds.
Qed.

Lemma count_pos {A} (p : A -> bool) l a : In a l -> p a = true -> 1 <= count p l.
Proof.
  induction l as [|b l IH]; [intros []|]. intros Ha Hp. cbn [count].
  pose proof (count_nonneg p l).
  destruct Ha as [->|Ha]; [rewrite Hp; lia | specialize (IH Ha Hp); destruct (p b); lia].
Qed.

(** X1. The counters of a conversion summary are consistent: the fastest
    records are among the converted ones, the records that need attention
    are pending, so converted, not-passed and need-attention records
    together never exceed the total; no counter is negative, the best time
    is 0 or at least one minute, and without a conversion there is neither
    a best time nor a fastest record. *)
Theorem newConversion_counters_consistent (now : Time) (appIns : list AppIn) :
  let c := newConversion now appIns in
  0 <= Fastest c <= Converted c /\
  0 <= NotPassed c /\
  0 <= NeedAttention c /\
  Converted c + NotPassed c + NeedAttention c <= Total c /\
  (BestTime c = 0 \/ Minute <= BestTime c) /\
  (Converted c = 0 -> BestTime c = 0 /\ Fastest c = 0).
Proof.
  destruct (newConversion_counts now appIns) as (Ht & Hc & Hn & Ha & Hf).
  pose proof (newConversion_bestTime now appIns) as Hb.
  cbv zeta in *. rewrite Ht, Hc, Hn, Ha, Hf.
  pose proof (count_nonneg isFastest appIns) as P1.
  pose proof (count_nonneg isNotPassed appIns) as P2.
  pose proof (count_nonneg (needsAttention now) appIns) as P3.
  pose proof (count_impl (needsAttention now) isPending appIns
                (needsAttention_pending now)) as P4.
  pose proof (count_dispositions appIns) as P5.
  pose proof (count_le_length classified appIns) as P6.
  assert (count isFastest appIns <= count isConverted appIns) as P7.
  { apply count_impl. intros a Ha'. unfold isFastest in Ha'.
    now apply andb_true_iff in Ha' as [Ha' _]. }
  split; [lia|]. split; [lia|]. split; [lia|]. split; [lia|]. split.
  - eapply least_or_zero_floor; [apply in_qualifying | exact Hb].
  - intros Hz. split; [|lia].
    unfold least_or_zero in Hb.
    destruct (qualifying appIns) as [|d ds] eqn:E; [exact Hb|]. exfalso.
    assert (In d (qualifying appIns)) as Hd by (rewrite E; now left).
    unfold qualifying in Hd. apply in_map_iff in Hd as (a & _ & Hd).
    apply filter_In in Hd as [Hd Hq]. unfold qualifies in Hq.
    apply andb_true_iff in Hq as [Hq _].
    pose proof (count_pos isConverted appIns a Hd Hq). lia.
Qed.

(** X2. The best time of a summary is the least elapsed time among the
    converted records that took at least one minute, and 0 when there is
    none: shorter conversions never become the best time. *)
Theorem newConversion_best_time_least (now : Time) (appIns : list AppIn) :
  let t := BestTime (newConversion now appIns) in
  (qualifying appIns = [] -> t = 0) /\
  (qualifying appIns <> [] ->
   In t (qualifying appIns) /\ Forall (fun d => t <= d) (qualifying appIns)) /\
  (forall a, In a appIns -> isConverted a = true -> Minute <= elapsed a -> t <= elapsed a).
Proof.
  pose proof (fold_bestTime_zero now appIns counters0 eq_refl) as H.
  cbv zeta. change (bestTime (fold_left (newConversion_iter now) appIns counters0))
    with (BestTime (newConversion now appIns)) in H.
  unfold least_or_zero in H. split; [|split].
  - intros E. now rewrite E in H.
  - intros E. destruct (qualifying appIns); [congruence | exact H].
  - intros a Ha Hc Hm.
    assert (In (elapsed a) (qualifying appIns)) as Hin.
    { unfold qualifying. apply in_map, filter_In. split; [exact Ha|].
      unfold qualifies. rewrite Hc. now apply Z.leb_le. }
    destruct (qualifying appIns) as [|d ds]; [destruct Hin|].
    destruct H as [_ H]. rewrite Forall_forall in H. apply H.
    now apply list_elem_of_In.
Qed.

Lemma wrap64_range z : int64_range (wrap64 z).
Proof.
  unfold int64_range, wrap64, minDuration, maxDuration.
  pose proof (Z.mod_pos_bound (z + 2 ^ 63) (2 ^ 64) ltac:(lia)). lia.
Qed.

Lemma wrap64_id z : int64_range z -> wrap64 z = z.
Proof.
  unfold int64_range, wrap64, minDuration, maxDuration. intros H.
  rewrite Z.mod_small; lia.
Qed.

Lemma wrap64_add a b : wrap64 (wrap64 a + b) = wrap64 (a + b).
Proof.
  unfold wrap64. f_equal.
  replace ((a + 2 ^ 63) mod 2 ^ 64 - 2 ^ 63 + b + 2 ^ 63)
    with ((a + 2 ^ 63) mod 2 ^ 64 + b) by lia.
  replace (a + b + 2 ^ 63) with ((a + 2 ^ 63) + b) by lia.
  rewrite Zplus_mod_idemp_l. reflexivity.
Qed.

Lemma iter_sum now s a :
  sum (newConversion_iter now s a)
  = if isConverted a then wrap64 (sum s + elapsed a) else sum s.
Proof.
  unfold newConversion_iter, isConverted, elapsed, count_needAttention,
    count_notPassed, count_converted.
  destruct (CompletedAt a); cbn [notNil negb];
  destruct (0 <? len (ToLower (Status a)));
  destruct (Contains (ToLower (Status a)) "not pass");
  destruct (is_empty (ToLower (Status a)));
  cbn [andb orb negb sum]; try reflexivity;
  destruct (threshold <? _); reflexivity.
Qed.

Lemma fold_sum now l s :
  wrap64 (sum (fold_left (newConversion_iter now) l s))
  = wrap64 (sum s + total_elapsed l).
Proof.
  revert s. induction l as [|a l IH]; intros s; cbn [fold_left total_elapsed fold_right].
  - now rewrite Z.add_0_r.
  - rewrite IH, iter_sum. fold (total_elapsed l).
    destruct (isConverted a).
    + rewrite wrap64_add. f_equal. lia.
    + f_equal.
Qed.

Lemma fold_sum_range now l s :
  int64_range (sum s) -> int64_range (sum (fold_left (newConversion_iter now) l s)).
Proof.
  revert s. induction l as [|a l IH]; intros s Hs; cbn [fold_left]; [exact Hs|].
  apply IH. rewrite iter_sum. destruct (isConverted a); [apply wrap64_range | exact Hs].
Qed.

(** X3. The average time of a summary is the sum of the elapsed times of
    the converted records, wrapped to 64 bits, divided (towards zero) by
    the number of converted and not-passed records, and 0 when there is
    none; the sum is exact whenever it fits in 64 bits. *)
Theorem newConversion_average_time (now : Time) (appIns : list AppIn) :
  let c := newConversion now appIns in
  let processed := Converted c + NotPassed c in
  AverageTime c
  = (if 0 <? processed then Z.quot (wrap64 (total_elapsed appIns)) processed else 0) /\
  (int64_range (total_elapsed appIns) ->
   wrap64 (total_elapsed appIns) = total_elapsed appIns).
Proof.
  cbv zeta. split; [|apply wrap64_id].
  pose proof (counters_bounds now appIns) as (_ & _ & Hp).
  pose proof (fold_sum now appIns counters0) as Hs.
  pose proof (fold_sum_range now appIns counters0) as Hr.
  unfold newConversion. cbn [AverageTime Converted NotPassed]. cbv zeta in Hp.
  set (s := fold_left _ _ _) in *.
  rewrite wrap64_id in Hs by (apply Hr; unfold int64_range, minDuration, maxDuration; cbn; lia).
  cbn [counters0 sum] in Hs. rewrite Z.add_0_l in Hs. rewrite <- Hs.
  destruct (Z.ltb_spec 0 (converted s + notPassed s)) as [Hpos|Hz].
  - assert ((0 <? Z.of_nat (length appIns)) = true) as -> by (apply Z.ltb_lt; lia).
    reflexivity.
  - now rewrite andb_false_r.
Qed.

(** ** The top performer and the best-time performer *)

Lemma at_most_refl c r : at_most c r c r.
Proof. right. split; [reflexivity | apply Qle_refl]. Qed.

Lemma at_most_trans c1 r1 c2 r2 c3 r3 :
  at_most c1 r1 c2 r2 -> at_most c2 r2 c3 r3 -> at_most c1 r1 c3 r3.
Proof.
  unfold at_most. intros [H1|[H1 H1']] [H2|[H2 H2']].
  - left. lia.
  - left. lia.
  - left. lia.
  - right. split; [lia | lra].
Qed.

Lemma getTopPerformer_iter_at_most top k p :
  let top' := getTopPerformer_iter top (k, p) in
  at_most (tpConverted top) (tpConversionRate top)
          (tpConverted top') (tpConversionRate top') /\
  at_most (Converted (pmConversion p)) (Rate (pmConversion p))
          (tpConverted top') (tpConversionRate top') /\
  (top' = top \/
   top' = {| tpDisplayName := k; tpConverted := Converted (pmConversion p);
             tpConversionRate := Rate (pmConversion p) |}).
Proof.
  cbv zeta. rewrite getTopPerformer_iter_beats.
  destruct (beats _ _ _ _) eqn:E.
  - apply beats_true in E. cbn [tpConverted tpConversionRate].
    split; [|split; [apply at_most_refl | now right]].
    unfold at_most. destruct E as [E|[E E']]; [left; lia | right; split; [lia | lra]].
  - apply beats_false in E.
    split; [apply at_most_refl | split; [exact E | now left]].
Qed.

Lemma getTopPerformer_fold it top :
  let r := fold_left getTopPerformer_iter it top in
  at_most (tpConverted top) (tpConversionRate top) (tpConverted r) (tpConversionRate r) /\
  (forall k p, In (k, p) it ->
     at_most (Converted (pmConversion p)) (Rate (pmConversion p))
             (tpConverted r) (tpConversionRate r)) /\
  (r = top \/
   exists k p, In (k, p) it /\
     r = {| tpDisplayName := k; tpConverted := Converted (pmConversion p);
            tpConversionRate := Rate (pmConversion p) |}).
Proof.
  revert top. induction it as [|[k p] it IH]; intros top; cbn [fold_left].
  - cbv zeta. split; [apply at_most_refl|]. split; [intros ? ? [] | now left].
  - destruct (getTopPerformer_iter_at_most top k p) as (A1 & A2 & A3).
    destruct (IH (getTopPerformer_iter top (k, p))) as (B1 & B2 & B3).
    cbv zeta in *. split; [|split].
    + eapply at_most_trans; [exact A1 | exact B1].
    + intros k' p' [[= <- <-]|Hin].
      * eapply at_most_trans; [exact A2 | exact B1].
      * exact (B2 k' p' Hin).
    + destruct B3 as [B3|(k' & p' & Hin & B3)].
      * rewrite B3. destruct A3 as [A3|A3]; [now left | right].
        exists k, p. split; [now left | exact A3].
      * right. exists k', p'. split; [now right | exact B3].
Qed.

(** X4. Whatever the order of the range, no performer beats the top
    performer on converted count, then conversion rate; the top performer
    carries the name and the figures of one of the performers, or is the
    zero value with an empty name, which happens only when no performer has
    a conversion or a positive rate. *)
Theorem getTopPerformer_maximal (it : list (string * performerMetric)) :
  let top := getTopPerformer it in
  (forall k p, In (k, p) it ->
     at_most (Converted (pmConversion p)) (Rate (pmConversion p))
             (tpConverted top) (tpConversionRate top)) /\
  (top = no_top \/
   exists k p, In (k, p) it /\
     top = {| tpDisplayName := k; tpConverted := Converted (pmConversion p);
              tpConversionRate := Rate (pmConversion p) |}) /\
  (top = no_top ->
   forall k p, In (k, p) it ->
     at_most (Converted (pmConversion p)) (Rate (pmConversion p)) 0 0).
Proof.
  destruct (getTopPerformer_fold it no_top) as (_ & H2 & H3).
  cbv zeta in *.
  change (fold_left getTopPerformer_iter it no_top) with (getTopPerformer it) in *.
  split; [exact H2|]. split; [exact H3|].
  intros E k p Hin. specialize (H2 k p Hin). now rewrite E in H2.
Qed.

Lemma findBestTime_NA_iff (it : list (string * performerMetric)) :
  findBestTimeUsedByExecutor it = {| btDisplayName := "N/A"; btBestTime := 0 |}
  <-> it = [].
Proof.
  destruct it as [|e0 it0]; [split; reflexivity|].
  split; [|discriminate]. intros E. exfalso.
  unfold findBestTimeUsedByExecutor in E. cbn [length Nat.eqb] in E.
  destruct (existsb (fun e => 0 <? bestOf e) (e0 :: it0)) eqn:Ex.
  - apply existsb_exists in Ex as (e & He & Hp). apply Z.ltb_lt in Hp.
    destruct (findBestTime_fold_zero (e0 :: it0) ""%string) as [_ F2].
    destruct F2 as (Hpos & _); [now exists e|]. cbv zeta in *.
    destruct (fold_left findBestTime_iter (e0 :: it0) (""%string, 0)) as [n t].
    injection E as -> ->. cbn in Hpos. lia.
  - destruct (findBestTime_fold_zero (e0 :: it0) ""%string) as [F1 _].
    cbv zeta in F1. rewrite F1 in E; [discriminate|].
    intros e He. destruct (Z_lt_le_dec 0 (bestOf e)) as [Hp|]; [|assumption].
    exfalso. apply Z.ltb_lt in Hp.
    assert (existsb (fun e => 0 <? bestOf e) (e0 :: it0) = true) as Hc
      by (apply existsb_exists; now exists e).
    congruence.
Qed.

(** X5. The best-time performer is "N/A" for the empty map only. For a
    map with entries, whatever the order of the range, it is the empty name
    with 0 when no performer has a positive best time; otherwise its time
    is positive, is the best time of the performer it names, and no
    positive best time of any performer is below it. *)
Theorem findBestTimeUsedByExecutor_least (it : list (string * performerMetric)) :
  let r := findBestTimeUsedByExecutor it in
  (r = {| btDisplayName := "N/A"; btBestTime := 0 |} <-> it = []) /\
  ((forall e, In e it -> bestOf e <= 0) -> it <> [] ->
   r = {| btDisplayName := ""; btBestTime := 0 |}) /\
  ((exists e, In e it /\ 0 < bestOf e) ->
   0 < btBestTime r /\
   (exists e, In e it /\ btDisplayName r = fst e /\ btBestTime r = bestOf e) /\
   (forall e, In e it -> 0 < bestOf e -> btBestTime r <= bestOf e)).
Proof.
  cbv zeta. split; [apply findBestTime_NA_iff|]. destruct it as [|e0 it0].
  - split; [congruence|]. intros (e & [] & _).
  - assert (e0 :: it0 <> []) as Hne by discriminate.
    destruct (findBestTimeUsedByExecutor_spec (e0 :: it0) Hne) as [H1 H2].
    cbv zeta in *. split; [intros Hall _; now apply H1 | exact H2].
Qed.

(** ** Groups and the figures of performers *)

Lemma sumZ_perm l1 l2 : l1 ≡ₚ l2 -> sumZ l1 = sumZ l2.
Proof. unfold sumZ. induction 1; cbn; lia. Qed.

Lemma weigh_app {A} (w : A -> Z) l1 l2 : weigh w (l1 ++ l2) = weigh w l1 + weigh w l2.
Proof.
  unfold weigh. induction l1 as [|a l1 IH]; cbn; [reflexivity|].
  unfold sumZ in *. cbn. rewrite IH. lia.
Qed.

Lemma weigh_groups_insert {A} (w : A -> Z) (m : gmap string (list A)) k g :
  m !! k = None -> weigh_groups w (<[k := g]> m) = weigh w g + weigh_groups w m.
Proof.
  intros Hk. unfold weigh_groups.
  rewrite (sumZ_perm _ _ (Permutation_map _ (map_to_list_insert m k g Hk))).
  reflexivity.
Qed.

Lemma weigh_groups_delete {A} (w : A -> Z) (m : gmap string (list A)) k g :
  m !! k = Some g -> weigh_groups w m = weigh w g + weigh_groups w (delete k m).
Proof.
  intros Hk. unfold weigh_groups.
  rewrite <- (sumZ_perm _ _ (Permutation_map _ (map_to_list_delete m k g Hk))).
  reflexivity.
Qed.

Lemma weigh_groups_append_to {A} (w : A -> Z) (m : gmap string (list A)) k a :
  weigh_groups w (append_to m k a) = weigh_groups w m + w a.
Proof.
  unfold append_to. destruct (m !! k) as [g|] eqn:Hk; cbn [default from_option id].
  - rewrite <- insert_delete_eq.
    rewrite weigh_groups_insert by apply lookup_delete_eq.
    rewrite (weigh_groups_delete w m k g Hk), weigh_app.
    unfold weigh at 2. cbn. lia.
  - rewrite weigh_groups_insert by exact Hk. unfold weigh at 1. cbn. lia.
Qed.

Lemma weigh_cons {A} (w : A -> Z) a l : weigh w (a :: l) = w a + weigh w l.
Proof. reflexivity. Qed.

Lemma weigh_groups_fold {A} (key : A -> option string) (w : A -> Z) l m :
  weigh_groups w
    (fold_left
       (fun groups a =>
          match key a with Some k => append_to groups k a | None => groups end)
       l m)
  = weigh_groups w m + weigh (keyed key w) l.
Proof.
  revert m. induction l as [|a l IH]; intros m; cbn [fold_left].
  - unfold weigh. cbn. lia.
  - rewrite IH, weigh_cons. unfold keyed at 2.
    destruct (key a); [rewrite weigh_groups_append_to|]; lia.
Qed.

Lemma weigh_group_by {A} (key : A -> option string) (w : A -> Z) l :
  weigh_groups w (group_by key l) = weigh (keyed key w) l.
Proof.
  unfold group_by. rewrite weigh_groups_fold. unfold weigh_groups.
  rewrite map_to_list_empty. cbn. lia.
Qed.

Lemma weigh_count {A} (p : A -> bool) l : weigh (fun a => b2z (p a)) l = count p l.
Proof.
  induction l as [|a l IH]; [reflexivity|].
  rewrite weigh_cons, IH. reflexivity.
Qed.

Lemma weigh_ext {A} (w1 w2 : A -> Z) l :
  (forall a, w1 a = w2 a) -> weigh w1 l = weigh w2 l.
Proof. intros H. unfold weigh. f_equal. apply map_ext, H. Qed.

Lemma executorKey_assigned a : notNil (executorKey a) = assigned a.
Proof. unfold executorKey, assigned. now destruct (is_empty _). Qed.

Lemma group_of_nonempty {A} (key : A -> option string) (l : list A) k g :
  group_of key l k = Some g ->
  g <> [] /\ g = filter (fun a => key a = Some k) l.
Proof.
  unfold group_of. destruct (filter _ l) eqn:E; [discriminate|].
  intros [= <-]. split; [discriminate | reflexivity].
Qed.

Lemma sumZ_ge_length (l : list Z) : Forall (fun n => 1 <= n) l -> Z.of_nat (length l) <= sumZ l.
Proof. induction 1; cbn [sumZ fold_right length]; [lia|]. unfold sumZ in *. lia. Qed.

Lemma weigh_one {A} (l : list A) : weigh (fun _ => 1) l = Z.of_nat (length l).
Proof.
  induction l as [|a l IH]; [reflexivity|].
  rewrite weigh_cons, IH. cbn [length]. lia.
Qed.

(** X6. The groups by performer partition the assigned records: no group
    is empty or keyed by the empty name, each group holds, in input order,
    exactly the records of its performer, every assigned record is in the
    group of its performer, the sizes of the groups add up to the number of
    assigned records, and there are at most as many groups as assigned
    records. *)
Theorem groupAppInByExecutor_partition (appIns : list AppIn) :
  let groups := groupAppInByExecutor appIns in
  (forall k g, groups !! k = Some g ->
     k <> ""%string /\ g <> [] /\ g = filter (fun a => Executor a = k) appIns) /\
  (forall a, a ∈ appIns -> assigned a = true ->
     exists g, groups !! Executor a = Some g /\ a ∈ g) /\
  weigh_groups (fun _ => 1) groups = count assigned appIns /\
  Z.of_nat (size groups) <= count assigned appIns.
Proof.
  cbv zeta. rewrite groupAppInByExecutor_group_by.
  assert (forall k g, group_by executorKey appIns !! k = Some g ->
            k <> ""%string /\ g <> [] /\ g = filter (fun a => Executor a = k) appIns) as H1.
  { intros k g Hk. rewrite group_by_lookup in Hk.
    apply group_of_nonempty in Hk as [Hne ->].
    assert (k <> ""%string) as Hk.
    { destruct (filter (fun a => executorKey a = Some k) appIns) as [|a g] eqn:E;
        [congruence|].
      assert (a ∈ filter (fun a => executorKey a = Some k) appIns) as Ha
        by (rewrite E; left).
      apply list_elem_of_filter in Ha as [Ha _]. apply executorKey_Some in Ha.
      destruct Ha as [<- Ha]. exact Ha. }
    split; [exact Hk|]. split; [exact Hne|].
    clear Hne. induction appIns as [|a l IH]; [reflexivity|].
    rewrite !filter_cons, IH.
    destruct (decide (executorKey a = Some k)) as [Ha|Ha];
      destruct (decide (Executor a = k)) as [Hb|Hb]; try reflexivity; exfalso.
    - apply executorKey_Some in Ha. tauto.
    - apply Ha, executorKey_Some. split; [exact Hb | congruence]. }
  assert (weigh_groups (fun _ => 1) (group_by executorKey appIns)
          = count assigned appIns) as H3.
  { rewrite weigh_group_by, <- weigh_count. apply weigh_ext.
    intros a. unfold keyed. rewrite <- executorKey_assigned.
    now destruct (executorKey a). }
  split; [exact H1|]. split; [|split; [exact H3|]].
  - intros a Ha Has. rewrite group_by_lookup. unfold group_of.
    assert (a ∈ filter (fun b => executorKey b = Some (Executor a)) appIns) as Hin.
    { apply list_elem_of_filter. split; [|exact Ha].
      apply executorKey_Some. split; [reflexivity|].
      unfold assigned in Has. intros E. rewrite E in Has. discriminate. }
    destruct (filter _ appIns) as [|b g] eqn:E; [inversion Hin|].
    exists (b :: g). split; [reflexivity | exact Hin].
  - rewrite <- H3. unfold weigh_groups. rewrite <- length_map_to_list.
    rewrite <- (length_map (fun e : string * list AppIn => weigh (fun _ => 1) (snd e))).
    apply sumZ_ge_length. apply Forall_forall. intros n Hn.
    apply list_elem_of_In, in_map_iff in Hn as ([k g] & <- & Hin).
    apply list_elem_of_In, elem_of_map_to_list in Hin.
    destruct (H1 k g Hin) as (_ & Hne & _). cbn [snd]. rewrite weigh_one.
    destruct g; [congruence | cbn; lia].
Qed.

Lemma map_to_list_imap_Some {A B} (g : string -> A -> B) (m : gmap string A) :
  map_to_list (map_imap (fun k v => Some (g k v)) m)
  ≡ₚ map (fun e => (fst e, g (fst e) (snd e))) (map_to_list m).
Proof.
  induction m as [|k v m Hk IH] using map_ind.
  - rewrite map_imap_empty, !map_to_list_empty. reflexivity.
  - rewrite (map_imap_insert_Some _ k v m (g k v)) by reflexivity.
    rewrite map_to_list_insert by (rewrite map_lookup_imap, Hk; reflexivity).
    rewrite (map_to_list_insert m k v Hk). cbn [map fst snd]. now rewrite IH.
Qed.

Lemma performances_of_entries now l :
  map_to_list (performances_of now l)
  ≡ₚ map (fun e => (fst e, metric_of now (fst e) (snd e)))
       (map_to_list (groupAppInByExecutor l)).
Proof. apply (map_to_list_imap_Some (metric_of now)). Qed.

Lemma performances_of_lookup now l k p :
  performances_of now l !! k = Some p ->
  exists g, groupAppInByExecutor l !! k = Some g /\ p = metric_of now k g.
Proof.
  unfold performances_of, calculatePerformanceConversionMetricsByExecutor.
  rewrite map_lookup_imap. destruct (groupAppInByExecutor l !! k) as [g|]; [|discriminate].
  cbn. intros [= <-]. now exists g.
Qed.

Lemma sum_over_performances now l (f : performerMetric -> Z) (w : AppIn -> Z) :
  (forall k g, f (metric_of now k g) = weigh w g) ->
  sumZ (map (fun e => f (snd e)) (map_to_list (performances_of now l)))
  = weigh (keyed executorKey w) l.
Proof.
  intros Hf.
  rewrite (sumZ_perm _ _ (Permutation_map _ (performances_of_entries now l))).
  rewrite map_map. cbn [snd].
  rewrite groupAppInByExecutor_group_by, <- weigh_group_by. unfold weigh_groups.
  f_equal. apply map_ext. intros [k g]. apply Hf.
Qed.

Lemma keyed_count (p : AppIn -> bool) l :
  weigh (keyed executorKey (fun a => b2z (p a))) l = count (fun a => assigned a && p a) l.
Proof.
  rewrite <- weigh_count. apply weigh_ext. intros a. unfold keyed.
  rewrite <- executorKey_assigned. now destruct (executorKey a).
Qed.

Lemma count_and_le {A} (p q : A -> bool) l : count (fun a => p a && q a) l <= count q l.
Proof. apply count_impl. intros a H. now apply andb_true_iff in H as [_ H]. Qed.

Lemma count_and_all {A} (p q : A -> bool) l :
  Forall (fun a => p a = true) l -> count (fun a => p a && q a) l = count q l.
Proof.
  induction 1 as [|a l Ha _ IH]; [reflexivity|]. cbn [count]. now rewrite Ha, IH.
Qed.

(** X7. The figures of the performers add up: their totals to the number
    of assigned records, their converted and not-passed counts to the
    numbers of assigned records that are converted, resp. not passed. So
    they never exceed the figures of the overall summary, and agree with
    them when every record has a performer. *)
Theorem performer_figures_add_up (now : Time) (appIns : list AppIn) :
  let entries := map_to_list (performances_of now appIns) in
  let overall := newConversion now appIns in
  let figure f := sumZ (map (fun e => f (pmConversion (snd e))) entries) in
  figure Total = count assigned appIns /\
  figure Converted = count (fun a => assigned a && isConverted a) appIns /\
  figure NotPassed = count (fun a => assigned a && isNotPassed a) appIns /\
  figure Total <= Total overall /\
  figure Converted <= Converted overall /\
  figure NotPassed <= NotPassed overall /\
  (Forall (fun a => assigned a = true) appIns ->
   figure Total = Total overall /\
   figure Converted = Converted overall /\
   figure NotPassed = NotPassed overall).
Proof.
  cbv zeta.
  destruct (newConversion_counts now appIns) as (Ht & Hc & Hn & _). cbv zeta in *.
  assert (sumZ (map (fun e => Total (pmConversion (snd e)))
                  (map_to_list (performances_of now appIns)))
          = count assigned appIns) as E1.
  { rewrite (sum_over_performances now appIns (fun p => Total (pmConversion p))
               (fun _ => 1)).
    - rewrite <- (weigh_count assigned). apply weigh_ext. intros a. unfold keyed.
      rewrite <- executorKey_assigned. now destruct (executorKey a).
    - intros k g. cbn. now rewrite weigh_one. }
  assert (sumZ (map (fun e => Converted (pmConversion (snd e)))
                  (map_to_list (performances_of now appIns)))
          = count (fun a => assigned a && isConverted a) appIns) as E2.
  { rewrite (sum_over_performances now appIns (fun p => Converted (pmConversion p))
               (fun a => b2z (isConverted a))).
    - apply keyed_count.
    - intros k g. cbn [metric_of pmConversion].
      destruct (newConversion_counts now g) as (_ & -> & _). now rewrite weigh_count. }
  assert (sumZ (map (fun e => NotPassed (pmConversion (snd e)))
                  (map_to_list (performances_of now appIns)))
          = count (fun a => assigned a && isNotPassed a) appIns) as E3.
  { rewrite (sum_over_performances now appIns (fun p => NotPassed (pmConversion p))
               (fun a => b2z (isNotPassed a))).
    - apply keyed_count.
    - intros k g. cbn [metric_of pmConversion].
      destruct (newConversion_counts now g) as (_ & _ & -> & _). now rewrite weigh_count. }
  rewrite E1, E2, E3, Ht, Hc, Hn.
  split; [reflexivity|]. split; [reflexivity|]. split; [reflexivity|].
  split; [apply count_le_length|]. split; [apply count_and_le|].
  split; [apply count_and_le|].
  intros Hall. rewrite !(count_and_all assigned) by exact Hall.
  split; [|split; reflexivity]. now apply count_all.
Qed.

Lemma createLeaderboards_take `{SortSlice} it :
  exists ps, ps ≡ₚ map snd it /\ sorted_by performer_less ps /\
             createLeaderboards it = imap leaderboard_entry (take 5 ps).
Proof.
  exists (sort_slice performer_less (map snd it)). split; [apply sort_slice_perm|].
  split; [apply sort_slice_sorted, performer_less_StrictWeak|].
  unfold createLeaderboards. apply leaderboard_loop_take.
Qed.

Lemma ranges_values {V} (m : gmap string V) it v :
  ranges m it -> v ∈ map snd it -> exists k, m !! k = Some v.
Proof.
  intros Hr Hv. apply list_elem_of_In, in_map_iff in Hv as ([k v'] & <- & Hin).
  exists k. apply list_elem_of_In in Hin. eapply ranges_lookup; eassumption.
Qed.

(** X8. Every entry of the leaderboard reports the records of its own
    performer: under its name there is a group, and the entry carries the
    size of the group, the figures of the summary of the group and its
    histogram; converted never exceeds total, and no name occurs twice. *)
Theorem leaderboard_reports_groups `{SortSlice} (now : Time) (appIns : list AppIn)
    (it : list (string * performerMetric)) :
  ranges (performances_of now appIns) it ->
  let lb := createLeaderboards it in
  NoDup (map lbDisplayName lb) /\
  (forall e, e ∈ lb ->
     exists g, groupAppInByExecutor appIns !! lbDisplayName e = Some g /\
               lbTotal e = Z.of_nat (length g) /\
               lbConverted e = count isConverted g /\
               lbConverted e <= lbTotal e /\
               lbConversionRate e = Rate (newConversion now g) /\
               lbAverageTime e = AverageTime (newConversion now g) /\
               lbBestTime e = BestTime (newConversion now g) /\
               lbPerformances e = createTimeIntervalsByConverted g).
Proof.
  intros Hr. cbv zeta. destruct (createLeaderboards_take it) as (ps & Hp & _ & ->).
  assert (forall p, p ∈ ps -> exists g,
            groupAppInByExecutor appIns !! pmDisplayName p = Some g /\
            p = metric_of now (pmDisplayName p) g) as Hps.
  { intros p Hin. rewrite Hp in Hin.
    destruct (ranges_values _ _ _ Hr Hin) as (k & Hk).
    apply performances_of_lookup in Hk as (g & Hg & ->). now exists g. }
  split.
  - assert (map lbDisplayName (imap leaderboard_entry (take 5 ps))
            = map pmDisplayName (take 5 ps)) as ->.
    { apply list_eq. intros i. rewrite !list_lookup_fmap, list_lookup_imap.
      now destruct (take 5 ps !! i). }
    assert (NoDup (map pmDisplayName ps)) as Hnd.
    { assert (map pmDisplayName ps ≡ₚ map fst (map_to_list (performances_of now appIns)))
        as ->; [|apply NoDup_fst_map_to_list].
      rewrite Hp. unfold ranges in Hr. rewrite Hr, map_map.
      apply Permutation_refl'. apply map_ext_in. intros [k p] Hin. cbn.
      apply list_elem_of_In, elem_of_map_to_list, performances_of_lookup in Hin
        as (g & _ & ->). reflexivity. }
    rewrite <- (take_drop 5 ps), map_app in Hnd. now apply NoDup_app in Hnd as [Hnd _].
  - intros e He. apply elem_of_lookup_imap in He as (i & p & -> & Hi).
    assert (p ∈ ps) as Hin.
    { apply list_elem_of_lookup_2 in Hi. rewrite <- (take_drop 5 ps).
      apply elem_of_app. now left. }
    destruct (Hps p Hin) as (g & Hg & Ep). exists g. cbn [leaderboard_entry lbDisplayName
      lbTotal lbConverted lbConversionRate lbAverageTime lbBestTime lbPerformances].
    split; [exact Hg|]. rewrite Ep. cbn [metric_of pmConversion pmPerformances].
    destruct (newConversion_counts now g) as (Ht & Hc & _). cbv zeta in *.
    rewrite Ht, Hc. pose proof (count_le_length isConverted g). auto 10.
Qed.

Lemma leaderboard_reports_groups_witness :
  let it := map_to_list (performances_of 0 scenario) in
  ranges (performances_of 0 scenario) it /\
  NoDup (map lbDisplayName (createLeaderboards (H := insertion_SortSlice) it)).
Proof.
  cbv zeta. split; [unfold ranges; reflexivity|].
  apply (leaderboard_reports_groups (H := insertion_SortSlice) 0 scenario
           (map_to_list (performances_of 0 scenario))).
  unfold ranges. reflexivity.
Defined.

Lemma newConversion_rate_nonneg now l : (0 <= Rate (newConversion now l))%Q.
Proof.
  pose proof (counters_bounds now l) as (Hf & Hn & Hp). cbv zeta in *.
  unfold newConversion. cbn [Rate]. set (s := fold_left _ _ _) in *.
  destruct (0 <? Z.of_nat (length l)) eqn:E; [|apply Qle_refl].
  apply Z.ltb_lt in E. apply F32Facts.percent_range; lia.
Qed.

Lemma at_most_antisym c1 r1 c2 r2 :
  at_most c1 r1 c2 r2 -> at_most c2 r2 c1 r1 -> c1 = c2 /\ (r1 == r2)%Q.
Proof.
  unfold at_most. intros [H1|[H1 H1']] [H2|[H2 H2']]; try lia.
  split; [exact H1 | lra].
Qed.

(** X9. The top performer and the first rank of the leaderboard agree on
    the figures, whatever the orders of the two ranges: the converted count
    of the top performer is that of rank 1 and so is the conversion rate
    (under ties the names may differ). *)
Theorem top_performer_matches_first_rank `{SortSlice} (now : Time) (appIns : list AppIn)
    (it1 it2 : list (string * performerMetric)) (e : Leaderboard) :
  ranges (performances_of now appIns) it1 ->
  ranges (performances_of now appIns) it2 ->
  createLeaderboards it2 !! 0%nat = Some e ->
  tpConverted (getTopPerformer it1) = lbConverted e /\
  (tpConversionRate (getTopPerformer it1) == lbConversionRate e)%Q.
Proof.
  intros H1 H2 He.
  destruct (createLeaderboards_take it2) as (ps & Hp & Hs & E). rewrite E in He.
  rewrite list_lookup_imap in He.
  destruct ps as [|p1 rest]; [discriminate|]. cbn in He. injection He as <-.
  cbn [leaderboard_entry lbConverted lbConversionRate].
  (* every performer is at most the first of the sorted ones *)
  assert (forall p, p ∈ p1 :: rest ->
            at_most (Converted (pmConversion p)) (Rate (pmConversion p))
                    (Converted (pmConversion p1)) (Rate (pmConversion p1))) as Hmax.
  { intros p Hin. apply elem_of_cons in Hin as [->|Hin]; [apply at_most_refl|].
    unfold sorted_by in Hs. apply StronglySorted_cons in Hs as [Hs _].
    rewrite Forall_forall in Hs. specialize (Hs p Hin).
    unfold performer_less in Hs. apply less_keys_false in Hs. unfold at_most.
    destruct Hs as [Hs|[[Hs Hs']|(Hs & Hs' & _)]];
      [now left | right; split; [exact Hs | lra] | right; split; [exact Hs | lra]]. }
  assert (forall k p, In (k, p) it1 -> p ∈ p1 :: rest) as Hin1.
  { intros k p Hin. rewrite Hp.
    assert ((k, p) ∈ it2) as Hin2.
    { rewrite <- (ranges_perm _ it1 it2 H1 H2). now apply list_elem_of_In. }
    apply list_elem_of_In, in_map_iff. exists (k, p).
    split; [reflexivity | now apply list_elem_of_In]. }
  assert (exists k1, In (k1, p1) it1) as (k1 & Hk1).
  { assert (p1 ∈ map snd it2) as Hin by (rewrite <- Hp; left).
    apply list_elem_of_In, in_map_iff in Hin as ([k p] & Ep & Hin). cbn in Ep. subst p.
    exists k. apply list_elem_of_In.
    rewrite (ranges_perm _ it1 it2 H1 H2). now apply list_elem_of_In. }
  destruct (getTopPerformer_fold it1 no_top) as (_ & B & C). cbv zeta in *.
  change (fold_left getTopPerformer_iter it1 no_top) with (getTopPerformer it1) in *.
  pose proof (B k1 p1 Hk1) as Hle.
  apply at_most_antisym; [|exact Hle].
  destruct C as [C|(k & p & Hin & C)]; rewrite C; cbn [tpConverted tpConversionRate no_top].
  - rewrite C in Hle. cbn [tpConverted tpConversionRate no_top] in Hle.
    apply list_elem_of_In, (ranges_lookup _ it1 H1), performances_of_lookup in Hk1
      as (g & _ & Ep).
    pose proof (newConversion_rate_nonneg now g) as Hr.
    assert (0 <= Converted (newConversion now g)) as Hc0.
    { destruct (newConversion_counts now g) as (_ & -> & _). apply count_nonneg. }
    rewrite Ep in *. cbn [metric_of pmConversion] in *.
    unfold at_most in *. destruct Hle as [Hle|[Hle Hle']]; [lia|].
    right. split; [lia | exact Hr].
  - apply Hmax, (Hin1 k p Hin).
Qed.

Lemma top_performer_matches_first_rank_witness :
  let it := map_to_list (performances_of 0 scenario) in
  ranges (performances_of 0 scenario) it /\
  tpConverted (getTopPerformer it) = 2.
Proof.
  cbv zeta. split; [unfold ranges; reflexivity|].
  refine (proj1 (top_performer_matches_first_rank (H := insertion_SortSlice) 0 scenario
           (map_to_list (performances_of 0 scenario))
           (map_to_list (performances_of 0 scenario))
           (leaderboard_entry 0 (metric_of 0 "A" (List.firstn 3 scenario))) _ _ _)).
  - unfold ranges. reflexivity.
  - unfold ranges. reflexivity.
  - vm_compute. reflexivity.
Defined.

Lemma productKey_typed a : notNil (productKey a) = typed a.
Proof.
  unfold productKey, typed.
  repeat match goal with
         | |- context [if ?c then _ else _] => destruct c
         end; reflexivity.
Qed.

(** X10. The product metrics hold one entry per product group, sorted by
    the comparator, with no name twice; each entry carries the size of its
    group and the converted and not-passed counts of the group, and the
    totals of the entries add up to the number of records that have a
    type. *)
Theorem product_metrics_report_groups `{SortSlice} (now : Time) (appIns : list AppIn)
    (it : list (string * list AppIn)) :
  ranges (groupAppInByProduct appIns) it ->
  let products := calculatePerformanceConversionMetricsByProduct now it in
  sorted_by product_less products /\
  length products = size (groupAppInByProduct appIns) /\
  NoDup (map Name products) /\
  (forall x, x ∈ products ->
     exists g, groupAppInByProduct appIns !! Name x = Some g /\
               g <> [] /\
               prTotal x = Z.of_nat (length g) /\
               prConverted x = count isConverted g /\
               prNotPassed x = count isNotPassed g /\
               prConverted x + prNotPassed x <= prTotal x) /\
  sumZ (map prTotal products) = count typed appIns.
Proof.
  intros Hr. cbv zeta. unfold calculatePerformanceConversionMetricsByProduct.
  set (products := sort_slice product_less (map (product_entry now) it)).
  assert (products ≡ₚ map (product_entry now) it) as Hp by apply sort_slice_perm.
  pose proof Hr as Hr'. unfold ranges in Hr'.
  split; [apply sort_slice_sorted, product_less_StrictWeak|].
  split; [now rewrite Hp, length_map, Hr', length_map_to_list|].
  split; [|split].
  - rewrite Hp, map_map.
    assert (map (fun e => Name (product_entry now e)) it = map fst it) as ->
      by (apply map_ext; now intros [k g]).
    rewrite Hr'. apply NoDup_fst_map_to_list.
  - intros x Hx. rewrite Hp in Hx.
    apply list_elem_of_In, in_map_iff in Hx as ([k g] & <- & Hin).
    apply list_elem_of_In, (ranges_lookup _ it Hr) in Hin.
    exists g. cbn [product_entry Name prTotal prConverted prNotPassed].
    split; [exact Hin|].
    rewrite groupAppInByProduct_group_by, group_by_lookup in Hin.
    apply group_of_nonempty in Hin as [Hne _]. split; [exact Hne|].
    destruct (newConversion_counts now g) as (_ & Hc & Hn & _). cbv zeta in *.
    rewrite Hc, Hn. split; [reflexivity|]. split; [reflexivity|]. split; [reflexivity|].
    pose proof (count_dispositions g). pose proof (count_nonneg isPending g).
    pose proof (count_le_length classified g). lia.
  - rewrite (sumZ_perm _ _ (Permutation_map prTotal Hp)), map_map.
    rewrite (sumZ_perm _ _ (Permutation_map _ Hr')).
    assert (map (fun e => prTotal (product_entry now e))
                (map_to_list (groupAppInByProduct appIns))
            = map (fun e => weigh (fun _ => 1) (snd e))
                (map_to_list (groupAppInByProduct appIns))) as ->.
    { apply map_ext. intros [k g]. cbn [product_entry prTotal snd]. now rewrite weigh_one. }
    fold (weigh_groups (fun _ : AppIn => 1) (groupAppInByProduct appIns)).
    rewrite groupAppInByProduct_group_by, weigh_group_by, <- weigh_count.
    apply weigh_ext. intros a. unfold keyed. rewrite <- productKey_typed.
    now destruct (productKey a).
Qed.

Lemma product_metrics_report_groups_witness :
  let it := map_to_list (groupAppInByProduct scenario) in
  ranges (groupAppInByProduct scenario) it /\
  sumZ (map prTotal
          (calculatePerformanceConversionMetricsByProduct (H := insertion_SortSlice) 0 it))
  = count typed scenario.
Proof.
  cbv zeta. split; [unfold ranges; reflexivity|].
  apply (product_metrics_report_groups (H := insertion_SortSlice) 0 scenario
           (map_to_list (groupAppInByProduct scenario))).
  unfold ranges. reflexivity.
Defined.

(** ** The summary against the histograms *)

Lemma createTimeIntervalsByConverted_tally l :
  createTimeIntervalsByConverted l
  = to_intervals (fold_left (tally convertedDuration) l zero_intervals).
Proof.
  unfold createTimeIntervalsByConverted. f_equal.
  apply fold_left_ext, byConverted_iter_tally.
Qed.

Lemma createTimeIntervalsByPending_tally now l :
  createTimeIntervalsByPending now l
  = to_intervals (fold_left (tally (pendingAge now)) l zero_intervals).
Proof.
  unfold createTimeIntervalsByPending. f_equal.
  apply fold_left_ext, byPending_iter_tally.
Qed.

Lemma bucket_total_to_intervals m t :
  In t titles -> bucket_total (to_intervals m) t = read m t.
Proof.
  unfold titles. cbn [In]. intros H.
  unfold bucket_total, to_intervals, titles, sumZ.
  repeat (destruct H as [<-|H]; [cbn -[read]; lia|]).
  destruct H.
Qed.

Lemma bucket_total_tally {A} (sel : A -> option Duration) l t :
  In t titles ->
  bucket_total (to_intervals (fold_left (tally sel) l zero_intervals)) t
  = count (counted_in sel t) l.
Proof.
  intros Ht. rewrite bucket_total_to_intervals by exact Ht.
  rewrite read_tally, read_zero_intervals. lia.
Qed.

Lemma count_split {A} (p q r : A -> bool) l :
  (forall a, b2z (p a) = b2z (q a) + b2z (r a)) -> count p l = count q l + count r l.
Proof.
  intros H. induction l as [|a l IH]; [reflexivity|].
  rewrite !count_b2z, IH, H. lia.
Qed.

Lemma count_ext {A} (p q : A -> bool) l : (forall a, p a = q a) -> count p l = count q l.
Proof.
  intros H. induction l as [|a l IH]; [reflexivity|]. cbn [count]. now rewrite H, IH.
Qed.

(** X11. The summary and the histogram of completed durations count the
    same converted records, and the fastest count is the count of bucket
    "<30min" plus the number of conversions that took exactly 30 minutes:
    the fastest count exceeds the bucket by exactly these. *)
Theorem fastest_against_first_bucket (now : Time) (appIns : list AppIn) :
  let c := newConversion now appIns in
  let h := createTimeIntervalsByConverted appIns in
  sum_totals h = Converted c /\
  Fastest c = bucket_total h "<30min" + count on_speed_threshold appIns /\
  bucket_total h "<30min" <= Fastest c <= bucket_total h "<30min" + bucket_total h "<1h".
Proof.
  cbv zeta. destruct (newConversion_counts now appIns) as (_ & Hc & _ & _ & Hf).
  cbv zeta in *. rewrite Hc, Hf, createTimeIntervalsByConverted_tally.
  rewrite !bucket_total_tally by (cbn; tauto).
  destruct (tally_histogram convertedDuration appIns) as (_ & _ & _ & ->).
  assert (count isFastest appIns
          = count (counted_in convertedDuration "<30min") appIns
            + count on_speed_threshold appIns) as E.
  { apply count_split. intros a.
    unfold isFastest, counted_in, convertedDuration, on_speed_threshold.
    destruct (isConverted a); [|reflexivity]. cbn [andb].
    destruct (bucket_spec (elapsed a)) as (B & _).
    destruct (Z.leb_spec (elapsed a) (Minute * 30)); destruct (Z.eqb_spec (elapsed a) (30 * Minute));
      destruct (String.eqb_spec (bucket (elapsed a)) "<30min") as [Eb|Eb];
      try reflexivity; exfalso; try (apply B in Eb; lia); try (apply Eb, B; lia). }
  split; [|split; [exact E|]].
  - apply count_ext. intros a. unfold convertedDuration. now destruct (isConverted a).
  - pose proof (count_nonneg on_speed_threshold appIns). split; [lia|]. rewrite E.
    apply Z.add_le_mono_l. apply count_impl. intros a.
    unfold on_speed_threshold, counted_in, convertedDuration.
    destruct (isConverted a); [|discriminate]. cbn [andb]. intros Ht.
    apply Z.eqb_eq in Ht. apply String.eqb_eq.
    destruct (bucket_spec (elapsed a)) as (_ & B & _). apply B.
    unfold Hour, Minute, Second in *. lia.
Qed.

Lemma Sub_mono t t' u : t <= t' -> Sub t u <= Sub t' u.
Proof. unfold Sub. lia. Qed.

Lemma needsAttention_later t later a :
  t <= later -> needsAttention t a = true -> needsAttention later a = true.
Proof.
  unfold needsAttention. intros Ht H. apply andb_true_iff in H as [Hp H].
  rewrite Hp. cbn [andb]. apply Z.ltb_lt in H. apply Z.ltb_lt.
  pose proof (Sub_mono t later (CreatedAt a) Ht). lia.
Qed.

Lemma needsAttention_idle t a : isPending a = false -> needsAttention t a = false.
Proof. unfold needsAttention. now intros ->. Qed.

(** The iteration of a record that is not pending does not depend on the
    instant. *)
Lemma newConversion_iter_idle t t' s a :
  isPending a = false -> newConversion_iter t s a = newConversion_iter t' s a.
Proof.
  unfold newConversion_iter, isPending.
  destruct (CompletedAt a); cbn [notNil negb]; [reflexivity|].
  rewrite andb_true_r. now intros ->.
Qed.

Lemma read_loop_counts clock l : forall n s,
  converted (read_loop clock n s l) = converted s + count isConverted l /\
  notPassed (read_loop clock n s l) = notPassed s + count isNotPassed l.
Proof.
  induction l as [|a l IH]; intros n s; cbn [read_loop]; [cbn; lia|].
  destruct (IH (if isPending a then S n else n) (newConversion_iter (clock n) s a))
    as [-> ->].
  rewrite iter_converted, iter_notPassed, !count_b2z. lia.
Qed.

Lemma read_loop_attention clock later l : forall n s,
  (forall i, (n <= i)%nat -> Z.of_nat (i - n) < count isPending l -> clock i <= later) ->
  needAttention s <= needAttention (read_loop clock n s l)
  <= needAttention s + count (needsAttention later) l.
Proof.
  induction l as [|a l IH]; intros n s Hc; cbn [read_loop]; [cbn; lia|].
  pose proof (count_nonneg isPending l) as Hp.
  rewrite count_b2z in Hc |- *.
  pose proof (iter_needAttention (clock n) s a) as Hi.
  destruct (isPending a) eqn:Ea.
  - assert (clock n <= later) as Hn.
    { apply Hc; [lia|]. rewrite Nat.sub_diag. cbn [b2z]. lia. }
    specialize (IH (S n) (newConversion_iter (clock n) s a)).
    destruct IH as [I1 I2].
    { intros i Hi1 Hi2. apply Hc; [lia|]. cbn [b2z]. lia. }
    pose proof (needsAttention_later (clock n) later a Hn) as Hl.
    destruct (needsAttention (clock n) a); [rewrite Hl by reflexivity|];
      destruct (needsAttention later a); cbn [b2z] in *; lia.
  - specialize (IH n (newConversion_iter (clock n) s a)).
    destruct IH as [I1 I2].
    { intros i Hi1 Hi2. apply Hc; [lia|]. cbn [b2z]. lia. }
    rewrite (needsAttention_idle (clock n) a Ea) in Hi.
    rewrite (needsAttention_idle later a Ea). cbn [b2z] in *. lia.
Qed.

Lemma read_loop_one_instant clock later l : forall n s,
  (forall i, (n <= i)%nat -> Z.of_nat (i - n) < count isPending l -> clock i = later) ->
  read_loop clock n s l = fold_left (newConversion_iter later) l s.
Proof.
  induction l as [|a l IH]; intros n s Hc; cbn [read_loop fold_left]; [reflexivity|].
  pose proof (count_nonneg isPending l) as Hp.
  rewrite count_b2z in Hc.
  destruct (isPending a) eqn:Ea.
  - rewrite (Hc n) by (rewrite ?Nat.sub_diag; cbn [b2z]; lia).
    apply IH. intros i Hi1 Hi2. apply Hc; [lia|]. cbn [b2z]. lia.
  - rewrite (newConversion_iter_idle (clock n) later s a Ea).
    apply IH. intros i Hi1 Hi2. apply Hc; [lia|]. cbn [b2z]. lia.
Qed.

(** X12. The code reads the clock at every pending record of the loop of
    [newConversion], and once more, later, for the histogram of pending
    ages. When no reading of the loop is later than the reading of the
    histogram, the need-attention count plus the pending records that are
    exactly 5 hours old at the reading of the histogram is at most the
    count of bucket "5h+": a record that needs attention is in that bucket,
    and the bucket may hold more. The two sides are equal when all the
    readings are the same instant, and the summary is then the one computed
    at that instant. *)
Theorem need_attention_against_last_bucket (clock : nat -> Time) (later : Time)
    (appIns : list AppIn) :
  (forall i, Z.of_nat i < count isPending appIns -> clock i <= later) ->
  let c := newConversion_read clock appIns in
  let h := createTimeIntervalsByPending later appIns in
  NeedAttention c + count (on_stale_threshold later) appIns <= bucket_total h "5h+" /\
  0 <= NeedAttention c /\
  bucket_total h "5h+" <= sum_totals h /\
  sum_totals h + Converted c + NotPassed c <= Total c /\
  ((forall i, Z.of_nat i < count isPending appIns -> clock i = later) ->
   c = newConversion later appIns /\
   bucket_total h "5h+" = NeedAttention c + count (on_stale_threshold later) appIns).
Proof.
  intros Hclock. cbv zeta.
  assert ((forall i, Z.of_nat i < count isPending appIns -> clock i = later) ->
          newConversion_read clock appIns = newConversion later appIns) as Hone.
  { intros Hsame. unfold newConversion_read.
    rewrite (read_loop_one_instant clock later); [reflexivity|].
    intros i _ Hi. apply Hsame. now rewrite Nat.sub_0_r in Hi. }
  assert (Converted (newConversion_read clock appIns) = count isConverted appIns /\
          NotPassed (newConversion_read clock appIns) = count isNotPassed appIns /\
          Total (newConversion_read clock appIns) = Z.of_nat (length appIns) /\
          0 <= NeedAttention (newConversion_read clock appIns)
          <= count (needsAttention later) appIns) as (Hc & Hn & Ht & Ha).
  { destruct (read_loop_counts clock appIns 0%nat counters0) as [Hc Hn].
    destruct (read_loop_attention clock later appIns 0%nat counters0) as [Ha0 Ha].
    { intros i _ Hi. apply Hclock. now rewrite Nat.sub_0_r in Hi. }
    unfold newConversion_read, conversion_of.
    cbn [NeedAttention Converted NotPassed Total].
    cbn [counters0 converted notPassed needAttention] in *. lia. }
  rewrite Hc, Hn, Ht.
  rewrite createTimeIntervalsByPending_tally.
  rewrite !bucket_total_tally by (cbn; tauto).
  destruct (tally_histogram (pendingAge later) appIns) as (_ & _ & _ & ->).
  assert (count (fun a => notNil (pendingAge later a)) appIns = count isPending appIns) as Ep.
  { apply count_ext. intros a. unfold pendingAge. now destruct (isPending a). }
  assert (count (counted_in (pendingAge later) "5h+") appIns
          = count (needsAttention later) appIns + count (on_stale_threshold later) appIns)
    as E.
  { apply count_split. intros a.
    unfold needsAttention, counted_in, pendingAge, on_stale_threshold.
    destruct (isPending a); [|reflexivity]. cbn [andb].
    destruct (bucket_spec (Sub later (CreatedAt a))) as (_ & _ & _ & _ & _ & _ & B).
    unfold threshold.
    destruct (Z.ltb_spec (5 * Hour) (Sub later (CreatedAt a)));
      destruct (Z.eqb_spec (Sub later (CreatedAt a)) (5 * Hour));
      destruct (String.eqb_spec (bucket (Sub later (CreatedAt a))) "5h+") as [Eb|Eb];
      try reflexivity; exfalso; try (apply B in Eb; lia); try (apply Eb, B; lia). }
  pose proof (count_dispositions appIns) as Hd.
  pose proof (count_le_length classified appIns) as Hl.
  assert (count (counted_in (pendingAge later) "5h+") appIns <= count isPending appIns)
    as Hb.
  { apply count_impl. intros a. unfold counted_in, pendingAge.
    destruct (isPending a); [reflexivity | discriminate]. }
  rewrite Ep.
  split; [lia|]. split; [lia|]. split; [exact Hb|]. split; [lia|].
  intros Hsame. split; [exact (Hone Hsame)|]. rewrite (Hone Hsame), E.
  destruct (newConversion_counts later appIns) as (_ & _ & _ & -> & _). reflexivity.
Qed.

Lemma need_attention_against_last_bucket_witness :
  (forall i, Z.of_nat i < count isPending stale_case ->
     (fun _ : nat => 5 * Hour - 1) i <= 5 * Hour + 1) /\
  NeedAttention (newConversion_read (fun _ => 5 * Hour - 1) stale_case)
  + count (on_stale_threshold (5 * Hour + 1)) stale_case
  <= bucket_total (createTimeIntervalsByPending (5 * Hour + 1) stale_case) "5h+" /\
  NeedAttention (newConversion_read (fun _ => 5 * Hour - 1) stale_case) = 0 /\
  bucket_total (createTimeIntervalsByPending (5 * Hour + 1) stale_case) "5h+" = 1.
Proof.
  assert (forall i, Z.of_nat i < count isPending stale_case ->
            (fun _ : nat => 5 * Hour - 1) i <= 5 * Hour + 1) as Hc
    by (intros i _; cbv beta; lia).
  split; [exact Hc|]. split.
  - exact (proj1 (need_attention_against_last_bucket
                    (fun _ => 5 * Hour - 1) (5 * Hour + 1) stale_case Hc)).
  - split; reflexivity.
Defined.

(** ** The review stream *)

Lemma caIsConverted_completed c : caIsConverted c = caIsCompleted c.
Proof.
  unfold caIsConverted, caIsCompleted.
  destruct (String.eqb_spec (ToLower (caStatus c)) "completed") as [E|E].
  - rewrite E. reflexivity.
  - now rewrite andb_false_r.
Qed.





(** ** The filter of a query *)

Module QueryFilterFacts.
Import QueryFilter.

Lemma append_cons c (a b : string) : String c a +:+ b = String c (a +:+ b).
Proof. reflexivity. Qed.

Lemma append_assoc (a b c : string) : (a +:+ b) +:+ c = a +:+ (b +:+ c).
Proof.
  induction a as [|x a IH]; [reflexivity|]. rewrite !append_cons. now rewrite IH.
Qed.

Lemma append_nil_r (a : string) : a +:+ "" = a.
Proof.
  induction a as [|x a IH]; [reflexivity|]. rewrite append_cons. now rewrite IH.
Qed.

Lemma quote_not_and (x : string) : String.eqb (x +:+ "'") " and " = false.
Proof.
  apply String.eqb_neq.
  destruct x as [|c1 [|c2 [|c3 [|c4 [|c5 x]]]]]; try discriminate.
  rewrite !append_cons. destruct x; discriminate.
Qed.

(** A string that ends with a quote does not end with " and ". *)
Lemma HasSuffix_quote (x : string) : HasSuffix (x +:+ "'") " and " = false.
Proof.
  induction x as [|c x IH].
  - reflexivity.
  - rewrite append_cons. cbn [HasSuffix]. rewrite <- append_cons.
    now rewrite quote_not_and, IH.
Qed.

Lemma TrimSuffix_none s suffix : HasSuffix s suffix = false -> TrimSuffix s suffix = s.
Proof.
  induction s as [|c s IH]; cbn [HasSuffix TrimSuffix]; intros H;
    apply orb_false_iff in H as [H1 H2]; rewrite H1; [reflexivity|].
  now rewrite IH.
Qed.

Section Filter.
Variable Format : Time -> string.
Variable AddDate : Z -> Z -> Z -> Time -> Time.

Lemma add_bounds_clause q s :
  add_bounds Format q s
  = if IsZero (CreatedAfter q) && IsZero (CreatedBefore q) then s
    else s +:+ created_clause Format AddDate 0 q.
Proof.
  unfold add_bounds, created_clause.
  destruct (IsZero (CreatedAfter q)), (IsZero (CreatedBefore q)); reflexivity.
Qed.

Lemma created_clause_now now q :
  IsZero (CreatedAfter q) && IsZero (CreatedBefore q) = false ->
  created_clause Format AddDate 0 q = created_clause Format AddDate now q.
Proof.
  unfold created_clause.
  destruct (IsZero (CreatedAfter q)), (IsZero (CreatedBefore q));
    try reflexivity. discriminate.
Qed.

Lemma created_clause_quote now q :
  exists x, created_clause Format AddDate now q = x +:+ "'".
Proof.
  unfold created_clause.
  destruct (IsZero (CreatedAfter q)), (IsZero (CreatedBefore q)); eexists;
    rewrite <- ?append_assoc; reflexivity.
Qed.

Lemma String_from_eq s0 now q :
  String_from Format AddDate s0 now q
  = s0 +:+ product_clause q +:+ created_clause Format AddDate now q.
Proof.
  unfold String_from. rewrite add_bounds_clause.
  assert ((if negb (is_empty (qProduct q))
           then s0 +:+ "fields/ServiceType eq '" +:+ qProduct q +:+ "' and "
           else s0) = s0 +:+ product_clause q) as ->.
  { unfold product_clause. destruct (is_empty (qProduct q)); cbn [negb];
      [now rewrite append_nil_r | reflexivity]. }
  set (p := s0 +:+ product_clause q).
  assert ((if IsZero (CreatedAfter q) && IsZero (CreatedBefore q)
           then (if IsZero (CreatedAfter q) && IsZero (CreatedBefore q)
                 then p else p +:+ created_clause Format AddDate 0 q)
                +:+ "fields/Created ge '" +:+ Format (AddDate 0 (-1) 0 now) +:+ "'"
           else (if IsZero (CreatedAfter q) && IsZero (CreatedBefore q)
                 then p else p +:+ created_clause Format AddDate 0 q))
          = p +:+ created_clause Format AddDate now q) as ->.
  { destruct (IsZero (CreatedAfter q) && IsZero (CreatedBefore q)) eqn:E.
    - unfold created_clause. apply andb_true_iff in E as [-> ->]. reflexivity.
    - now rewrite (created_clause_now now q E). }
  destruct (created_clause_quote now q) as (x & ->). unfold p.
  rewrite <- !append_assoc. rewrite TrimSuffix_none by apply HasSuffix_quote.
  reflexivity.
Qed.

(** X14. The filter of a query is its opening, the clause on the product
    when a product is given, and exactly one clause on the creation time:
    between the two bounds, from the lower bound, up to the upper bound, or,
    with no bound, from one month before now. It never ends with " and ":
    the final [TrimSuffix] removes nothing. *)
Theorem String_from_clauses (s0 : string) (now : Time) (q : Query) :
  String_from Format AddDate s0 now q
  = s0 +:+ product_clause q +:+ created_clause Format AddDate now q /\
  HasSuffix (String_from Format AddDate s0 now q) " and " = false /\
  String_ Format AddDate now q
  = customerTypes +:+ String_v1 Format AddDate now q.
Proof.
  split; [apply String_from_eq|]. split.
  - rewrite String_from_eq. destruct (created_clause_quote now q) as (x & ->).
    rewrite <- !append_assoc. apply HasSuffix_quote.
  - unfold String_, String_v1. rewrite !String_from_eq. reflexivity.
Qed.

(** X15. The filter of the reviews has no opening, no clause on the
    product and no default: it is empty when the query has no bound, and
    otherwise it is the clause on the creation time that the filter of the
    applications ends with. *)
Theorem ToCAFinalQueryString_clause (now : Time) (q : Query) :
  (IsZero (CreatedAfter q) && IsZero (CreatedBefore q) = true ->
   ToCAFinalQueryString Format q = ""%string) /\
  (IsZero (CreatedAfter q) && IsZero (CreatedBefore q) = false ->
   ToCAFinalQueryString Format q = created_clause Format AddDate now q /\
   String_ Format AddDate now q
   = customerTypes +:+ product_clause q +:+ ToCAFinalQueryString Format q).
Proof.
  unfold ToCAFinalQueryString. rewrite add_bounds_clause.
  split; intros E; rewrite E; [reflexivity|].
  cbn [String.append]. rewrite (created_clause_now now q E).
  split; [reflexivity|]. unfold String_. now rewrite String_from_eq.
Qed.

End Filter.

End QueryFilterFacts.

(** ** The first version of the engine *)

Module LegacyFacts.

Lemma legacy_slot_fold h t0 hi0 :
  let r := fold_left Legacy.findBestTimeSlot_iter h (t0, hi0) in
  (Forall (fun e => tiTotal e <= hi0) h /\ r = (t0, hi0)) \/
  (exists h1 e h2,
     h = h1 ++ e :: h2 /\ r = (Title e, tiTotal e) /\ hi0 < tiTotal e /\
     Forall (fun e' => tiTotal e' < tiTotal e) h1 /\
     Forall (fun e' => tiTotal e' <= tiTotal e) h2).
Proof.
  revert t0 hi0. induction h as [|x h IH]; intros t0 hi0; cbn [fold_left].
  - left. split; [constructor | reflexivity].
  - cbn [Legacy.findBestTimeSlot_iter].
    destruct (Z.ltb_spec hi0 (tiTotal x)) as [Hlt|Hge].
    + right. destruct (IH (Title x) (tiTotal x)) as [[Hall Hr]|(h1 & e & h2 & -> & Hr & Hlt' & H1 & H2)].
      * exists [], x, h. cbv zeta in Hr. rewrite Hr.
        split; [reflexivity|]. split; [reflexivity|]. split; [exact Hlt|].
        split; [constructor | exact Hall].
      * exists (x :: h1), e, h2. cbv zeta in Hr. rewrite Hr.
        split; [reflexivity|]. split; [reflexivity|]. split; [lia|].
        split; [constructor; [lia | exact H1] | exact H2].
    + destruct (IH t0 hi0) as [[Hall Hr]|(h1 & e & h2 & -> & Hr & Hlt' & H1 & H2)].
      * left. split; [constructor; [lia | exact Hall] | exact Hr].
      * right. exists (x :: h1), e, h2. cbv zeta in Hr. rewrite Hr.
        split; [reflexivity|]. split; [reflexivity|]. split; [exact Hlt'|].
        split; [constructor; [lia | exact H1] | exact H2].
Qed.

Lemma legacy_slot_cases (h : list TimeInterval) :
  (Forall (fun e => tiTotal e <= 0) h /\ Legacy.findBestTimeSlot h = ""%string) \/
  (exists h1 e h2,
     h = h1 ++ e :: h2 /\ Legacy.findBestTimeSlot h = Title e /\ 0 < tiTotal e /\
     Forall (fun e' => tiTotal e' < tiTotal e) h1 /\
     Forall (fun e' => tiTotal e' <= tiTotal e) h2).
Proof.
  unfold Legacy.findBestTimeSlot. destruct h as [|x h]; [left; split; [constructor | reflexivity]|].
  cbn [length Nat.eqb].
  destruct (legacy_slot_fold (x :: h) ""%string 0)
    as [[Hall Hr]|(h1 & e & h2 & E & Hr & Hlt & H1 & H2)]; cbv zeta in Hr; rewrite Hr.
  - left. split; [exact Hall | reflexivity].
  - right. exists h1, e, h2. auto.
Qed.

(** X16. The best time slot is the title of the first interval with the
    greatest total, when that total is positive: every interval before it
    has a smaller total and none after it a greater one. It is the empty
    string when no interval has a positive total. *)
Theorem legacy_findBestTimeSlot_first_greatest (h : list TimeInterval) :
  (Forall (fun e => tiTotal e <= 0) h /\ Legacy.findBestTimeSlot h = ""%string) \/
  (exists h1 e h2,
     h = h1 ++ e :: h2 /\ Legacy.findBestTimeSlot h = Title e /\ 0 < tiTotal e /\
     Forall (fun e' => tiTotal e' < tiTotal e) h1 /\
     Forall (fun e' => tiTotal e' <= tiTotal e) h2).
Proof. apply legacy_slot_cases. Qed.

Lemma legacy_iter_counters now s a :
  Legacy.converted (Legacy.newConversion_iter now s a)
  = Legacy.converted s + b2z (Legacy.isConverted a) /\
  Legacy.fastestCount (Legacy.newConversion_iter now s a)
  = Legacy.fastestCount s + b2z (Legacy.isConverted a && (elapsed a <=? Hour)).
Proof.
  unfold Legacy.newConversion_iter, Legacy.isConverted, elapsed. cbv zeta.
  destruct (CompletedAt a); cbn [notNil];
    destruct (String.eqb (ToLower (Status a)) "pending");
    destruct (0 <? len (Status a)); destruct (is_empty (Status a));
    cbn [negb andb orb Legacy.converted Legacy.fastestCount b2z];
    repeat match goal with
           | |- context [if ?c then _ else _] => destruct c
           end; cbn [Legacy.converted Legacy.fastestCount b2z]; split; lia.
Qed.

Lemma legacy_fold_counters now l s :
  let s' := fold_left (Legacy.newConversion_iter now) l s in
  Legacy.converted s' = Legacy.converted s + count Legacy.isConverted l /\
  Legacy.fastestCount s'
  = Legacy.fastestCount s
    + count (fun a => Legacy.isConverted a && (elapsed a <=? Hour)) l.
Proof.
  revert s. induction l as [|a l IH]; intros s; cbn [fold_left].
  - cbn. lia.
  - destruct (IH (Legacy.newConversion_iter now s a)) as (H1 & H2).
    destruct (legacy_iter_counters now s a) as (H3 & H4).
    cbv zeta in *. rewrite !count_b2z, H1, H2, H3, H4. lia.
Qed.

Lemma legacy_read_zero t : read Legacy.zero_intervals t = 0.
Proof.
  unfold read, Legacy.zero_intervals. cbn [fold_left Legacy.titles].
  repeat (rewrite lookup_insert; case_decide; [reflexivity|]).
  rewrite lookup_empty. reflexivity.
Qed.

Lemma legacy_read_fold l m t :
  read (fold_left Legacy.byConverted_iter l m) t
  = read m t + count (Legacy.in_bucket t) l.
Proof.
  revert m. induction l as [|a l IH]; intros m; cbn [fold_left count]; [lia|].
  rewrite IH. unfold Legacy.byConverted_iter, Legacy.in_bucket, Legacy.isConverted, elapsed.
  destruct (CompletedAt a); cbn [notNil].
  - rewrite andb_true_r. destruct (_ && _); cbn [andb].
    + rewrite read_incr. unfold b2z. lia.
    + lia.
  - rewrite andb_false_r. cbn [andb]. lia.
Qed.

Lemma legacy_bucket_once a :
  sumZ (map (fun t => b2z (Legacy.in_bucket t a)) Legacy.titles)
  = b2z (Legacy.isConverted a).
Proof.
  unfold Legacy.in_bucket. destruct (Legacy.isConverted a); [|reflexivity].
  unfold Legacy.bucket.
  repeat match goal with
         | |- context [?x <? ?y] => destruct (x <? y)
         end; reflexivity.
Qed.

Lemma legacy_totals l :
  map tiTotal (Legacy.createTimeIntervalsByConverted l)
  = map (fun t => count (Legacy.in_bucket t) l) Legacy.titles.
Proof.
  unfold Legacy.createTimeIntervalsByConverted, Legacy.to_intervals.
  rewrite map_map. cbn [tiTotal]. apply map_ext. intros t.
  rewrite legacy_read_fold, legacy_read_zero. lia.
Qed.

Lemma legacy_sum_totals l :
  sum_totals (Legacy.createTimeIntervalsByConverted l) = count Legacy.isConverted l.
Proof.
  unfold sum_totals. rewrite legacy_totals.
  induction l as [|a l IH]; [reflexivity|].
  rewrite count_b2z, <- IH, <- legacy_bucket_once.
  unfold Legacy.titles, sumZ. cbn [map fold_right]. rewrite !count_b2z. lia.
Qed.

Lemma sum_zero_all (l : list Z) :
  Forall (fun n => 0 <= n) l -> sumZ l = 0 -> Forall (fun n => n <= 0) l.
Proof.
  induction 1 as [|n l Hn Hl IH]; [constructor|]. unfold sumZ in *. cbn [fold_right].
  intros Hs.
  assert (0 <= fold_right Z.add 0 l) as Hnn
    by (clear - Hl; induction Hl; cbn; lia).
  constructor; [lia | apply IH; lia].
Qed.

(** X17. In the first version the histogram of completed durations has the
    six buckets from "<1h" to "5h+", its counts add up to the converted
    count of the summary, and the best time slot of the overview is one of
    the six titles, or the empty string exactly when no record is
    converted. *)
Theorem legacy_best_time_slot (now : Time) (appIns : list AppIn) :
  let h := Legacy.createTimeIntervalsByConverted appIns in
  let c := Legacy.newConversion now appIns in
  map Title h = Legacy.titles /\
  sum_totals h = Legacy.Converted c /\
  (Legacy.Converted c = 0 <-> Legacy.BestTimeSlot appIns = ""%string) /\
  (0 < Legacy.Converted c -> In (Legacy.BestTimeSlot appIns) Legacy.titles).
Proof.
  cbv zeta.
  destruct (legacy_fold_counters now appIns Legacy.counters0) as (Hc & _).
  cbv zeta in Hc. cbn [Legacy.counters0 Legacy.converted] in Hc.
  unfold Legacy.newConversion. cbn [Legacy.Converted]. rewrite Hc, Z.add_0_l.
  pose proof (legacy_sum_totals appIns) as Hs.
  pose proof (legacy_totals appIns) as Ht.
  assert (map Title (Legacy.createTimeIntervalsByConverted appIns) = Legacy.titles) as Hti.
  { unfold Legacy.createTimeIntervalsByConverted, Legacy.to_intervals.
    rewrite map_map. cbn [Title]. apply map_id. }
  assert (Forall (fun e => 0 <= tiTotal e) (Legacy.createTimeIntervalsByConverted appIns))
    as Hnn.
  { apply Forall_forall. intros e He.
    assert (In (tiTotal e) (map tiTotal (Legacy.createTimeIntervalsByConverted appIns)))
      as Hin by (apply in_map, list_elem_of_In, He).
    rewrite Ht in Hin. apply in_map_iff in Hin as (t & <- & _). apply count_nonneg. }
  assert (forall e, e ∈ Legacy.createTimeIntervalsByConverted appIns ->
                    In (Title e) Legacy.titles) as Htitle.
  { intros e He. rewrite <- Hti. apply in_map, list_elem_of_In, He. }
  pose proof (count_nonneg Legacy.isConverted appIns) as Hc0.
  unfold Legacy.BestTimeSlot.
  destruct (legacy_slot_cases (Legacy.createTimeIntervalsByConverted appIns))
    as [[Hall Hr]|(h1 & e & h2 & E & Hr & Hpos & H1 & H2)].
  - (* no positive count: nothing is converted *)
    assert (sum_totals (Legacy.createTimeIntervalsByConverted appIns) <= 0) as Hle.
    { unfold sum_totals. clear - Hall.
      induction Hall as [|e l He _ IH]; cbn [map fold_right]; lia. }
    rewrite Hr. split; [exact Hti|]. split; [exact Hs|].
    split; [split; [reflexivity | lia] | lia].
  - (* a positive count *)
    assert (e ∈ Legacy.createTimeIntervalsByConverted appIns) as He
      by (rewrite E; apply elem_of_app; right; left).
    assert (0 < sum_totals (Legacy.createTimeIntervalsByConverted appIns)) as Hlt.
    { unfold sum_totals. rewrite E in Hnn |- *. clear - Hnn Hpos.
      rewrite map_app. cbn [map].
      apply Forall_app in Hnn as [Ha Hb]. apply Forall_cons in Hb as [_ Hb].
      assert (forall l, Forall (fun e => 0 <= tiTotal e) l ->
                        0 <= fold_right Z.add 0 (map tiTotal l)) as Hsum
        by (induction 1; cbn; lia).
      pose proof (Hsum _ Ha). pose proof (Hsum _ Hb).
      rewrite fold_right_app. cbn [fold_right].
      assert (forall l z, fold_right Z.add z (map tiTotal l)
                          = fold_right Z.add 0 (map tiTotal l) + z) as Hz
        by (induction l; intros; cbn; [lia | rewrite IHl; lia]).
      rewrite Hz. lia. }
    rewrite Hr. split; [exact Hti|]. split; [exact Hs|]. split; [|intros _; now apply Htitle].
    pose proof (Htitle e He) as Hin. split; [lia|].
    intros E0. rewrite E0 in Hin. cbn in Hin. intuition discriminate.
Qed.

End LegacyFacts.

(** ** The overview as a whole *)

Lemma size_performances now l :
  size (performances_of now l) = size (groupAppInByExecutor l).
Proof.
  rewrite <- !length_map_to_list.
  rewrite (Permutation_length (performances_of_entries now l)). apply length_map.
Qed.

Lemma createLeaderboards_length `{SortSlice} m it :
  ranges m it -> length (createLeaderboards it) = Nat.min 5 (size m).
Proof.
  intros Hr. destruct (createLeaderboards_take it) as (ps & Hp & _ & ->).
  rewrite length_imap, length_take, Hp, length_map. unfold ranges in Hr.
  now rewrite Hr, length_map_to_list.
Qed.

Lemma groups_size_le (l : list AppIn) :
  Z.of_nat (size (groupAppInByExecutor l)) <= count assigned l.
Proof.
  rewrite groupAppInByExecutor_group_by.
  assert (weigh_groups (fun _ => 1) (group_by executorKey l) = count assigned l) as <-.
  { rewrite weigh_group_by, <- weigh_count. apply weigh_ext.
    intros a. unfold keyed. rewrite <- executorKey_assigned. now destruct (executorKey a). }
  unfold weigh_groups. rewrite <- length_map_to_list.
  rewrite <- (length_map (fun e : string * list AppIn => weigh (fun _ => 1) (snd e))).
  apply sumZ_ge_length. apply Forall_forall. intros n Hn.
  apply list_elem_of_In, in_map_iff in Hn as ([k g] & <- & Hin).
  apply list_elem_of_In, elem_of_map_to_list in Hin.
  rewrite group_by_lookup in Hin. apply group_of_nonempty in Hin as [Hne _].
  cbn [snd]. rewrite weigh_one. destruct g; [congruence | cbn; lia].
Qed.

(** X18. The fields of an overview fit together: the leaderboard has
    min(5, active performers) entries; the best-time performer is "N/A"
    exactly when there is no active performer, and then the top performer
    is the zero value and the leaderboard is empty; there are no more
    active performers than assigned records, nor more of these than the
    total; the histogram of completed durations adds up to the converted
    count; the product metrics have one entry per product group; and no
    review overview is attached yet. *)
Theorem newOverview_fields_fit `{SortSlice} (now : Time) (o : rangeOrders)
    (appIns : list AppIn) :
  admissible now appIns o ->
  let r := newOverview now o appIns in
  Z.of_nat (length (Leaderboards r)) = Z.min 5 (ActiveExecutor r) /\
  (ActiveExecutor r = 0 <-> BestTimeUsed r = no_best) /\
  (ActiveExecutor r = 0 -> TopPerformer_ r = no_top /\ Leaderboards r = []) /\
  0 <= ActiveExecutor r <= count assigned appIns /\
  count assigned appIns <= Total (Conversion_ r) /\
  sum_totals (TimeIntervalsByConverted r) = Converted (Conversion_ r) /\
  length (ProductMetrics_ r) = size (groupAppInByProduct appIns) /\
  CAFinalOverview_ r = None.
Proof.
  intros (A1 & A2 & A3 & A4). cbv zeta. unfold newOverview.
  cbn [Leaderboards ActiveExecutor BestTimeUsed TopPerformer_ Conversion_
       TimeIntervalsByConverted ProductMetrics_ CAFinalOverview_].
  pose proof (createLeaderboards_length _ _ A2) as Hl.
  rewrite (size_performances now appIns) in Hl.
  pose proof (groups_size_le appIns) as Hsz.
  destruct (newConversion_counts now appIns) as (Ht & Hc & _). cbv zeta in *.
  assert (size (groupAppInByExecutor appIns) = 0%nat ->
          topOrder o = [] /\ boardOrder o = [] /\ bestOrder o = []) as Hempty.
  { intros E. rewrite <- (size_performances now appIns) in E. apply map_size_empty_iff in E.
    rewrite E in A1, A2, A3. now apply ranges_empty in A1, A2, A3. }
  split; [rewrite Hl; lia|]. split; [|split; [|split; [|split; [|split; [|split]]]]].
  - unfold no_best. rewrite findBestTime_NA_iff. split.
    + intros E. apply Hempty. lia.
    + intros E. unfold ranges in A3. rewrite E in A3. symmetry in A3.
      apply Permutation_nil_r, map_to_list_empty_iff in A3.
      rewrite <- (size_performances now appIns), A3, map_size_empty. reflexivity.
  - intros E. destruct Hempty as (E1 & E2 & _); [lia|]. rewrite E1, E2.
    unfold createLeaderboards. cbn [map]. rewrite sort_slice_nil. split; reflexivity.
  - lia.
  - rewrite Ht. apply count_le_length.
  - rewrite Hc, createTimeIntervalsByConverted_tally.
    destruct (tally_histogram convertedDuration appIns) as (_ & _ & _ & ->).
    apply count_ext. intros a. unfold convertedDuration. now destruct (isConverted a).
  - unfold calculatePerformanceConversionMetricsByProduct.
    rewrite sort_slice_perm, length_map. unfold ranges in A4.
    now rewrite A4, length_map_to_list.
  - reflexivity.
Qed.

Lemma newOverview_fields_fit_witness :
  admissible 0 scenario (forward scenario) /\
  Z.of_nat (length (Leaderboards
    (newOverview (H := insertion_SortSlice) 0 (forward scenario) scenario)))
  = Z.min 5 (ActiveExecutor
    (newOverview (H := insertion_SortSlice) 0 (forward scenario) scenario)).
Proof.
  split; [apply forward_admissible|].
  apply (newOverview_fields_fit (H := insertion_SortSlice) 0 (forward scenario) scenario).
  repeat split; unfold ranges; reflexivity.
Defined.

Lemma groupCAFinalByExecutor_group_by l :
  groupCAFinalByExecutor l = group_by caExecutorKey l.
Proof.
  unfold groupCAFinalByExecutor, group_by. apply fold_left_ext.
  intros g a. unfold caExecutorKey. destruct (is_empty _); reflexivity.
Qed.

Lemma caExecutorKey_Some c k :
  caExecutorKey c = Some k <-> caExecutor c = k /\ caExecutor c <> ""%string.
Proof.
  unfold caExecutorKey. destruct (caExecutor c) as [|x s] eqn:E; cbn.
  - split; [discriminate | intros [_ Hne]; now destruct Hne].
  - split; [intros [= <-]; split; [reflexivity | discriminate]
           | intros [<- _]; reflexivity].
Qed.

(** X19. The groups of the reviews by performer partition the assigned
    reviews: a group is never empty nor keyed by the empty name, its
    reviews are those of its performer in input order, and the sizes of the
    groups add up to the number of reviews that have a performer. *)
Theorem groupCAFinalByExecutor_partition (cs : list CAFinal) :
  let groups := groupCAFinalByExecutor cs in
  groups !! ""%string = None /\
  (forall k g, groups !! k = Some g ->
     g <> [] /\ g = filter (fun c => caExecutorKey c = Some k) cs /\
     Forall (fun c => caExecutor c = k) g) /\
  weigh_groups (fun _ => 1) groups = count caAssigned cs.
Proof.
  cbv zeta. rewrite groupCAFinalByExecutor_group_by.
  assert (forall k g, group_by caExecutorKey cs !! k = Some g ->
            g <> [] /\ g = filter (fun c => caExecutorKey c = Some k) cs /\
            Forall (fun c => caExecutor c = k) g) as H1.
  { intros k g Hk. rewrite group_by_lookup in Hk.
    apply group_of_nonempty in Hk as [Hne ->]. split; [exact Hne|].
    split; [reflexivity|]. apply Forall_forall. intros c Hc.
    apply list_elem_of_filter in Hc as [Hc _]. now apply caExecutorKey_Some in Hc. }
  split; [|split; [exact H1|]].
  - destruct (group_by caExecutorKey cs !! ""%string) as [g|] eqn:E; [|reflexivity].
    exfalso. destruct (H1 _ _ E) as (Hne & -> & _).
    destruct (filter (fun c => caExecutorKey c = Some ""%string) cs) as [|c g] eqn:Ef;
      [congruence|].
    assert (c ∈ filter (fun c => caExecutorKey c = Some ""%string) cs) as Hc
      by (rewrite Ef; left).
    apply list_elem_of_filter in Hc as [Hc _]. apply caExecutorKey_Some in Hc.
    destruct Hc as [Hc1 Hc2]. now apply Hc2.
  - rewrite weigh_group_by, <- weigh_count. apply weigh_ext. intros c.
    unfold keyed, caExecutorKey, caAssigned. now destruct (is_empty _).
Qed.

(** X20. In the first version the fastest count is the count of bucket
    "<1h" plus the number of conversions that took exactly one hour. *)
Theorem legacy_fastest_against_first_bucket (now : Time) (appIns : list AppIn) :
  Legacy.Fastest (Legacy.newConversion now appIns)
  = legacy_first_bucket (Legacy.createTimeIntervalsByConverted appIns)
    + count Legacy.on_speed_threshold appIns.
Proof.
  destruct (LegacyFacts.legacy_fold_counters now appIns Legacy.counters0) as (_ & Hf).
  cbv zeta in Hf. cbn [Legacy.counters0 Legacy.fastestCount] in Hf.
  unfold Legacy.newConversion. cbn [Legacy.Fastest]. rewrite Hf, Z.add_0_l.
  assert (legacy_first_bucket (Legacy.createTimeIntervalsByConverted appIns)
          = count (Legacy.in_bucket "<1h") appIns) as ->.
  { unfold legacy_first_bucket, Legacy.createTimeIntervalsByConverted.
    set (m := fold_left _ _ _).
    assert (bucket_total (Legacy.to_intervals m) "<1h" = read m "<1h") as ->.
    { unfold bucket_total, Legacy.to_intervals, Legacy.titles, sumZ. cbn -[read]. lia. }
    unfold m. rewrite LegacyFacts.legacy_read_fold, LegacyFacts.legacy_read_zero. lia. }
  apply count_split. intros a.
  unfold Legacy.in_bucket, Legacy.on_speed_threshold.
  destruct (Legacy.isConverted a); [|reflexivity]. cbn [andb].
  unfold Legacy.bucket.
  destruct (Z.leb_spec (elapsed a) Hour); destruct (Z.eqb_spec (elapsed a) Hour);
    destruct (Z.ltb_spec (elapsed a) Hour); try lia; try reflexivity.
  all: destruct (elapsed a <? 2 * Hour); [reflexivity|];
    destruct (elapsed a <? 3 * Hour); [reflexivity|];
    destruct (elapsed a <? 4 * Hour); [reflexivity|];
    destruct (elapsed a <? 5 * Hour); reflexivity.
Qed.

(** ** The overview of the review stream *)

Lemma group_by_size_le {A} (key : A -> option string) (l : list A) :
  Z.of_nat (size (group_by key l)) <= weigh (keyed key (fun _ => 1)) l.
Proof.
  rewrite <- weigh_group_by. unfold weigh_groups. rewrite <- length_map_to_list.
  rewrite <- (length_map (fun e : string * list A => weigh (fun _ => 1) (snd e))).
  apply sumZ_ge_length. apply Forall_forall. intros n Hn.
  apply list_elem_of_In, in_map_iff in Hn as ([k g] & <- & Hin).
  apply list_elem_of_In, elem_of_map_to_list in Hin.
  rewrite group_by_lookup in Hin. apply group_of_nonempty in Hin as [Hne _].
  cbn [snd]. rewrite weigh_one. destruct g; [congruence | cbn; lia].
Qed.

Lemma caPerformances_of_lookup now cs k p :
  caPerformances_of now cs !! k = Some p ->
  exists g, groupCAFinalByExecutor cs !! k = Some g /\
            p = {| pmDisplayName := k;
                   pmConversion := newCAFinalConversion now g;
                   pmPerformances := createCAFinalTimeIntervalsByConverted g |}.
Proof.
  unfold caPerformances_of, calculateCAFinalConversionMetricsByExecutor.
  rewrite map_lookup_imap. destruct (groupCAFinalByExecutor cs !! k) as [g|]; [|discriminate].
  cbn. intros [= <-]. now exists g.
Qed.

Lemma size_caPerformances now cs :
  size (caPerformances_of now cs) = size (groupCAFinalByExecutor cs).
Proof.
  rewrite <- !length_map_to_list.
  unfold caPerformances_of, calculateCAFinalConversionMetricsByExecutor.
  rewrite (Permutation_length
             (map_to_list_imap_Some
                (fun executor cs =>
                   {| pmDisplayName := executor;
                      pmConversion := newCAFinalConversion now cs;
                      pmPerformances := createCAFinalTimeIntervalsByConverted cs |})
                (groupCAFinalByExecutor cs))).
  apply length_map.
Qed.

(** X21. The overview of the review stream fits together like that of the
    applications: the leaderboard has min(5, active performers) entries,
    each under the name of a group of reviews, with the size of the group
    as its total, the completed reviews of the group as its converted count
    and the histogram of the group; the best-time performer is "N/A"
    exactly when there is no active performer, and then the top performer
    is the zero value; and there are no more active performers than reviews
    with a performer, nor more of these than the total. *)
Theorem newCAFinalOverview_fields_fit `{SortSlice} (now : Time) (o : caRangeOrders)
    (cs : list CAFinal) :
  caAdmissible now cs o ->
  let r := newCAFinalOverview now o cs in
  Z.of_nat (length (caLeaderboards r)) = Z.min 5 (caActiveExecutor r) /\
  (caActiveExecutor r = 0 <-> caBestTimeUsed r = no_best) /\
  (caActiveExecutor r = 0 -> caTopPerformer r = no_top /\ caLeaderboards r = []) /\
  0 <= caActiveExecutor r <= count caAssigned cs /\
  count caAssigned cs <= Total (caConversion r) /\
  (forall e, e ∈ caLeaderboards r ->
     exists g, groupCAFinalByExecutor cs !! lbDisplayName e = Some g /\
               lbTotal e = Z.of_nat (length g) /\
               lbConverted e = count caIsCompleted g /\
               lbPerformances e = createCAFinalTimeIntervalsByConverted g).
Proof.
  intros (A1 & A2 & A3). cbv zeta. unfold newCAFinalOverview.
  cbn [caLeaderboards caActiveExecutor caBestTimeUsed caTopPerformer caConversion].
  pose proof (createLeaderboards_length _ _ A2) as Hl.
  rewrite (size_caPerformances now cs) in Hl.
  assert (Z.of_nat (size (groupCAFinalByExecutor cs)) <= count caAssigned cs) as Hsz.
  { rewrite groupCAFinalByExecutor_group_by.
    assert (count caAssigned cs = weigh (keyed caExecutorKey (fun _ => 1)) cs) as ->;
      [|apply group_by_size_le].
    rewrite <- weigh_count. apply weigh_ext. intros c.
    unfold keyed, caExecutorKey, caAssigned. now destruct (is_empty _). }
  assert (size (groupCAFinalByExecutor cs) = 0%nat ->
          caTopOrder o = [] /\ caBoardOrder o = [] /\ caBestOrder o = []) as Hempty.
  { intros E. rewrite <- (size_caPerformances now cs) in E.
    apply map_size_empty_iff in E.
    rewrite E in A1, A2, A3. now apply ranges_empty in A1, A2, A3. }
  split; [rewrite Hl; lia|]. split; [|split; [|split; [|split]]].
  - unfold no_best. rewrite findBestTime_NA_iff. split.
    + intros E. apply Hempty. lia.
    + intros E. unfold ranges in A3. rewrite E in A3. symmetry in A3.
      apply Permutation_nil_r, map_to_list_empty_iff in A3.
      rewrite <- (size_caPerformances now cs), A3, map_size_empty. reflexivity.
  - intros E. destruct Hempty as (E1 & E2 & _); [lia|]. rewrite E1, E2.
    unfold createLeaderboards. cbn [map]. rewrite sort_slice_nil. split; reflexivity.
  - lia.
  - unfold newCAFinalConversion. cbn [Total]. apply count_le_length.
  - intros e He. destruct (createLeaderboards_take (caBoardOrder o)) as (ps & Hp & _ & E).
    rewrite E in He. apply elem_of_lookup_imap in He as (i & p & -> & Hi).
    assert (p ∈ map snd (caBoardOrder o)) as Hin.
    { rewrite <- Hp. apply list_elem_of_lookup_2 in Hi. rewrite <- (take_drop 5 ps).
      apply elem_of_app. now left. }
    destruct (ranges_values _ _ _ A2 Hin) as (k & Hk).
    apply caPerformances_of_lookup in Hk as (g & Hg & ->). exists g.
    cbn [leaderboard_entry lbDisplayName lbTotal lbConverted lbPerformances
         pmDisplayName pmConversion pmPerformances].
    split; [exact Hg|]. split; [reflexivity|]. split; [|reflexivity].
    destruct (ca_fold_counters now g counters0) as (Hc & _). cbv zeta in Hc.
    unfold newCAFinalConversion. cbn [Converted]. rewrite Hc.
    cbn [counters0 converted]. rewrite Z.add_0_l.
    apply count_ext, caIsConverted_completed.
Qed.

Lemma newCAFinalOverview_fields_fit_witness :
  caAdmissible 0 reviews (caForward 0 reviews) /\
  Z.of_nat (length (caLeaderboards
    (newCAFinalOverview (H := insertion_SortSlice) 0 (caForward 0 reviews) reviews)))
  = Z.min 5 (caActiveExecutor
    (newCAFinalOverview (H := insertion_SortSlice) 0 (caForward 0 reviews) reviews)).
Proof.
  assert (caAdmissible 0 reviews (caForward 0 reviews)) as A
    by (repeat split; unfold ranges; reflexivity).
  split; [exact A|].
  exact (proj1 (newCAFinalOverview_fields_fit (H := insertion_SortSlice) 0
                  (caForward 0 reviews) reviews A)).
Defined.
